(** * Specky: a shallow embedding of the OpenAPI-to-MCP translation layer

    The development follows the layout of the TypeScript sources:
    - [Js]         the fragment of JavaScript strings and values the code uses;
    - [Types]      src/types/index.ts;
    - [Parser]     src/parser/swagger.ts;
    - [Generator]  src/generator/mcp-tools.ts;
    - [Auth]       src/auth/handlers.ts;
    - [FullMode]   src/server/mcp-server.ts;
    - [SearchMode] src/server/search-mode.ts.

    Definitions come first, the properties of the specification after them. *)

From Stdlib Require Import ZArith NArith Lia Bool Ascii String List Sorted Permutation.
From stdpp Require Import base list gmap strings fin_maps pretty.

Local Open Scope string_scope.
Local Open Scope list_scope.

(* ===================================================================== *)
(** ** JavaScript strings and values *)
(* ===================================================================== *)

Module Js.

(** Strings are sequences of code units.  The model is exact on ASCII text;
    a unit from 128 on is kept as an opaque unit, which is no letter, no
    digit and no white space and which case mapping leaves alone. *)

Definition code (c : ascii) : N := N_of_ascii c.

Definition isLower (c : ascii) : bool := (97 <=? code c)%N && (code c <=? 122)%N.
Definition isUpper (c : ascii) : bool := (65 <=? code c)%N && (code c <=? 90)%N.
Definition isDigit (c : ascii) : bool := (48 <=? code c)%N && (code c <=? 57)%N.
Definition isLetter (c : ascii) : bool := isLower c || isUpper c.
Definition isAlnum (c : ascii) : bool := isLetter c || isDigit c.

(** [\s] restricted to the ASCII range: TAB, LF, VT, FF, CR and SPACE. *)
Definition isSpace (c : ascii) : bool :=
  ((9 <=? code c)%N && (code c <=? 13)%N) || (code c =? 32)%N.

Definition toLowerChar (c : ascii) : ascii :=
  if isUpper c then ascii_of_N (code c + 32) else c.
Definition toUpperChar (c : ascii) : ascii :=
  if isLower c then ascii_of_N (code c - 32) else c.

Fixpoint smap (f : ascii -> ascii) (s : string) : string :=
  match s with
  | EmptyString => EmptyString
  | String c t => String (f c) (smap f t)
  end.

Fixpoint sall (p : ascii -> bool) (s : string) : bool :=
  match s with
  | EmptyString => true
  | String c t => p c && sall p t
  end.

Definition toLowerCase : string -> string := smap toLowerChar.
Definition toUpperCase : string -> string := smap toUpperChar.

(** [s.charAt(0)] and [s.slice(1)]. *)
Definition charAt0 (s : string) : string :=
  match s with
  | EmptyString => ""
  | String c _ => String c ""
  end.
Definition slice1 (s : string) : string :=
  match s with
  | EmptyString => ""
  | String _ t => t
  end.

(** [s.startsWith(p)] and [s.includes(q)]. *)
Definition startsWith (s p : string) : bool := String.prefix p s.

Fixpoint includes (s q : string) : bool :=
  String.prefix q s ||
  match s with
  | EmptyString => false
  | String _ t => includes t q
  end.

(** [s.split(' ')]: the result is never empty, its head is the piece
    that is being read. *)
Fixpoint splitSpace (s : string) : list string :=
  match s with
  | EmptyString => [""]
  | String c t =>
      let r := splitSpace t in
      if Ascii.eqb c " " then "" :: r
      else match r with
           | w :: ws => String c w :: ws
           | [] => [String c ""]
           end
  end.

(** [s.split(/\s+/)]: a whole run of white space is one separator. *)
Fixpoint splitWs (s : string) : list string :=
  match s with
  | EmptyString => [""]
  | String c t =>
      let r := splitWs t in
      if isSpace c then
        match t with
        | String c' _ => if isSpace c' then r else "" :: r
        | EmptyString => "" :: r
        end
      else match r with
           | w :: ws => String c w :: ws
           | [] => [String c ""]
           end
  end.

(** [l.join(sep)]. *)
Fixpoint join (sep : string) (l : list string) : string :=
  match l with
  | [] => ""
  | [w] => w
  | w :: ws => w +:+ sep +:+ join sep ws
  end.

(** Truthiness of a string: only the empty string is falsy. *)
Definition nonEmpty (s : string) : bool :=
  match s with
  | EmptyString => false
  | String _ _ => true
  end.

Local Set Warnings "-register-all".

(** Values of type [unknown]: what [JSON.parse] can produce, and
    [undefined]. Objects keep their entries in order. *)
Inductive Value : Type :=
| VUndefined
| VNull
| VBool (b : bool)
| VNum (z : Z)
| VStr (s : string)
| VArr (l : list Value)
| VObj (o : list (string * Value)).

Abbreviation Obj := (list (string * Value)).

(** [o[k]] on an object given by its entries (the keys of an object
    are pairwise distinct). *)
Fixpoint lookupKey {A : Type} (k : string) (o : list (string * A)) : option A :=
  match o with
  | [] => None
  | (k', v) :: rest => if String.eqb k' k then Some v else lookupKey k rest
  end.

(** [o[k] = v], also [{ ...o, k: v }]: an entry that exists keeps its
    place, a new one goes last. *)
Fixpoint setKey {A : Type} (k : string) (v : A) (o : list (string * A))
  : list (string * A) :=
  match o with
  | [] => [(k, v)]
  | (k', v') :: rest =>
      if String.eqb k' k then (k, v) :: rest else (k', v') :: setKey k v rest
  end.

Definition getProp (k : string) (o : Obj) : Value :=
  match lookupKey k o with
  | Some v => v
  | None => VUndefined
  end.

(** [v === 'literal']. *)
Definition isStr (v : Value) (literal : string) : bool :=
  match v with
  | VStr s => String.eqb s literal
  | _ => false
  end.

(** [!!v]. *)
Definition truthy (v : Value) : bool :=
  match v with
  | VUndefined | VNull => false
  | VBool b => b
  | VNum z => negb (z =? 0)%Z
  | VStr s => nonEmpty s
  | VArr _ | VObj _ => true
  end.

(** Outcome of a call: it returns a value or throws one. *)
Inductive Thrown : Type :=
| ErrorObject (message : string)   (* [error instanceof Error] *)
| OtherThrown.                     (* anything else that was thrown *)

Inductive Completion (A : Type) : Type :=
| Returned (a : A)
| Throws (e : Thrown).
Arguments Returned {A} a.
Arguments Throws {A} e.

End Js.

Export Js.

(* ===================================================================== *)
(** ** src/types/index.ts *)
(* ===================================================================== *)

Module Types.

Inductive AuthType : Type := none | apikey | bearer | basic | oauth2.

Record AuthConfig : Type := {
  auth_type : AuthType;
  token : option string;
  headerName : option string;
  username : option string;
  password : option string;
  clientId : option string;
  clientSecret : option string;
  tokenUrl : option string
}.

(** [type] and [format] are declared strings; what the parser stores in
    them is whatever the schema holds, so they are kept as values. *)
Record ParameterInfo : Type := {
  param_name : string;
  param_required : bool;
  param_description : option string;
  param_type : Value;
  param_format : Value;
  param_enum : option (list Value);
  param_default : Value
}.

Record RequestBodyInfo : Type := {
  body_required : bool;
  body_description : option string;
  contentType : string;
  schema : Obj
}.

Record ResponseInfo : Type := {
  statusCode : string;
  resp_description : option string;
  resp_contentType : option string;
  resp_schema : option Obj
}.

(** [method] is one of get, post, put, patch, delete, head, options; it is
    kept as the string the code compares and re-cases. *)
Record ParsedEndpoint : Type := {
  operationId : string;
  method : string;
  path : string;
  summary : option string;
  description : option string;
  pathParams : list ParameterInfo;
  queryParams : list ParameterInfo;
  headerParams : list ParameterInfo;
  requestBody : option RequestBodyInfo;
  responses : list ResponseInfo;
  tags : list string;
  security : list string
}.

(** [inputSchema]: [type] is always the literal 'object'; [properties] is a
    plain JavaScript object used as a map from names to schemas, given here
    by its own entries. *)
Record InputSchema : Type := {
  schema_type : string;
  properties : gmap string Value;
  required : list string
}.

Record GeneratedTool : Type := {
  tool_name : string;
  tool_description : string;
  inputSchema : InputSchema;
  endpoint : ParsedEndpoint
}.

Record ParsedSpec : Type := {
  title : string;
  version : string;
  spec_description : option string;
  baseUrl : string;
  endpoints : list ParsedEndpoint
}.

End Types.

Export Types.

(* ===================================================================== *)
(** ** src/parser/swagger.ts *)
(* ===================================================================== *)

Module Parser.

(** The dereferenced document, with the shape the openapi-types
    declarations give it.  A field that may be absent is an [option]; a
    schema is an object of unknown content. *)

Record ParameterObject : Type := {
  po_name : string;
  po_in : string;
  po_required : option bool;
  po_description : option string;
  po_schema : option Obj;   (* OpenAPI 3.x; the body parameter of Swagger 2.0 *)
  po_own : Obj              (* type, format, enum, default on the parameter itself *)
}.

Record MediaTypeObject : Type := { mt_schema : option Obj }.

(** [content] is mandatory in the declarations, but the loader does not
    check it: a request body without it reaches the parser. *)
Record RequestBodyObject : Type := {
  rbo_required : option bool;
  rbo_description : option string;
  rbo_content : option (list (string * MediaTypeObject))
}.

Record ResponseObject : Type := {
  ro_description : option string;
  ro_content : option (list (string * MediaTypeObject))
}.

Record OperationObject : Type := {
  op_operationId : option string;
  op_parameters : option (list ParameterObject);
  op_requestBody : option RequestBodyObject;
  op_security : option (list (list (string * list string)));
  op_summary : option string;
  op_description : option string;
  op_responses : option (list (string * option ResponseObject));
  op_tags : option (list string)
}.

Record PathItemObject : Type := {
  pi_parameters : option (list ParameterObject);
  pi_get : option OperationObject;
  pi_post : option OperationObject;
  pi_put : option OperationObject;
  pi_patch : option OperationObject;
  pi_delete : option OperationObject;
  pi_head : option OperationObject;
  pi_options : option OperationObject
}.

Record InfoObject : Type := {
  info_title : string;
  info_version : string;
  info_description : option string
}.

Record ServerObject : Type := { server_url : string }.

Record Document : Type := {
  doc_openapi : option Value;
  doc_swagger : option Value;
  doc_info : InfoObject;
  doc_servers : option (list ServerObject);
  doc_schemes : option (list string);
  doc_host : option string;
  doc_basePath : option string;
  doc_paths : option (list (string * option PathItemObject))
}.

(** [x || d] on an optional string: absent and empty are both falsy. *)
Definition orElse (x : option string) (d : string) : string :=
  match x with
  | Some s => if nonEmpty s then s else d
  | None => d
  end.

Definition isOpenAPIV3 (spec : Document) : bool :=
  match doc_openapi spec with
  | Some (VStr s) => startsWith s "3."
  | _ => false
  end.

Definition isSwagger2 (spec : Document) : bool :=
  match doc_swagger spec with
  | Some (VStr s) => String.eqb s "2.0"
  | _ => false
  end.

Definition extractBaseUrl (spec : Document) : string :=
  if isOpenAPIV3 spec then
    let server := match doc_servers spec with
                  | Some l => head l
                  | None => None
                  end in
    orElse (server_url <$> server) "http://localhost"
  else if isSwagger2 spec then
    let scheme := orElse (match doc_schemes spec with
                          | Some l => head l
                          | None => None
                          end) "https" in
    let host := orElse (doc_host spec) "localhost" in
    let basePath := orElse (doc_basePath spec) "" in
    scheme +:+ "://" +:+ host +:+ basePath
  else "http://localhost".

(** The casts of the code check nothing.  [type] and [format] are kept as
    the values they are; an [enum] and the names of a [required] array are
    read at their declared types, [asArray] and [asStrings] say what of a
    value fits them. *)
Definition asString (v : Value) : option string :=
  match v with
  | VStr s => Some s
  | _ => None
  end.

Definition asArray (v : Value) : option (list Value) :=
  match v with
  | VArr l => Some l
  | _ => None
  end.

(** The strings of an array; [a.includes(name)] finds no other element. *)
Definition asStrings (v : Value) : option (list string) :=
  match asArray v with
  | Some l => Some (omap asString l)
  | None => None
  end.

(** [schema.type as string] is only a cast: a type that is not a string (the
    array of types of OpenAPI 3.1) is returned as it is when it is truthy. *)
Definition getJsonType (schema : option Obj) : Value :=
  match schema with
  | None => VStr "string"
  | Some o =>
      let type := getProp "type" o in
      if isStr type "integer" then VStr "number"
      else if truthy type then type else VStr "string"
  end.

Definition parseParameter (param : ParameterObject) : ParameterInfo :=
  let schema := match po_schema param with
                | Some s => s
                | None => po_own param
                end in
  {| param_name := po_name param;
     param_required := default false (po_required param);
     param_description := po_description param;
     param_type := getJsonType (Some schema);
     param_format := getProp "format" schema;
     param_enum := asArray (getProp "enum" schema);
     param_default := getProp "default" schema |}.

(** [Object.keys(content)] throws a TypeError when the request body has no
    [content]. *)
Definition parseRequestBody (requestBody : option RequestBodyObject)
  : Completion (option RequestBodyInfo) :=
  match requestBody with
  | None => Returned None
  | Some rb =>
      match rbo_content rb with
      | None => Throws (ErrorObject "Cannot convert undefined or null to object")
      | Some content =>
          let contentType := orElse (head content.*1) "application/json" in
          let mediaType := lookupKey contentType content in
          Returned
            (Some {| body_required := default false (rbo_required rb);
                     body_description := rbo_description rb;
                     contentType := contentType;
                     schema := default [] (mediaType ≫= mt_schema) |})
      end
  end.

Definition parseBodyParam (params : list ParameterObject)
  : option RequestBodyInfo :=
  match find (fun p => String.eqb (po_in p) "body") params with
  | None => None
  | Some bodyParam =>
      Some {| body_required := default false (po_required bodyParam);
              body_description := po_description bodyParam;
              contentType := "application/json";
              schema := default [] (po_schema bodyParam) |}
  end.

Definition parseResponses (responses : list (string * option ResponseObject))
  : list ResponseInfo :=
  flat_map
    (fun entry =>
       match entry with
       | (_, None) => []
       | (statusCode, Some resp) =>
           let content := ro_content resp in
           let contentType := content ≫= (fun c => head c.*1) in
           let schema :=
             match contentType, content with
             | Some ct, Some c =>
                 if nonEmpty ct then lookupKey ct c ≫= mt_schema else None
             | _, _ => None
             end in
           [ {| statusCode := statusCode;
                resp_description := ro_description resp;
                resp_contentType := contentType;
                resp_schema := schema |} ]
       end)
    responses.

(** [path.replace(/\{([^}]+)\}/g, (_, param) => param.charAt(0).toUpperCase()
    + param.slice(1))].  The scan keeps, after an opening brace, the units
    read since then; a closing brace after at least one unit completes a
    match, and an opening brace that is never closed stays as it is. *)
Fixpoint replacePlaceholders (pending : option string) (s : string) : string :=
  match s with
  | EmptyString =>
      match pending with
      | None => ""
      | Some param => "{" +:+ param
      end
  | String c t =>
      match pending with
      | None =>
          if Ascii.eqb c "{" then replacePlaceholders (Some "") t
          else String c (replacePlaceholders None t)
      | Some param =>
          if Ascii.eqb c "}" then
            (if nonEmpty param
             then toUpperCase (charAt0 param) +:+ slice1 param
             else "{}")
            +:+ replacePlaceholders None t
          else replacePlaceholders (Some (param +:+ String c "")) t
      end
  end.

(** [words.map((word, i) => i === 0 ? word.toLowerCase()
    : word.charAt(0).toUpperCase() + word.slice(1).toLowerCase())]. *)
Definition camelWords (words : list string) : list string :=
  imap (fun i word =>
          match i with
          | O => toLowerCase word
          | S _ => toUpperCase (charAt0 word) +:+ toLowerCase (slice1 word)
          end)
       words.

Definition generateOperationId (method path : string) : string :=
  let cleanPath :=
    join ""
      (camelWords
         (filter (fun w => nonEmpty w = true)
            (splitSpace
               (smap (fun c => if isAlnum c then c else " "%char)
                  (replacePlaceholders None path))))) in
  toLowerCase method +:+ toUpperCase (charAt0 cleanPath) +:+ slice1 cleanPath.

(** Only the request body of an OpenAPI 3 operation can make
    [parseOperation] throw. *)
Definition parseOperation (method path : string) (operation : OperationObject)
    (pathParams : list ParameterObject) (isV3 : bool) : Completion ParsedEndpoint :=
  let allParams := pathParams ++ default [] (op_parameters operation) in
  let located (loc : string) :=
    parseParameter <$> filter (fun p => po_in p = loc) allParams in
  match (if isV3 then parseRequestBody (op_requestBody operation)
         else Returned (parseBodyParam allParams)) with
  | Throws e => Throws e
  | Returned requestBody =>
      let security :=
        match op_security operation with
        | Some secs => flat_map (fun sec => sec.*1) secs
        | None => []
        end in
      Returned
        {| operationId :=
             match op_operationId operation with
             | Some id => if nonEmpty id then id else generateOperationId method path
             | None => generateOperationId method path
             end;
           method := method;
           path := path;
           summary := op_summary operation;
           description := op_description operation;
           pathParams := located "path";
           queryParams := located "query";
           headerParams := located "header";
           requestBody := requestBody;
           responses := parseResponses (default [] (op_responses operation));
           tags := default [] (op_tags operation);
           security := security |}
  end.

(** A loop whose body pushes endpoints or throws: the first exception ends
    it. *)
Fixpoint collect {A B : Type} (body : A -> Completion (list B)) (l : list A)
  : Completion (list B) :=
  match l with
  | [] => Returned []
  | a :: rest =>
      match body a with
      | Throws e => Throws e
      | Returned pushed =>
          match collect body rest with
          | Throws e => Throws e
          | Returned more => Returned (pushed ++ more)
          end
      end
  end.

(** [const methods = ['get', 'post', 'put', 'patch', 'delete', 'head',
    'options']] paired with [item[method]]. *)
Definition methods (item : PathItemObject) : list (string * option OperationObject) :=
  [ ("get", pi_get item); ("post", pi_post item); ("put", pi_put item);
    ("patch", pi_patch item); ("delete", pi_delete item);
    ("head", pi_head item); ("options", pi_options item) ].

Section WithLoader.

(** [SwaggerParser.dereference], the external loader: it yields a
    dereferenced document or throws. *)
Variable dereference : string -> Completion Document.

Definition parseSpec (specPath : string) : Completion ParsedSpec :=
  match dereference specPath with
  | Throws e => Throws e
  | Returned api =>
      let isV3 := isOpenAPIV3 api in
      let info := doc_info api in
      let baseUrl := extractBaseUrl api in
      let paths := default [] (doc_paths api) in
      match
        collect
          (fun entry : string * option PathItemObject =>
             match entry with
             | (_, None) => Returned []
             | (path, Some item) =>
                 let pathParams := default [] (pi_parameters item) in
                 collect
                   (fun m : string * option OperationObject =>
                      match m with
                      | (method, Some operation) =>
                          match parseOperation method path operation pathParams isV3 with
                          | Throws e => Throws e
                          | Returned endpoint => Returned [endpoint]
                          end
                      | (_, None) => Returned []
                      end)
                   (methods item)
             end)
          paths
      with
      | Throws e => Throws e
      | Returned endpoints =>
          Returned {| title := info_title info;
                      version := info_version info;
                      spec_description := info_description info;
                      baseUrl := baseUrl;
                      endpoints := endpoints |}
      end
  end.

End WithLoader.

End Parser.

(* ===================================================================== *)
(** ** The loader, a dependency of the parser *)
(* ===================================================================== *)

Module Loader.

Import Parser.

(** A document with one of the two discriminants: a string field [openapi]
    starting with "3.", or a field [swagger] equal to "2.0". *)
Definition knownFormat (api : Document) : bool :=
  match doc_openapi api with
  | Some (VStr v) => String.prefix "3." v
  | _ => false
  end
  || match doc_swagger api with
     | Some v => isStr v "2.0"
     | None => false
     end.

Section WithReader.

(** What the file at a path holds, once read and parsed; the error with
    which the loader refuses a document. *)
Variable read : string -> Completion Document.
Variable specFormatError : Thrown.

(** Modelled from the spec: the loader, [SwaggerParser.dereference], is a
    dependency of the parser and is not under src/.  The specification has it
    yield a fully dereferenced OpenAPI document, version 2.0 or 3.x, and a
    document that matches neither known discriminant fail with a
    SpecFormatError.  The documents are taken as they are read, with their
    references already resolved. *)
Definition dereference (specPath : string) : Completion Document :=
  match read specPath with
  | Throws e => Throws e
  | Returned api =>
      if knownFormat api then Returned api else Throws specFormatError
  end.

End WithReader.

End Loader.

(* ===================================================================== *)
(** ** src/generator/mcp-tools.ts *)
(* ===================================================================== *)

Module Generator.

Definition optStr (x : option string) : Value :=
  match x with
  | Some s => VStr s
  | None => VUndefined
  end.

Definition paramToJsonSchema (param : ParameterInfo) : Value :=
  VObj
    ([ ("type", param_type param);
       ("description", optStr (param_description param)) ]
     ++ (if truthy (param_format param) then [("format", param_format param)] else [])
     ++ match param_enum param with
        | Some (e :: es) => [("enum", VArr (e :: es))]
        | _ => []
        end
     ++ match param_default param with
        | VUndefined => []
        | d => [("default", d)]
        end).

(** [.replace(/([a-z])([A-Z])/g, '$1_$2')]: a match consumes both letters,
    the scan resumes after the upper-case one. *)
Fixpoint camelToSnake (s : string) : string :=
  match s with
  | String a (String b t as rest) =>
      if isLower a && isUpper b
      then String a (String "_" (String b (camelToSnake t)))
      else String a (camelToSnake rest)
  | _ => s
  end.

(** [.replace(/[^a-zA-Z0-9_]/g, '_')]. *)
Definition isWordChar (c : ascii) : bool := isAlnum c || Ascii.eqb c "_".
Definition sanitize : string -> string :=
  smap (fun c => if isWordChar c then c else "_"%char).

Definition generateToolName (endpoint : ParsedEndpoint) : string :=
  toLowerCase (sanitize (camelToSnake (operationId endpoint))).

Definition newline : string := String "010"%char "".

Definition generateToolDescription (endpoint : ParsedEndpoint) : string :=
  let parts1 :=
    match summary endpoint with
    | Some s => if nonEmpty s then [s]
                else [toUpperCase (method endpoint) +:+ " " +:+ path endpoint]
    | None => [toUpperCase (method endpoint) +:+ " " +:+ path endpoint]
    end in
  let parts2 :=
    match description endpoint with
    | Some d =>
        if nonEmpty d && negb (bool_decide (Some d = summary endpoint))
        then [d] else []
    | None => []
    end in
  let parts3 :=
    match tags endpoint with
    | [] => []
    | ts => ["Tags: " +:+ join ", " ts]
    end in
  join (newline +:+ newline) (parts1 ++ parts2 ++ parts3).

(** [Object.entries(bodyProps)] for [bodyProps = bodySchema.properties as
    Record<string, unknown>], a truthy value: the entries of an object, the
    indexed elements of an array, the indexed units of a string, and nothing
    for a number or a boolean. *)
Definition asRecord (v : Value) : Obj :=
  match v with
  | VObj o => o
  | VArr l => imap (fun i e => (pretty i, e)) l
  | VStr s => imap (fun i c => (pretty i, VStr (String c ""))) (list_ascii_of_string s)
  | _ => []
  end.

(** [properties[name] = schema] on the plain object [properties].  The name
    [__proto__] is the accessor that every plain object inherits: assigning
    to it sets the prototype of [properties] (or does nothing, for a schema
    that is no object) and adds no entry. *)
Definition assign (name : string) (schema : Value) (properties : gmap string Value)
  : gmap string Value :=
  if String.eqb name "__proto__" then properties else <[name := schema]> properties.

(** [bodyRequired.includes(propName)] for [bodyRequired = (bodySchema.required
    as string[]) || []].  The cast checks nothing: an array looks for an
    element, a string for a substring, and any other truthy value has no such
    method. *)
Definition requiredIncludes (required : Value) (propName : string) : Completion bool :=
  if truthy required then
    match required with
    | VArr l => Returned (existsb (fun e => isStr e propName) l)
    | VStr s => Returned (includes s propName)
    | _ => Throws (ErrorObject "bodyRequired.includes is not a function")
    end
  else Returned false.

(** The two accumulators of [generateInputSchema]. *)
Definition Acc : Type := gmap string Value * list string.

Definition addParam (acc : Acc) (param : ParameterInfo) : Acc :=
  (assign (param_name param) (paramToJsonSchema param) acc.1,
   if param_required param then acc.2 ++ [param_name param] else acc.2).

(** One turn of the loop over the body properties; an exception ends the
    loop. *)
Definition addBodyProp (bodyRequired : Value) (bodyIsRequired : bool)
    (acc : Completion Acc) (prop : string * Value) : Completion Acc :=
  match acc with
  | Throws e => Throws e
  | Returned acc =>
      match requiredIncludes bodyRequired prop.1 with
      | Throws e => Throws e
      | Returned listed =>
          Returned (assign prop.1 prop.2 acc.1,
                    if listed && bodyIsRequired then acc.2 ++ [prop.1] else acc.2)
      end
  end.

Definition addBody (acc : Acc) (body : RequestBodyInfo) : Completion Acc :=
  let bodySchema := schema body in
  if isStr (getProp "type" bodySchema) "object"
     && truthy (getProp "properties" bodySchema)
  then
    let bodyProps := asRecord (getProp "properties" bodySchema) in
    let bodyRequired := getProp "required" bodySchema in
    foldl (addBodyProp bodyRequired (body_required body)) (Returned acc) bodyProps
  else
    Returned
      (<["body" := VObj (setKey "description"
                           (VStr (Parser.orElse (body_description body) "Request body"))
                           bodySchema)]> acc.1,
       if body_required body then acc.2 ++ ["body"] else acc.2).

Definition generateInputSchema (endpoint : ParsedEndpoint) : Completion InputSchema :=
  let acc0 : Acc := (∅, []) in
  let acc1 := foldl addParam acc0 (pathParams endpoint) in
  let acc2 := foldl addParam acc1 (queryParams endpoint) in
  match match requestBody endpoint with
        | Some body => addBody acc2 body
        | None => Returned acc2
        end with
  | Throws e => Throws e
  | Returned acc3 =>
      Returned {| schema_type := "object"; properties := acc3.1; required := acc3.2 |}
  end.

Definition endpointToTool (endpoint : ParsedEndpoint) : Completion GeneratedTool :=
  match generateInputSchema endpoint with
  | Throws e => Throws e
  | Returned inputSchema =>
      Returned {| tool_name := generateToolName endpoint;
                  tool_description := generateToolDescription endpoint;
                  inputSchema := inputSchema;
                  endpoint := endpoint |}
  end.

(** [spec.endpoints.map(endpointToTool)]: the first exception ends the map. *)
Definition generateTools (spec : ParsedSpec) : Completion (list GeneratedTool) :=
  Parser.collect
    (fun endpoint =>
       match endpointToTool endpoint with
       | Throws e => Throws e
       | Returned tool => Returned [tool]
       end)
    (endpoints spec).

(** [groups.get(tag) || []], [existing.push(tool)], [groups.set(tag, existing)]. *)
Definition pushTo (tool : GeneratedTool) (groups : gmap string (list GeneratedTool))
    (tag : string) : gmap string (list GeneratedTool) :=
  <[tag := default [] (groups !! tag) ++ [tool]]> groups.

Definition groupToolsByTag (tools : list GeneratedTool)
  : gmap string (list GeneratedTool) :=
  foldl (fun groups tool =>
           let tags := match tags (endpoint tool) with
                       | [] => ["default"]
                       | ts => ts
                       end in
           foldl (pushTo tool) groups tags)
        ∅ tools.

(** [byMethod] and [byTag] are plain objects used as maps from names to
    counts.  The keys of [byMethod] are upper-cased methods, which no plain
    object inherits; a tag can be any string, so [byTag] is given with the
    values it can really hold. *)
Record Summary : Type := {
  total : nat;
  byMethod : gmap string nat;
  byTag : gmap string Value
}.

(** [counts[k] = (counts[k] || 0) + 1] for a key that no object inherits. *)
Definition bump (counts : gmap string nat) (k : string) : gmap string nat :=
  <[k := default 0 (counts !! k) + 1]> counts.

(** [String(f)] for a built-in function [f], as Node prints it. *)
Definition nativeText (name : string) : string :=
  "function " +:+ name +:+ "() { [native code] }".

(** [String(byTag[tag])] for a tag that [byTag] has no entry for but
    inherits from [Object.prototype]: [__proto__] reads the prototype object,
    [constructor] the function [Object], the other names a method. *)
Definition inheritedText (tag : string) : option string :=
  if String.eqb tag "__proto__" then Some "[object Object]"
  else if String.eqb tag "constructor" then Some (nativeText "Object")
  else if bool_decide (tag ∈ ["hasOwnProperty"; "isPrototypeOf";
                              "propertyIsEnumerable"; "toLocaleString"; "toString";
                              "valueOf"; "__defineGetter__"; "__defineSetter__";
                              "__lookupGetter__"; "__lookupSetter__"])
       then Some (nativeText tag)
  else None.

(** [byTag[tag] = (byTag[tag] || 0) + 1].  A count becomes the next count; a
    string, and an inherited member, which is truthy, is concatenated with
    "1".  The result is stored under the tag, except under [__proto__],
    whose setter ignores a value that is no object. *)
Definition tally (byTag : gmap string Value) (tag : string) : gmap string Value :=
  let current :=
    match byTag !! tag with
    | Some v => if truthy v then v else VNum 0
    | None =>
        match inheritedText tag with
        | Some text => VStr text
        | None => VNum 0
        end
    end in
  let next :=
    match current with
    | VNum n => VNum (n + 1)
    | VStr text => VStr (text +:+ "1")
    | v => v
    end in
  if String.eqb tag "__proto__" then byTag else <[tag := next]> byTag.

Definition getToolsSummary (tools : list GeneratedTool) : Summary :=
  let step (acc : gmap string nat * gmap string Value) (tool : GeneratedTool) :=
    (bump acc.1 (toUpperCase (method (endpoint tool))),
     foldl tally acc.2 (tags (endpoint tool))) in
  let acc := foldl step (∅, ∅) tools in
  {| total := length tools; byMethod := acc.1; byTag := acc.2 |}.

End Generator.

(* ===================================================================== *)
(** ** src/auth/handlers.ts *)
(* ===================================================================== *)

Module Auth.

(** What the code reads of a fetch [Response]; [json] and [text] are the
    outcomes of [response.json()] and [response.text()]. *)
Record Response : Type := {
  ok : bool;
  statusText : string;
  contentTypeHeader : option string;
  json : Completion Value;
  text : Completion string
}.

Inductive RequestBody : Type :=
| FormBody (fields : list (string * string))   (* [new URLSearchParams({...})] *)
| JsonBody (v : Value).                        (* [JSON.stringify(v)] *)

Record Request : Type := {
  req_url : string;
  req_method : string;
  req_headers : list (string * string);
  req_body : option RequestBody
}.

(** [data.access_token]: reading a property of [null] or [undefined]
    throws a TypeError, any other value without the property gives
    [undefined]. *)
Definition access_token (data : Value) : Completion Value :=
  match data with
  | VNull | VUndefined =>
      Throws (ErrorObject "Cannot read properties of null (reading 'access_token')")
  | VObj o => Returned (getProp "access_token" o)
  | _ => Returned VUndefined
  end.

(** The request of the client-credentials exchange. *)
Definition tokenRequest (tokenUrl clientId clientSecret : string) : Request :=
  {| req_url := tokenUrl;
     req_method := "POST";
     req_headers := [("Content-Type", "application/x-www-form-urlencoded")];
     req_body := Some (FormBody [ ("grant_type", "client_credentials");
                                  ("client_id", clientId);
                                  ("client_secret", clientSecret) ]) |}.

Section WithFetch.

(** The global [fetch]: it resolves to a response or rejects. *)
Variable fetch : Request -> Completion Response.

(** The body of the [try] block of [getOAuth2Token]. *)
Definition exchange (tokenUrl clientId clientSecret : string) : Completion Value :=
  match fetch (tokenRequest tokenUrl clientId clientSecret) with
  | Throws e => Throws e
  | Returned response =>
      if negb (ok response)
      then Throws (ErrorObject ("OAuth2 token request failed: " +:+ statusText response))
      else match json response with
           | Throws e => Throws e
           | Returned data => access_token data
           end
  end.

(** The result is paired with what [console.error] has printed. *)
Definition getOAuth2Token (auth : AuthConfig) : Completion Value * list Thrown :=
  match auth_type auth, tokenUrl auth, clientId auth, clientSecret auth with
  | oauth2, Some url, Some id, Some secret =>
      if nonEmpty url && nonEmpty id && nonEmpty secret then
        match exchange url id secret with
        | Returned token => (Returned token, [])
        | Throws error => (Returned VNull, [error])
        end
      else (Returned VNull, [])
  | _, _, _, _ => (Returned VNull, [])
  end.

End WithFetch.

End Auth.

(* ===================================================================== *)
(** ** src/server/mcp-server.ts (Full mode) *)
(* ===================================================================== *)

Module FullMode.

Import Auth.

(** [new Set(params.map((p) => p.name))]. *)
Definition names (params : list ParameterInfo) : list string :=
  param_name <$> params.

Definition extractBody (endpoint : ParsedEndpoint) (args : Obj) : option Value :=
  match requestBody endpoint with
  | None => None
  | Some _ =>
      match lookupKey "body" args with
      | Some VUndefined | None =>
          let bodyArgs :=
            filter (fun kv : string * Value =>
                      (kv.1 ∉ names (pathParams endpoint))
                      ∧ (kv.1 ∉ names (queryParams endpoint))) args in
          match bodyArgs with
          | [] => None
          | _ => Some (VObj bodyArgs)
          end
      | Some body => Some body
      end
  end.

(** The text block of a tool result; [isError] is absent on success. *)
Record CallToolResult : Type := {
  content_text : string;
  isError : option bool
}.

Section Server.

(** [buildUrl], [String(value)] and [JSON.stringify(result, null, 2)]
    are left abstract, and so is the authenticated fetch. *)
Variable buildUrl : string -> ParsedEndpoint -> Obj -> string.
Variable toStr : Value -> string.
Variable stringify : Value -> string.
Variable authenticatedFetch : Request -> Completion Response.

(** [body ? JSON.stringify(body) : undefined]. *)
Definition sentBody (body : option Value) : option RequestBody :=
  match body with
  | Some v => if truthy v then Some (JsonBody v) else None
  | None => None
  end.

(** The response is read as JSON when its content type says so. *)
Definition readResponse (response : Response) : Completion Value :=
  if includes (default "" (contentTypeHeader response)) "application/json"
  then json response
  else match text response with
       | Returned s => Returned (VStr s)
       | Throws e => Throws e
       end.

Definition executeApiCall (baseUrl : string) (endpoint : ParsedEndpoint)
    (args : Obj) : Completion Value :=
  let url := buildUrl baseUrl endpoint args in
  let body := extractBody endpoint args in
  let headers0 :=
    match requestBody endpoint with
    | Some rb => if nonEmpty (contentType rb)
                 then [("Content-Type", contentType rb)] else []
    | None => []
    end in
  let headers :=
    foldl (fun headers param =>
             match lookupKey (param_name param) args with
             | Some VUndefined | None => headers
             | Some value => setKey (param_name param) (toStr value) headers
             end)
          headers0 (headerParams endpoint) in
  match authenticatedFetch {| req_url := url;
                              req_method := toUpperCase (method endpoint);
                              req_headers := headers;
                              req_body := sentBody body |} with
  | Throws e => Throws e
  | Returned response => readResponse response
  end.

(** The handler of [CallToolRequestSchema] of [createSpeckyServer]. *)
Definition callTool (tools : list GeneratedTool) (baseUrl toolName : string)
    (arguments : option Obj) : Completion CallToolResult :=
  let args := default [] arguments in
  match find (fun t => String.eqb (tool_name t) toolName) tools with
  | None => Throws (ErrorObject ("Unknown tool: " +:+ toolName))
  | Some tool =>
      match executeApiCall baseUrl (endpoint tool) args with
      | Returned result =>
          Returned {| content_text := match result with
                                      | VStr s => s
                                      | v => stringify v
                                      end;
                      isError := None |}
      | Throws error =>
          let message := match error with
                         | ErrorObject m => m
                         | OtherThrown => "Unknown error"
                         end in
          Returned {| content_text := "Error: " +:+ message;
                      isError := Some true |}
      end
  end.

End Server.

End FullMode.

(* ===================================================================== *)
(** ** src/server/search-mode.ts (Search mode) *)
(* ===================================================================== *)

Module SearchMode.

Import Auth.

(** The options of [searchEndpoints]; [limit] is an integral number. *)
Record SearchOptions : Type := {
  opt_tags : option (list string);
  opt_methods : option (list string);
  opt_limit : option Z
}.

(** [options?.limit || 10]: an absent limit and the limit 0 are falsy. *)
Definition effectiveLimit (options : option SearchOptions) : Z :=
  match options ≫= opt_limit with
  | Some n => if (n =? 0)%Z then 10%Z else n
  | None => 10%Z
  end.

(** [l.slice(0, limit)]: a negative end counts from the end of the array. *)
Definition slice0 {A : Type} (l : list A) (limit : Z) : list A :=
  if (limit <? 0)%Z
  then take (Z.to_nat (Z.of_nat (length l) + limit)) l
  else take (Z.to_nat limit) l.

Definition tagFilter (options : option SearchOptions)
    (tools : list GeneratedTool) : list GeneratedTool :=
  match options ≫= opt_tags with
  | Some (t :: ts) =>
      let tagsLower := toLowerCase <$> (t :: ts) in
      filter (fun tool =>
                Exists (fun tag => toLowerCase tag ∈ tagsLower)
                       (tags (endpoint tool)))
             tools
  | _ => tools
  end.

Definition methodFilter (options : option SearchOptions)
    (tools : list GeneratedTool) : list GeneratedTool :=
  match options ≫= opt_methods with
  | Some (m :: ms) =>
      let methodsLower := toLowerCase <$> (m :: ms) in
      filter (fun tool => toLowerCase (method (endpoint tool)) ∈ methodsLower)
             tools
  | _ => tools
  end.

Definition searchFields (tool : GeneratedTool) : list string :=
  toLowerCase <$>
    ([ tool_name tool;
       tool_description tool;
       path (endpoint tool);
       Parser.orElse (summary (endpoint tool)) "";
       operationId (endpoint tool) ]
     ++ tags (endpoint tool)).

(** One turn of the loop over the fields: the whole query, then its words. *)
Definition scoreField (queryLower : string) (score : Z) (field : string) : Z :=
  let score := if includes field queryLower then (score + 10)%Z else score in
  let words := splitWs queryLower in
  foldl (fun score word => if includes field word then (score + 5)%Z else score)
        score words.

Definition scoreTool (queryLower : string) (tool : GeneratedTool) : Z :=
  foldl (scoreField queryLower) 0%Z (searchFields tool).

(** [.sort((a, b) => b.score - a.score)]: the sort of an array is stable,
    so it is the stable insertion of each element among those after it. *)
Fixpoint insertByScore (a : GeneratedTool * Z) (l : list (GeneratedTool * Z))
  : list (GeneratedTool * Z) :=
  match l with
  | [] => [a]
  | b :: rest =>
      if (b.2 - a.2 <=? 0)%Z then a :: b :: rest
      else b :: insertByScore a rest
  end.

Definition sortByScore (l : list (GeneratedTool * Z)) : list (GeneratedTool * Z) :=
  foldr insertByScore [] l.

Definition searchEndpoints (tools : list GeneratedTool) (query : string)
    (options : option SearchOptions) : list GeneratedTool :=
  let queryLower := toLowerCase query in
  let limit := effectiveLimit options in
  let filtered := methodFilter options (tagFilter options tools) in
  let scored := (fun tool => (tool, scoreTool queryLower tool)) <$> filtered in
  fst <$> slice0 (sortByScore (filter (fun s => (0 < s.2)%Z) scored)) limit.

(** The body that Search mode's [executeApiCall] assembles. *)
Definition residualBody (endpoint : ParsedEndpoint) (args : Obj) : option Value :=
  let bodyArgs :=
    filter (fun kv : string * Value =>
              (kv.1 ∉ FullMode.names (pathParams endpoint))
              ∧ (kv.1 ∉ FullMode.names (queryParams endpoint))
              ∧ kv.1 ≠ "endpoint_id") args in
  match bodyArgs with
  | [] => None
  | _ => Some (VObj bodyArgs)
  end.

Section Server.

Variable buildUrl : string -> ParsedEndpoint -> Obj -> string.
Variable authenticatedFetch : Request -> Completion Response.

Definition executeApiCall (baseUrl : string) (endpoint : ParsedEndpoint)
    (args : Obj) : Completion Value :=
  let url := buildUrl baseUrl endpoint args in
  let body := residualBody endpoint args in
  let declared :=
    match requestBody endpoint with
    | Some rb => if nonEmpty (contentType rb) then Some (contentType rb) else None
    | None => None
    end in
  let headers :=
    match declared, body with
    | Some ct, _ => [("Content-Type", ct)]
    | None, Some _ => [("Content-Type", "application/json")]
    | None, None => []
    end in
  match authenticatedFetch {| req_url := url;
                              req_method := toUpperCase (method endpoint);
                              req_headers := headers;
                              req_body := JsonBody <$> body |} with
  | Throws e => Throws e
  | Returned response =>
      if includes (default "" (contentTypeHeader response)) "application/json"
      then json response
      else match text response with
           | Returned s => Returned (VStr s)
           | Throws e => Throws e
           end
  end.

End Server.

End SearchMode.

(* ===================================================================== *)
(** ** Sample data: three operations of the Petstore API *)
(* ===================================================================== *)

Module Petstore.

Definition petId : ParameterInfo :=
  {| param_name := "petId"; param_required := true;
     param_description := Some "ID of pet to return";
     param_type := VStr "number"; param_format := VStr "int64";
     param_enum := None; param_default := VUndefined |}.

Definition getPetById : ParsedEndpoint :=
  {| operationId := "getPetById"; method := "get"; path := "/pet/{petId}";
     summary := Some "Find pet by ID";
     description := Some "Returns a single pet";
     pathParams := [petId]; queryParams := []; headerParams := [];
     requestBody := None; responses := [];
     tags := ["pet"]; security := ["api_key"] |}.

Definition getStoreInventory : ParsedEndpoint :=
  {| operationId := "getStoreInventory"; method := "get"; path := "/store/inventory";
     summary := Some "Returns pet inventories by status";
     description := Some "Returns a map of status codes to quantities";
     pathParams := []; queryParams := []; headerParams := [];
     requestBody := None; responses := [];
     tags := ["store"]; security := ["api_key"] |}.

Definition petProps : Obj :=
  [ ("name", VObj [("type", VStr "string")]);
    ("status", VObj [("type", VStr "string")]) ].

Definition petBody : RequestBodyInfo :=
  {| body_required := true;
     body_description := Some "Pet object that needs to be added to the store";
     contentType := "application/json";
     schema := [ ("type", VStr "object");
                 ("required", VArr [VStr "name"]);
                 ("properties", VObj petProps) ] |}.

Definition addPet : ParsedEndpoint :=
  {| operationId := "addPet"; method := "post"; path := "/pet";
     summary := Some "Add a new pet to the store";
     description := None;
     pathParams := []; queryParams := []; headerParams := [];
     requestBody := Some petBody; responses := [];
     tags := ["pet"]; security := ["petstore_auth"] |}.

(** The tool of a sample endpoint; the schemas of the samples are generated
    without an exception. *)
Definition toolOf (endpoint : ParsedEndpoint) : GeneratedTool :=
  match Generator.endpointToTool endpoint with
  | Returned tool => tool
  | Throws _ =>
      {| tool_name := ""; tool_description := "";
         inputSchema := {| schema_type := ""; properties := ∅; required := [] |};
         endpoint := endpoint |}
  end.

Definition tools : list GeneratedTool := toolOf <$> [getPetById; getStoreInventory].

(** An operation with a required path parameter named [__proto__]. *)
Definition proto : ParameterInfo :=
  {| param_name := "__proto__"; param_required := true;
     param_description := None; param_type := VStr "string";
     param_format := VUndefined; param_enum := None; param_default := VUndefined |}.

Definition getItem : ParsedEndpoint :=
  {| operationId := "getItem"; method := "get"; path := "/items/{__proto__}";
     summary := None; description := None;
     pathParams := [proto]; queryParams := []; headerParams := [];
     requestBody := None; responses := []; tags := []; security := [] |}.

(** An operation whose body schema has the boolean [required] of JSON Schema
    draft 3 where the code expects the array of the later drafts. *)
Definition putItem : ParsedEndpoint :=
  {| operationId := "putItem"; method := "put"; path := "/items";
     summary := None; description := None;
     pathParams := []; queryParams := []; headerParams := [];
     requestBody :=
       Some {| body_required := true; body_description := None;
               contentType := "application/json";
               schema := [ ("type", VStr "object");
                           ("properties", VObj [("name", VObj [("type", VStr "string")])]);
                           ("required", VBool true) ] |};
     responses := []; tags := []; security := [] |}.

(** An operation that declares no operationId. *)
Definition anonymousOperation : Parser.OperationObject :=
  {| Parser.op_operationId := None; Parser.op_parameters := None;
     Parser.op_requestBody := None; Parser.op_security := None;
     Parser.op_summary := None; Parser.op_description := None;
     Parser.op_responses := None; Parser.op_tags := None |}.

(** A document of an unknown format: no [openapi] field, [swagger] is 1.2. *)
Definition legacyDocument : Parser.Document :=
  {| Parser.doc_openapi := None;
     Parser.doc_swagger := Some (VStr "1.2");
     Parser.doc_info := {| Parser.info_title := "Legacy";
                           Parser.info_version := "1.2";
                           Parser.info_description := None |};
     Parser.doc_servers := None; Parser.doc_schemes := Some ["https"];
     Parser.doc_host := Some "petstore.swagger.io";
     Parser.doc_basePath := Some "/v1";
     Parser.doc_paths :=
       Some [ ("/pets/{petId}",
               Some {| Parser.pi_parameters := None;
                       Parser.pi_get := Some anonymousOperation;
                       Parser.pi_post := None; Parser.pi_put := None;
                       Parser.pi_patch := None; Parser.pi_delete := None;
                       Parser.pi_head := None; Parser.pi_options := None |}) ] |}.

(** A tool with three tags and a tool with none. *)
Definition tagged (ts : list string) : GeneratedTool :=
  toolOf
    {| operationId := "listAll"; method := "get"; path := "/all";
       summary := None; description := None;
       pathParams := []; queryParams := []; headerParams := [];
       requestBody := None; responses := []; tags := ts; security := [] |}.

Definition unevenTools : list GeneratedTool :=
  [tagged ["pet"; "store"; "user"]; tagged []].

(** A backend that answers every request with the JSON body it was sent. *)
Definition echo (request : Auth.Request) : Completion Auth.Response :=
  Returned {| Auth.ok := true; Auth.statusText := "OK";
              Auth.contentTypeHeader := Some "application/json";
              Auth.json := Returned match Auth.req_body request with
                                    | Some (Auth.JsonBody v) => v
                                    | _ => VNull
                                    end;
              Auth.text := Returned "" |}.

Definition plainUrl (baseUrl : string) (endpoint : ParsedEndpoint) (_ : Obj) : string :=
  baseUrl +:+ path endpoint.

Definition noText (_ : Value) : string := "".

(** A token endpoint that grants the token "abc". *)
Definition granting (_ : Auth.Request) : Completion Auth.Response :=
  Returned {| Auth.ok := true; Auth.statusText := "OK";
              Auth.contentTypeHeader := Some "application/json";
              Auth.json := Returned (VObj [("access_token", VStr "abc")]);
              Auth.text := Returned "" |}.

Definition clientCredentials : AuthConfig :=
  {| auth_type := oauth2; token := None; headerName := None;
     username := None; password := None;
     clientId := Some "specky"; clientSecret := Some "s3cret";
     tokenUrl := Some "https://auth.example/token" |}.

End Petstore.

(* ===================================================================== *)
(** ** Notions the specification uses to state its properties *)
(* ===================================================================== *)

Module SpecWords.

(** The pattern [^[a-z][a-z0-9_]*$]. *)
Definition isNameChar (c : ascii) : bool :=
  isLower c || isDigit c || Ascii.eqb c "_".

Definition matchesToolNamePattern (s : string) : bool :=
  match s with
  | EmptyString => false
  | String c t => isLower c && sall isNameChar t
  end.

(** "Insert an underscore between a lowercase letter immediately followed
    by an uppercase letter", read position by position. *)
Fixpoint snakeBoundaries (s : string) : string :=
  match s with
  | EmptyString => EmptyString
  | String a t =>
      String a
        match t with
        | String b _ =>
            if isLower a && isUpper b then String "_" (snakeBoundaries t)
            else snakeBoundaries t
        | EmptyString => snakeBoundaries t
        end
  end.


(** Every name recorded as required has a schema, [__proto__] apart. *)
Definition covered (acc : Generator.Acc) : Prop :=
  forall n : string, n ∈ acc.2 -> n <> "__proto__" -> is_Some (acc.1 !! n).

(** The names of the parameters that are required, in order. *)
Definition requiredNames (params : list ParameterInfo) : list string :=
  param_name <$> filter (fun p => param_required p = true) params.

(** The body schema's own [required] array. *)
Definition bodyRequired (body : RequestBodyInfo) : list string :=
  default [] (Parser.asStrings (getProp "required" (schema body))).

(** The score as the specification words it: over the lowercased fields,
    10 for a field that contains the whole query, and 5 for every word of
    the query that the field contains. *)
Definition fieldScore (queryLower field : string) : Z :=
  ((if includes field queryLower then 10 else 0)
   + 5 * Z.of_nat (length (filter (fun word => includes field word = true)
                                  (splitWs queryLower))))%Z.

(** The fields of a tool, lowercased: tool name, description, endpoint
    path, summary or empty, operationId, and each tag. *)
Definition specFields (tool : GeneratedTool) : list string :=
  toLowerCase (tool_name tool)
  :: toLowerCase (tool_description tool)
  :: toLowerCase (path (endpoint tool))
  :: toLowerCase (default "" (summary (endpoint tool)))
  :: toLowerCase (operationId (endpoint tool))
  :: (toLowerCase <$> tags (endpoint tool)).

Definition specScore (queryLower : string) (tool : GeneratedTool) : Z :=
  foldr Z.add 0%Z (fieldScore queryLower <$> specFields tool).

(** The candidates that pass the tag and method filters, with their scores. *)
Definition candidates (tools : list GeneratedTool) (query : string)
    (options : option SearchMode.SearchOptions) : list (GeneratedTool * Z) :=
  (fun tool => (tool, SearchMode.scoreTool (toLowerCase query) tool))
    <$> SearchMode.methodFilter options (SearchMode.tagFilter options tools).

(** Scores never increase along the list. *)
Definition descending (l : list (GeneratedTool * Z)) : Prop :=
  StronglySorted (fun a b => (b.2 <= a.2)%Z) l.

(** Elements of equal score are in the same order in both lists. *)
Definition sameOrderOnTies (l l' : list (GeneratedTool * Z)) : Prop :=
  forall s : Z, filter (fun a => a.2 = s) l = filter (fun a => a.2 = s) l'.

(** Search options with the given filters and limit. *)
Definition withLimit (tags methods : option (list string)) (limit : option Z)
  : option SearchMode.SearchOptions :=
  Some {| SearchMode.opt_tags := tags;
          SearchMode.opt_methods := methods;
          SearchMode.opt_limit := limit |}.

(** The candidates with a positive score. *)
Definition matching (tools : list GeneratedTool) (query : string)
    (options : option SearchMode.SearchOptions) : list (GeneratedTool * Z) :=
  filter (fun a => (0 < a.2)%Z) (candidates tools query options).

(** An optional string that is present and not empty. *)
Definition present (x : option string) : bool :=
  match x with
  | Some s => nonEmpty s
  | None => false
  end.

(** The body made of the collected arguments: none when nothing is left. *)
Definition collected (bodyArgs : Obj) : option Value :=
  match bodyArgs with
  | [] => None
  | _ => Some (VObj bodyArgs)
  end.

(** The arguments that are neither path nor query parameters. *)
Definition residual (endpoint : ParsedEndpoint) (args : Obj) : Obj :=
  filter (fun kv : string * Value =>
            (kv.1 ∉ FullMode.names (pathParams endpoint))
            ∧ (kv.1 ∉ FullMode.names (queryParams endpoint))) args.

(** The sum of the counts of a summary map. *)
Definition sumValues (counts : gmap string nat) : nat :=
  map_fold (fun _ n acc => n + acc) 0 counts.

(** The same for a map of values: the sum of its numbers. *)
Definition sumCounts (counts : gmap string Value) : Z :=
  map_fold (fun _ v acc => match v with
                           | VNum n => (n + acc)%Z
                           | _ => acc
                           end) 0%Z counts.

(** A count as a value of a summary map. *)
Definition countValue (n : nat) : Value := VNum (Z.of_nat n).

(** The names that every plain object inherits from [Object.prototype]. *)
Definition inheritedNames : list string :=
  ["constructor"; "hasOwnProperty"; "isPrototypeOf"; "propertyIsEnumerable";
   "toLocaleString"; "toString"; "valueOf"; "__proto__";
   "__defineGetter__"; "__defineSetter__"; "__lookupGetter__"; "__lookupSetter__"].

(** Every tag of every tool, one entry per (tool, tag) pair. *)
Definition tagOccurrences (tools : list GeneratedTool) : list string :=
  tools ≫= (fun tool => tags (endpoint tool)).

Definition occurrences (k : string) (l : list string) : nat :=
  length (filter (fun x => x = k) l).

(** The tool is in the group of the tag. *)
Definition inGroup (groups : gmap string (list GeneratedTool)) (tag : string)
    (tool : GeneratedTool) : Prop :=
  exists group, groups !! tag = Some group /\ tool ∈ group.

End SpecWords.

(* ===================================================================== *)
(** ** [buildUrl] (both servers) and the built-ins it calls *)
(* ===================================================================== *)

Module Url.

(** [String(value)], also the conversion that a template literal and
    [String.prototype.includes] apply.  An array joins the strings of its
    elements with commas, [null] and [undefined] elements counting as empty;
    a plain object gives "[object Object]", unless it has an entry
    [toString] of its own: that entry is not callable and the conversion
    throws a TypeError.  Numbers are integers and print in decimal. *)
Fixpoint stringOf (v : Value) : Completion string :=
  match v with
  | VUndefined => Returned "undefined"
  | VNull => Returned "null"
  | VBool b => Returned (if b then "true" else "false")
  | VNum z => Returned (pretty z)
  | VStr s => Returned s
  | VArr l =>
      match
        (fix elements (l : list Value) : Completion (list string) :=
           match l with
           | [] => Returned []
           | e :: rest =>
               match match e with
                     | VUndefined | VNull => Returned ""
                     | _ => stringOf e
                     end with
               | Throws err => Throws err
               | Returned s =>
                   match elements rest with
                   | Throws err => Throws err
                   | Returned ss => Returned (s :: ss)
                   end
               end
           end) l
      with
      | Throws err => Throws err
      | Returned ss => Returned (join "," ss)
      end
  | VObj o =>
      match lookupKey "toString" o with
      | Some _ => Throws (ErrorObject "Cannot convert object to primitive value")
      | None => Returned "[object Object]"
      end
  end.

(** Percent-encoding of one unit: [%] and two upper-case hexadecimal digits. *)
Definition hexDigit (n : N) : ascii :=
  ascii_of_N (if (n <? 10)%N then 48 + n else 55 + n).

Definition percentEncode (c : ascii) : string :=
  String "%" (String (hexDigit (code c / 16)) (String (hexDigit (code c mod 16)) "")).

Definition oneOf (chars : string) (c : ascii) : bool :=
  existsb (Ascii.eqb c) (list_ascii_of_string chars).

(** [encodeURIComponent]: letters, digits and [- _ . ! ~ * ' ( )] stay. *)
Definition isUnreserved (c : ascii) : bool := isAlnum c || oneOf "-_.!~*'()" c.

Fixpoint encodeURIComponent (s : string) : string :=
  match s with
  | EmptyString => ""
  | String c t =>
      (if isUnreserved c then String c "" else percentEncode c)
      +:+ encodeURIComponent t
  end.

(** The serializer of [URLSearchParams]: letters, digits and [* - . _] stay,
    a space becomes [+]. *)
Fixpoint formEncode (s : string) : string :=
  match s with
  | EmptyString => ""
  | String c t =>
      (if isAlnum c || oneOf "*-._" c then String c ""
       else if Ascii.eqb c " " then "+"
       else percentEncode c)
      +:+ formEncode t
  end.

(** [queryParams.toString()]. *)
Definition serialize (params : list (string * string)) : string :=
  join "&" ((fun kv => formEncode kv.1 +:+ "=" +:+ formEncode kv.2) <$> params).

(** [s.slice(n)]. *)
Fixpoint skip (n : nat) (s : string) : string :=
  match n, s with
  | O, _ => s
  | S n', String _ t => skip n' t
  | S _, EmptyString => ""
  end.

(** The replacement text of [String.prototype.replace] for a string pattern:
    [$$] is a dollar, [$&] the match, [$`] what precedes it, [$'] what
    follows it; any other dollar stands for itself. *)
Fixpoint getSubstitution (matched before after replacement : string) : string :=
  match replacement with
  | EmptyString => ""
  | String c t =>
      if Ascii.eqb c "$" then
        match t with
        | String d t' =>
            if Ascii.eqb d "$" then String "$" (getSubstitution matched before after t')
            else if Ascii.eqb d "&" then matched +:+ getSubstitution matched before after t'
            else if Ascii.eqb d "`" then before +:+ getSubstitution matched before after t'
            else if Ascii.eqb d "'" then after +:+ getSubstitution matched before after t'
            else String c (getSubstitution matched before after t)
        | EmptyString => String c ""
        end
      else String c (getSubstitution matched before after t)
  end.

(** [s.replace(pattern, replacement)] with a string pattern: the first
    occurrence only; [before] is what has been read on the way to it. *)
Fixpoint replaceFrom (before s pattern replacement : string) : string :=
  if String.prefix pattern s then
    let after := skip (String.length pattern) s in
    getSubstitution pattern before after replacement +:+ after
  else
    match s with
    | EmptyString => ""
    | String c t => String c (replaceFrom (before +:+ String c "") t pattern replacement)
    end.

Definition replace (s pattern replacement : string) : string :=
  replaceFrom "" s pattern replacement.

(** One turn of the loop over the path parameters.  [args[param.name]] is
    read among the entries of the arguments, as everywhere in this
    development: a parameter named like a member of [Object.prototype]
    ([constructor], [toString], ...) would read that member when it has no
    argument, and is set apart where it matters. *)
Definition substitute (args : Obj) (url : Completion string) (param : ParameterInfo)
  : Completion string :=
  match url with
  | Throws e => Throws e
  | Returned url =>
      match lookupKey (param_name param) args with
      | Some VUndefined | None => Returned url
      | Some value =>
          match stringOf value with
          | Throws e => Throws e
          | Returned s =>
              Returned (replace url ("{" +:+ param_name param +:+ "}")
                          (encodeURIComponent s))
          end
      end
  end.

(** One turn of the loop over the query parameters: [queryParams.set]. *)
Definition setParam (args : Obj) (queryParams : Completion (list (string * string)))
    (param : ParameterInfo) : Completion (list (string * string)) :=
  match queryParams with
  | Throws e => Throws e
  | Returned queryParams =>
      match lookupKey (param_name param) args with
      | Some VUndefined | None => Returned queryParams
      | Some value =>
          match stringOf value with
          | Throws e => Throws e
          | Returned s => Returned (setKey (param_name param) s queryParams)
          end
      end
  end.

Definition buildUrl (baseUrl : string) (endpoint : ParsedEndpoint) (args : Obj)
  : Completion string :=
  match foldl (substitute args) (Returned (baseUrl +:+ path endpoint))
              (pathParams endpoint) with
  | Throws e => Throws e
  | Returned url =>
      match foldl (setParam args) (Returned []) (queryParams endpoint) with
      | Throws e => Throws e
      | Returned queryParams =>
          let queryString := serialize queryParams in
          if nonEmpty queryString then Returned (url +:+ "?" +:+ queryString)
          else Returned url
      end
  end.

(** [String(value)] for the values that convert without throwing. *)
Definition stringOfText (v : Value) : string :=
  match stringOf v with
  | Returned s => s
  | Throws _ => ""
  end.

End Url.

(* ===================================================================== *)
(** ** src/auth/handlers.ts: the header computation *)
(* ===================================================================== *)

Module AuthHeaders.

(** [Buffer.from(s).toString('base64')] on the bytes of [s]. *)
Definition base64Char (n : N) : ascii :=
  if (n <? 26)%N then ascii_of_N (65 + n)
  else if (n <? 52)%N then ascii_of_N (71 + n)
  else if (n <? 62)%N then ascii_of_N (n - 4)
  else if (n =? 62)%N then "+"%char
  else "/"%char.

Fixpoint base64 (s : string) : string :=
  match s with
  | EmptyString => ""
  | String a EmptyString =>
      String (base64Char (code a / 4))
        (String (base64Char (code a mod 4 * 16)) "==")
  | String a (String b EmptyString) =>
      String (base64Char (code a / 4))
        (String (base64Char (code a mod 4 * 16 + code b / 16))
           (String (base64Char (code b mod 16 * 4)) "="))
  | String a (String b (String c t)) =>
      String (base64Char (code a / 4))
        (String (base64Char (code a mod 4 * 16 + code b / 16))
           (String (base64Char (code b mod 16 * 4 + code c / 64))
              (String (base64Char (code c mod 64)) (base64 t))))
  end.

(** The headers object, as its entries. *)
Definition getAuthHeaders (auth : option AuthConfig) : list (string * string) :=
  match auth with
  | None => []
  | Some auth =>
      match auth_type auth with
      | none => []
      | bearer =>
          match token auth with
          | Some t => if nonEmpty t then [("Authorization", "Bearer " +:+ t)] else []
          | None => []
          end
      | apikey =>
          match token auth with
          | Some t =>
              if nonEmpty t
              then [(Parser.orElse (headerName auth) "X-API-Key", t)]
              else []
          | None => []
          end
      | basic =>
          match username auth, password auth with
          | Some u, Some p =>
              if nonEmpty u && nonEmpty p
              then [("Authorization", "Basic " +:+ base64 (u +:+ ":" +:+ p))]
              else []
          | _, _ => []
          end
      | oauth2 =>
          match token auth with
          | Some t => if nonEmpty t then [("Authorization", "Bearer " +:+ t)] else []
          | None => []
          end
      end
  end.

End AuthHeaders.

(* ===================================================================== *)
(** ** src/server/search-mode.ts: the call handler *)
(* ===================================================================== *)

Module SearchHandler.

Import Auth.

(** [endpointId.includes(name)]: a string looks for a substring, an array
    for an element; any other truthy value has no such method. *)
Definition includedIn (endpointId : Value) (name : string) : Completion bool :=
  match endpointId with
  | VStr s => Returned (includes s name)
  | VArr l => Returned (existsb (fun e => isStr e name) l)
  | _ => Throws (ErrorObject "endpointId.includes is not a function")
  end.

(** [t.name.includes(endpointId) || endpointId.includes(t.name)]. *)
Definition isSimilar (endpointId : Value) (name : string) : Completion bool :=
  match Url.stringOf endpointId with
  | Throws e => Throws e
  | Returned s => if includes name s then Returned true else includedIn endpointId name
  end.

(** [allTools.filter(...)] with a callback that may throw. *)
Fixpoint similarTools (endpointId : Value) (allTools : list GeneratedTool)
  : Completion (list GeneratedTool) :=
  match allTools with
  | [] => Returned []
  | t :: rest =>
      match isSimilar endpointId (tool_name t) with
      | Throws e => Throws e
      | Returned keep =>
          match similarTools endpointId rest with
          | Throws e => Throws e
          | Returned l => Returned (if keep then t :: l else l)
          end
      end
  end.

(** The double quote of the messages. *)
Definition quote : string := String "034"%char "".

Definition errorResult (message : string) : FullMode.CallToolResult :=
  {| FullMode.content_text := message; FullMode.isError := Some true |}.

Section Handler.

(** As in Full mode, [buildUrl], [JSON.stringify(result, null, 2)] and the
    authenticated fetch are parameters; so is the whole [search_endpoints]
    branch, whose text is built by [JSON.stringify]. *)
Variable buildUrl : string -> ParsedEndpoint -> Obj -> string.
Variable stringify : Value -> string.
Variable authenticatedFetch : Request -> Completion Response.
Variable searchBranch : Obj -> Completion FullMode.CallToolResult.

(** The branch [if (toolName === 'call_endpoint')]. *)
Definition callEndpoint (allTools : list GeneratedTool) (baseUrl : string)
    (args : Obj) : Completion FullMode.CallToolResult :=
  let endpointId := getProp "endpoint_id" args in
  if negb (truthy endpointId) then
    Returned (errorResult "Error: endpoint_id is required")
  else
    match find (fun t => isStr endpointId (tool_name t)) allTools with
    | None =>
        match similarTools endpointId allTools with
        | Throws e => Throws e
        | Returned similar =>
            match Url.stringOf endpointId with
            | Throws e => Throws e
            | Returned id =>
                match similar with
                | _ :: _ =>
                    Returned (errorResult
                      ("Endpoint " +:+ quote +:+ id +:+ quote
                       +:+ " not found. Did you mean: "
                       +:+ join ", " (tool_name <$> similar) +:+ "?"))
                | [] =>
                    Returned (errorResult
                      ("Endpoint " +:+ quote +:+ id +:+ quote
                       +:+ " not found. Use search_endpoints to find available endpoints."))
                end
            end
        end
    | Some tool =>
        match SearchMode.executeApiCall buildUrl authenticatedFetch baseUrl
                (endpoint tool) args with
        | Returned result =>
            Returned {| FullMode.content_text := match result with
                                                 | VStr s => s
                                                 | v => stringify v
                                                 end;
                        FullMode.isError := None |}
        | Throws error =>
            let message := match error with
                           | ErrorObject m => m
                           | OtherThrown => "Unknown error"
                           end in
            Returned (errorResult ("Error: " +:+ message))
        end
    end.

(** The handler of [CallToolRequestSchema] of [createSearchModeServer]. *)
Definition callTool (allTools : list GeneratedTool) (baseUrl toolName : string)
    (arguments : option Obj) : Completion FullMode.CallToolResult :=
  let args := default [] arguments in
  if String.eqb toolName "search_endpoints" then searchBranch args
  else if String.eqb toolName "call_endpoint" then callEndpoint allTools baseUrl args
  else Returned (errorResult ("Unknown tool: " +:+ toolName)).

End Handler.

End SearchHandler.

(* ===================================================================== *)
(** ** Further notions and sample data for the properties *)
(* ===================================================================== *)

Module ExtraWords.

(** The seven methods that [parseSpec] looks for, in its order. *)
Definition httpMethods : list string :=
  ["get"; "post"; "put"; "patch"; "delete"; "head"; "options"].

(** The parameters declared at a location. *)
Definition located (loc : string) (params : list Parser.ParameterObject)
  : list Parser.ParameterObject :=
  filter (fun p => Parser.po_in p = loc) params.






(** A string that starts with an ASCII letter. *)
Definition startsWithLetter (s : string) : bool :=
  match s with
  | String c _ => isLetter c
  | EmptyString => false
  end.

(** The request body schema is flattened into the input schema. *)
Definition flattens (body : RequestBodyInfo) : bool :=
  isStr (getProp "type" (schema body)) "object"
  && truthy (getProp "properties" (schema body)).

(** A value of [required] in which a name can be looked up: a falsy value,
    an array or a string. *)
Definition listable (required : Value) : bool :=
  negb (truthy required)
  || match required with
     | VArr _ | VStr _ => true
     | _ => false
     end.

(** The property names that the request body contributes. *)
Definition bodyKeys (endpoint : ParsedEndpoint) : list string :=
  match requestBody endpoint with
  | None => []
  | Some body =>
      if flattens body
      then (Generator.asRecord (getProp "properties" (schema body))).*1
      else ["body"]
  end.

(** The tags under which [groupToolsByTag] files a tool. *)
Definition groupTags (tool : GeneratedTool) : list string :=
  match tags (endpoint tool) with
  | [] => ["default"]
  | ts => ts
  end.

(** The tools filed under a tag: in the order of the tool list, a tool once
    for each time it carries the tag. *)
Definition membersOf (tag : string) (tools : list GeneratedTool) : list GeneratedTool :=
  tools ≫= (fun tool => replicate (SpecWords.occurrences tag (groupTags tool)) tool).

(** The upper-case method of a tool, the key of [byMethod]. *)
Definition methodKey (tool : GeneratedTool) : string :=
  toUpperCase (method (endpoint tool)).

(** A query that is empty or that starts or ends with white space. *)
Definition blankEdged (query : string) : Prop :=
  query = ""
  \/ (exists (c : ascii) (t : string), query = String c t /\ isSpace c = true)
  \/ (exists (s : string) (c : ascii), query = s +:+ String c "" /\ isSpace c = true).

(** Two backends answer alike but for the status: they throw the same, or
    their responses have the same content type and the same bodies. *)
Definition sameContent (a b : Completion Auth.Response) : Prop :=
  match a, b with
  | Returned r, Returned r' =>
      Auth.contentTypeHeader r = Auth.contentTypeHeader r'
      /\ Auth.json r = Auth.json r' /\ Auth.text r = Auth.text r'
  | Throws e, Throws e' => e = e'
  | _, _ => False
  end.


(** A character that [encodeURIComponent] can produce. *)
Definition urlSafe (c : ascii) : bool := Url.isUnreserved c || Ascii.eqb c "%".

(** A string without an opening brace. *)
Definition braceFree (s : string) : bool :=
  sall (fun c => negb (Ascii.eqb c "{")) s.

(** The names that every object inherits from [Object.prototype]: reading
    one of them from the arguments gives a value also when the arguments have
    no such entry. *)
Definition inherited : list string :=
  ["constructor"; "hasOwnProperty"; "isPrototypeOf"; "propertyIsEnumerable";
   "toLocaleString"; "toString"; "valueOf"; "__proto__";
   "__defineGetter__"; "__defineSetter__"; "__lookupGetter__"; "__lookupSetter__"].

(** No argument is given for a parameter. *)
Definition unset (args : Obj) (param : ParameterInfo) : Prop :=
  (param_name param ∉ inherited)
  /\ (lookupKey (param_name param) args = None
      \/ lookupKey (param_name param) args = Some VUndefined).

(** The argument of a parameter converts to the text [s]. *)
Definition textOf (args : Obj) (param : ParameterInfo) (s : string) : Prop :=
  exists v : Value,
    lookupKey (param_name param) args = Some v
    /\ v <> VUndefined
    /\ Url.stringOf v = Returned s.

(** A character of the base64 alphabet, or the padding. *)
Definition isBase64 (c : ascii) : bool := isAlnum c || Url.oneOf "+/=" c.

(** The alphabet of RFC 4648, section 4: the character at position [n]
    stands for the six bits of value [n]. *)
Definition base64Alphabet : string :=
  "ABCDEFGHIJKLMNOPQRSTUVWXYZabcdefghijklmnopqrstuvwxyz0123456789+/".

Fixpoint position (c : ascii) (alphabet : string) : option N :=
  match alphabet with
  | EmptyString => None
  | String a rest =>
      if Ascii.eqb a c then Some 0%N else N.succ <$> position c rest
  end.

Definition sextet (c : ascii) : option N := position c base64Alphabet.

(** What a receiver of the header does with the credentials: four
    characters give three bytes, and the last group may be padded with one
    or two [=] signs, giving two bytes or one. *)
Fixpoint base64Decode (s : string) : option string :=
  match s with
  | EmptyString => Some ""
  | String a (String b (String c (String d rest))) =>
      if Ascii.eqb d "=" then
        match rest with
        | EmptyString =>
            if Ascii.eqb c "=" then
              x ← sextet a; y ← sextet b;
              Some (String (ascii_of_N (x * 4 + y / 16)) "")
            else
              x ← sextet a; y ← sextet b; z ← sextet c;
              Some (String (ascii_of_N (x * 4 + y / 16))
                      (String (ascii_of_N (y mod 16 * 16 + z / 4)) ""))
        | String _ _ => None
        end
      else
        x ← sextet a; y ← sextet b; z ← sextet c; w ← sextet d;
        bytes ← base64Decode rest;
        Some (String (ascii_of_N (x * 4 + y / 16))
                (String (ascii_of_N (y mod 16 * 16 + z / 4))
                   (String (ascii_of_N (z mod 4 * 64 + w)) bytes)))
  | _ => None
  end.

End ExtraWords.

Module ExtraSamples.

(** An operation whose body is an array of users. *)
Definition userList : RequestBodyInfo :=
  {| body_required := true;
     body_description := None;
     contentType := "application/json";
     schema := [ ("type", VStr "array");
                 ("description", VStr "List of user object");
                 ("items", VObj [("type", VStr "object")]) ] |}.

Definition createUsersWithList : ParsedEndpoint :=
  {| operationId := "createUsersWithListInput"; method := "post";
     path := "/user/createWithList";
     summary := Some "Creates list of users with given input array";
     description := None;
     pathParams := []; queryParams := []; headerParams := [];
     requestBody := Some userList; responses := [];
     tags := ["user"]; security := [] |}.

(** An operation with a header parameter. *)
Definition apiKey : ParameterInfo :=
  {| param_name := "api_key"; param_required := false;
     param_description := None; param_type := VStr "string";
     param_format := VUndefined; param_enum := None; param_default := VUndefined |}.

Definition deletePet : ParsedEndpoint :=
  {| operationId := "deletePet"; method := "delete"; path := "/pet/{petId}";
     summary := Some "Deletes a pet"; description := None;
     pathParams := [Petstore.petId]; queryParams := [];
     headerParams := [apiKey];
     requestBody := None; responses := [];
     tags := ["pet"]; security := ["petstore_auth"] |}.

(** An operation with query parameters. *)
Definition status : ParameterInfo :=
  {| param_name := "status"; param_required := true;
     param_description := Some "Status values to filter by";
     param_type := VStr "array"; param_format := VUndefined;
     param_enum := None; param_default := VUndefined |}.

Definition findPetsByStatus : ParsedEndpoint :=
  {| operationId := "findPetsByStatus"; method := "get";
     path := "/pet/findByStatus";
     summary := Some "Finds Pets by status"; description := None;
     pathParams := []; queryParams := [status]; headerParams := [];
     requestBody := None; responses := [];
     tags := ["pet"]; security := ["petstore_auth"] |}.


(** The operations of a Swagger 2.0 document, as the loader returns them. *)
Definition petIdParameter : Parser.ParameterObject :=
  {| Parser.po_name := "petId"; Parser.po_in := "path";
     Parser.po_required := Some true; Parser.po_description := None;
     Parser.po_schema := None;
     Parser.po_own := [("type", VStr "integer"); ("format", VStr "int64")] |}.

Definition apiKeyParameter : Parser.ParameterObject :=
  {| Parser.po_name := "api_key"; Parser.po_in := "header";
     Parser.po_required := None; Parser.po_description := None;
     Parser.po_schema := None; Parser.po_own := [("type", VStr "string")] |}.

Definition deleteOperation : Parser.OperationObject :=
  {| Parser.op_operationId := Some "deletePet";
     Parser.op_parameters := Some [apiKeyParameter];
     Parser.op_requestBody := None; Parser.op_security := None;
     Parser.op_summary := Some "Deletes a pet"; Parser.op_description := None;
     Parser.op_responses := None; Parser.op_tags := Some ["pet"] |}.

Definition swaggerDocument : Parser.Document :=
  {| Parser.doc_openapi := None;
     Parser.doc_swagger := Some (VStr "2.0");
     Parser.doc_info := {| Parser.info_title := "Swagger Petstore";
                           Parser.info_version := "1.0.7";
                           Parser.info_description := None |};
     Parser.doc_servers := None; Parser.doc_schemes := None;
     Parser.doc_host := None; Parser.doc_basePath := None;
     Parser.doc_paths :=
       Some [ ("/pet",
               Some {| Parser.pi_parameters := None;
                       Parser.pi_get := None;
                       Parser.pi_post := Some Petstore.anonymousOperation;
                       Parser.pi_put := None;
                       Parser.pi_patch := None; Parser.pi_delete := None;
                       Parser.pi_head := None; Parser.pi_options := None |});
              ("/pet/{petId}",
               Some {| Parser.pi_parameters := Some [petIdParameter];
                       Parser.pi_get := Some Petstore.anonymousOperation;
                       Parser.pi_post := None; Parser.pi_put := None;
                       Parser.pi_patch := None;
                       Parser.pi_delete := Some deleteOperation;
                       Parser.pi_head := None; Parser.pi_options := None |}) ] |}.



(** Two operations whose identifiers differ and whose tool names agree. *)
Definition getPet : ParsedEndpoint :=
  {| operationId := "getPet"; method := "get"; path := "/pet";
     summary := None; description := None;
     pathParams := []; queryParams := []; headerParams := [];
     requestBody := None; responses := []; tags := []; security := [] |}.

Definition get_pet : ParsedEndpoint :=
  {| operationId := "get_pet"; method := "get"; path := "/v2/pet";
     summary := None; description := None;
     pathParams := []; queryParams := []; headerParams := [];
     requestBody := None; responses := []; tags := []; security := [] |}.

(** A backend that answers 404 with a JSON body. *)
Definition notFound (_ : Auth.Request) : Completion Auth.Response :=
  Returned {| Auth.ok := false; Auth.statusText := "Not Found";
              Auth.contentTypeHeader := Some "application/json";
              Auth.json := Returned (VObj [("message", VStr "Pet not found")]);
              Auth.text := Returned "" |}.

(** The same answer with status 200. *)
Definition found (_ : Auth.Request) : Completion Auth.Response :=
  Returned {| Auth.ok := true; Auth.statusText := "OK";
              Auth.contentTypeHeader := Some "application/json";
              Auth.json := Returned (VObj [("message", VStr "Pet not found")]);
              Auth.text := Returned "" |}.

(** A token endpoint whose answer has no [access_token]. *)
Definition refusing (_ : Auth.Request) : Completion Auth.Response :=
  Returned {| Auth.ok := true; Auth.statusText := "OK";
              Auth.contentTypeHeader := Some "application/json";
              Auth.json := Returned (VObj [("error", VStr "invalid_client")]);
              Auth.text := Returned "" |}.

(** A token endpoint that grants the token "abc" to the form post of the
    client "specky" and rejects every other request. *)
Definition tokenServer (request : Auth.Request) : Completion Auth.Response :=
  match Auth.req_body request with
  | Some (Auth.FormBody fields) =>
      if bool_decide (Auth.req_url request = "https://auth.example/token")
         && bool_decide (Auth.req_method request = "POST")
         && bool_decide (Auth.req_headers request
                         = [("Content-Type", "application/x-www-form-urlencoded")])
         && bool_decide (fields = [("grant_type", "client_credentials");
                                   ("client_id", "specky");
                                   ("client_secret", "s3cret")])
      then Petstore.granting request
      else Throws (ErrorObject "unexpected request")
  | _ => Throws (ErrorObject "unexpected request")
  end.

End ExtraSamples.

(* ===================================================================== *)
(** * Properties *)
(* ===================================================================== *)

(** ** Characters and strings *)

Module JsFacts.

Import SpecWords Generator.

(** The string primitives on small inputs, as a JavaScript console shows
    them. *)
Example splitSpace_leading : splitSpace " pets PetId" = [""; "pets"; "PetId"].
Proof. reflexivity. Qed.

Example splitWs_runs : splitWs " a  b " = [""; "a"; "b"; ""].
Proof. reflexivity. Qed.

Example splitWs_empty : splitWs "" = [""].
Proof. reflexivity. Qed.

Example includes_empty : includes "abc" "" = true /\ includes "abc" "bd" = false.
Proof. split; reflexivity. Qed.

Example replacePlaceholders_cases :
  Parser.replacePlaceholders None "/a/{}/{x{y}/{z" = "/a/{}/X{y/{z".
Proof. reflexivity. Qed.

Example slice0_negative : SearchMode.slice0 [1; 2; 3] (-1) = [1; 2].
Proof. reflexivity. Qed.

Ltac by_cases_on_char c :=
  destruct c as [[] [] [] [] [] [] [] []]; vm_compute; try reflexivity; try discriminate.

Lemma toLowerChar_letter (c : ascii) :
  isLetter c = true -> isLower (toLowerChar c) = true.
Proof. by_cases_on_char c. Qed.

Lemma letter_isWordChar (c : ascii) : isLetter c = true -> isWordChar c = true.
Proof. by_cases_on_char c. Qed.

Lemma lowered_sanitized_char (c : ascii) :
  isNameChar (toLowerChar (if isWordChar c then c else "_"%char)) = true.
Proof. by_cases_on_char c. Qed.

Lemma upper_not_lower (c : ascii) : isUpper c = true -> isLower c = false.
Proof. by_cases_on_char c. Qed.

Lemma lowered_sanitized (s : string) :
  sall isNameChar (toLowerCase (sanitize s)) = true.
Proof.
  induction s as [|c s IH]; simpl; [reflexivity|].
  rewrite lowered_sanitized_char. exact IH.
Qed.

(** The regular-expression scan and the position-by-position reading agree:
    after a match the scan resumes behind an upper-case letter, which
    cannot open a new match. *)
Lemma camelToSnake_boundaries (s : string) :
  camelToSnake s = snakeBoundaries s
  /\ forall a, camelToSnake (String a s) = snakeBoundaries (String a s).
Proof.
  induction s as [|b t [IH1 IH2]].
  - split; [reflexivity | intros a; reflexivity].
  - split; [apply IH2|].
    intros a.
    change (camelToSnake (String a (String b t)))
      with (if isLower a && isUpper b
            then String a (String "_" (String b (camelToSnake t)))
            else String a (camelToSnake (String b t))).
    change (snakeBoundaries (String a (String b t)))
      with (String a (if isLower a && isUpper b
                      then String "_" (snakeBoundaries (String b t))
                      else snakeBoundaries (String b t))).
    destruct (isLower a && isUpper b) eqn:E.
    + apply andb_true_iff in E as [_ Hb].
      do 2 f_equal.
      rewrite <- IH2.
      destruct t as [|c t']; [reflexivity|].
      change (camelToSnake (String b (String c t')))
        with (if isLower b && isUpper c
              then String b (String "_" (String c (camelToSnake t')))
              else String b (camelToSnake (String c t'))).
      rewrite (upper_not_lower b Hb). reflexivity.
    + f_equal. apply IH2.
Qed.

Lemma snakeBoundaries_head (c : ascii) (s : string) :
  exists r, snakeBoundaries (String c s) = String c r.
Proof. simpl. eexists. reflexivity. Qed.

End JsFacts.

(** ** Tool synthesis *)

Module GeneratorFacts.

Import SpecWords Generator JsFacts.


(** *** The input schema *)

Lemma lookup_assign (k n : string) (v : Value) (properties : gmap string Value) :
  assign k v properties !! n
  = if String.eqb k "__proto__" then properties !! n
    else if decide (k = n) then Some v else properties !! n.
Proof.
  unfold assign. destruct (String.eqb k "__proto__"); [reflexivity|].
  apply lookup_insert.
Qed.

Lemma covered_assign (acc : Acc) (k : string) (v : Value) (b : bool) :
  covered acc ->
  covered (assign k v acc.1, if b then acc.2 ++ [k] else acc.2).
Proof.
  intros Hc n Hn Hproto. cbn [fst snd] in *. rewrite lookup_assign.
  assert (Hcases : n ∈ acc.2 \/ n = k).
  { destruct b; [|now left].
    apply elem_of_app in Hn as [Hn|Hn]; [now left|].
    apply list_elem_of_singleton in Hn. now right. }
  destruct (String.eqb_spec k "__proto__") as [Hk|Hk].
  - destruct Hcases as [Hin| ->]; [now apply Hc | contradiction].
  - destruct (decide (k = n)) as [_|Hne]; [eauto|].
    destruct Hcases as [Hin| ->]; [now apply Hc | contradiction].
Qed.

Lemma covered_foldl {X : Type} (f : Acc -> X -> Acc) :
  (forall acc x, covered acc -> covered (f acc x)) ->
  forall (l : list X) (acc : Acc), covered acc -> covered (foldl f acc l).
Proof.
  intros Hf l. induction l as [|x l IH]; intros acc Hc; [done|].
  simpl. apply IH, Hf, Hc.
Qed.

Lemma foldl_addBodyProp_throws (r : Value) (b : bool) (props : Obj) (e : Thrown) :
  foldl (addBodyProp r b) (Throws e) props = Throws e.
Proof. induction props as [|p ps IH]; [reflexivity | exact IH]. Qed.

Lemma covered_addBodyProp (r : Value) (b : bool) (props : Obj) (acc acc' : Acc) :
  foldl (addBodyProp r b) (Returned acc) props = Returned acc' ->
  covered acc -> covered acc'.
Proof.
  revert acc. induction props as [|p ps IH]; intros acc H Hc.
  - injection H as <-. exact Hc.
  - cbn [foldl addBodyProp] in H.
    destruct (requiredIncludes r p.1) as [listed|e].
    + apply (IH _ H), covered_assign, Hc.
    + rewrite foldl_addBodyProp_throws in H. discriminate H.
Qed.

Lemma covered_addBody (acc acc' : Acc) (body : RequestBodyInfo) :
  addBody acc body = Returned acc' -> covered acc -> covered acc'.
Proof.
  unfold addBody. destruct (isStr _ _ && truthy _).
  - apply covered_addBodyProp.
  - intros [= <-] Hc n Hn Hproto. cbn [fst snd] in *.
    destruct (decide ("body" = n)) as [<-|Hne].
    + rewrite lookup_insert_eq. eauto.
    + rewrite lookup_insert_ne by done. apply Hc; [|done].
      destruct (body_required body); [|done].
      apply elem_of_app in Hn as [Hn|Hn]; [done|].
      apply list_elem_of_singleton in Hn. congruence.
Qed.

Lemma foldl_addParam_required (params : list ParameterInfo) (acc : Acc) :
  (foldl addParam acc params).2 = acc.2 ++ requiredNames params.
Proof.
  revert acc. induction params as [|p ps IH]; intros acc.
  - simpl. now rewrite app_nil_r.
  - simpl. rewrite IH. unfold requiredNames, addParam. cbn [snd].
    destruct (param_required p) eqn:E.
    + rewrite filter_cons_True by done. rewrite fmap_cons, <- app_assoc. done.
    + rewrite filter_cons_False by (rewrite E; done). done.
Qed.

(** An array as [required] lists its strings. *)
Lemma requiredIncludes_array (l : list Value) (p : string) :
  requiredIncludes (VArr l) p
  = Returned (bool_decide (p ∈ omap Parser.asString l)).
Proof.
  unfold requiredIncludes. cbn [truthy]. f_equal.
  induction l as [|v l IH]; [reflexivity|].
  cbn [existsb]. rewrite IH.
  destruct v; try reflexivity.
  change (omap Parser.asString (VStr s :: l)) with (s :: omap Parser.asString l).
  cbn [isStr]. destruct (String.eqb_spec s p) as [->|Hne].
  - symmetry. apply bool_decide_eq_true. left.
  - cbn [orb]. apply bool_decide_ext. rewrite elem_of_cons. intuition congruence.
Qed.

(** With an array as [required] the loop over the body properties never
    throws. *)
Lemma foldl_addBodyProp_array (l : list Value) (b : bool) (props : Obj) (acc : Acc) :
  exists acc' : Acc,
    foldl (addBodyProp (VArr l) b) (Returned acc) props = Returned acc'
    /\ acc'.2 = acc.2 ++ filter (fun p => p ∈ omap Parser.asString l ∧ b = true) props.*1
    /\ (forall p : string,
          p ∈ props.*1 -> p <> "__proto__" -> is_Some (acc'.1 !! p)).
Proof.
  revert acc. induction props as [|[k v] ps IH]; intros acc.
  - exists acc. split; [reflexivity|]. split; [simpl; now rewrite app_nil_r|].
    intros p Hp. inversion Hp.
  - cbn [foldl addBodyProp fst snd]. rewrite requiredIncludes_array.
    destruct (IH (assign k v acc.1,
                  if bool_decide (k ∈ omap Parser.asString l) && b
                  then acc.2 ++ [k] else acc.2)) as (acc' & Hfold & Hreq & Hkeys).
    exists acc'. split; [exact Hfold|]. split.
    + rewrite Hreq. cbn [snd]. rewrite fmap_cons. cbn [fst].
      destruct (decide (k ∈ omap Parser.asString l ∧ b = true)) as [[Hk Hb]|Hn].
      * rewrite filter_cons_True by done.
        rewrite bool_decide_true by done. rewrite Hb. simpl.
        now rewrite <- app_assoc.
      * rewrite filter_cons_False by done.
        destruct (bool_decide (k ∈ omap Parser.asString l)) eqn:E1, b eqn:E2;
          simpl; try done.
        apply bool_decide_eq_true in E1. tauto.
    + intros p Hp Hproto. rewrite fmap_cons in Hp. cbn [fst] in Hp.
      destruct (decide (p ∈ ps.*1)) as [Hin|Hnotin]; [now apply Hkeys|].
      apply elem_of_cons in Hp as [->|Hp]; [|contradiction].
      clear - Hfold Hproto.
      assert (Hkeep : forall (props : Obj) (a a' : Acc),
                 foldl (addBodyProp (VArr l) b) (Returned a) props = Returned a' ->
                 is_Some (a.1 !! k) -> is_Some (a'.1 !! k)).
      { induction props as [|[k' v'] props IHp]; intros a a' H Hs.
        - injection H as <-. exact Hs.
        - cbn [foldl addBodyProp fst snd] in H.
          rewrite requiredIncludes_array in H.
          apply (IHp _ _ H). cbn [fst]. rewrite lookup_assign.
          destruct (String.eqb k' "__proto__"); [exact Hs|].
          destruct (decide (k' = k)); [eauto | exact Hs]. }
      apply (Hkeep _ _ _ Hfold). cbn [fst]. rewrite lookup_assign.
      destruct (String.eqb_spec k "__proto__") as [?|_]; [contradiction|].
      rewrite decide_True by reflexivity. eauto.
Qed.

(** C5. The code keeps every required name among the properties, with one
    exception: [properties] is a plain object, and assigning the name
    [__proto__] sets its prototype instead of adding a key.  For every
    endpoint whose schema is generated, the type is "object" and every
    required name other than [__proto__] is a key of [properties]; a body
    schema that is an object with a properties map and a [required] array is
    flattened, and its properties are marked required exactly when they are
    listed in that array and the body is required.  But a required path
    parameter named [__proto__] is listed in [required] and has no entry in
    [properties]; and a body schema whose [required] is [true] yields no
    schema at all, since a boolean has no [includes]. *)
Theorem generateInputSchema_required_names :
  (forall (e : ParsedEndpoint) (s : InputSchema),
      generateInputSchema e = Returned s ->
      schema_type s = "object"
      /\ forall n : string,
           n ∈ required s -> n <> "__proto__" -> is_Some (properties s !! n))
  /\ (forall (e : ParsedEndpoint) (body : RequestBodyInfo) (props : Obj)
             (listed : list Value),
        requestBody e = Some body ->
        isStr (getProp "type" (schema body)) "object" = true ->
        getProp "properties" (schema body) = VObj props ->
        getProp "required" (schema body) = VArr listed ->
        exists s : InputSchema,
          generateInputSchema e = Returned s
          /\ (forall p : string,
                p ∈ props.*1 -> p <> "__proto__" -> is_Some (properties s !! p))
          /\ required s
             = requiredNames (pathParams e) ++ requiredNames (queryParams e)
               ++ filter (fun p => p ∈ bodyRequired body ∧ body_required body = true)
                         props.*1)
  /\ generateInputSchema Petstore.getItem
     = Returned {| schema_type := "object"; properties := ∅;
                   required := ["__proto__"] |}
  /\ ~ (forall (e : ParsedEndpoint) (s : InputSchema) (n : string),
          generateInputSchema e = Returned s ->
          n ∈ required s -> is_Some (properties s !! n))
  /\ generateInputSchema Petstore.putItem
     = Throws (ErrorObject "bodyRequired.includes is not a function").
Proof.
  assert (Hslip : generateInputSchema Petstore.getItem
                  = Returned {| schema_type := "object"; properties := ∅;
                                required := ["__proto__"] |}) by reflexivity.
  split; [|split; [|split; [exact Hslip|split; [|reflexivity]]]].
  - intros e s H. unfold generateInputSchema in H.
    assert (Hc : covered (foldl addParam (foldl addParam (∅, []) (pathParams e))
                            (queryParams e))).
    { do 2 (apply covered_foldl;
            [intros a x Ha; apply (covered_assign a _ _ _ Ha)|]).
      intros n Hn. inversion Hn. }
    destruct (requestBody e) as [body|].
    + destruct (addBody _ body) as [acc|err] eqn:E; [|discriminate H].
      injection H as <-. split; [reflexivity|].
      exact (covered_addBody _ _ _ E Hc).
    + injection H as <-. split; [reflexivity | exact Hc].
  - intros e body props listed Hbody Htype Hprops Hreq.
    unfold generateInputSchema. rewrite Hbody.
    unfold addBody. rewrite Htype, Hprops, Hreq. cbn [truthy andb asRecord].
    destruct (foldl_addBodyProp_array listed (body_required body) props
                (foldl addParam (foldl addParam (∅, []) (pathParams e))
                   (queryParams e)))
      as (acc & -> & Hrequired & Hkeys).
    eexists. split; [reflexivity|]. cbn [properties required].
    split; [exact Hkeys|].
    rewrite Hrequired, !foldl_addParam_required. cbn [snd].
    unfold bodyRequired. rewrite Hreq. cbn [Parser.asStrings Parser.asArray default].
    now rewrite app_nil_l, <- app_assoc.
  - intros H.
    destruct (H Petstore.getItem _ "__proto__" Hslip) as [v Hv]; [left|].
    cbn [properties] in Hv. rewrite lookup_empty in Hv. discriminate Hv.
Qed.


End GeneratorFacts.

(** ** Search ranking *)

Module SearchFacts.

Import SpecWords SearchMode.

Lemma foldl_words (field : string) (words : list string) (score : Z) :
  foldl (fun score word => if includes field word then (score + 5)%Z else score)
        score words
  = (score + 5 * Z.of_nat (length (filter (fun word => includes field word = true)
                                         words)))%Z.
Proof.
  revert score. induction words as [|w ws IH]; intros score.
  - simpl. lia.
  - cbn [foldl]. rewrite IH. destruct (includes field w) eqn:E.
    + rewrite filter_cons_True by done. cbn [length]. lia.
    + rewrite filter_cons_False by (rewrite E; done). lia.
Qed.

Lemma scoreField_fieldScore (queryLower field : string) (score : Z) :
  scoreField queryLower score field = (score + fieldScore queryLower field)%Z.
Proof.
  unfold scoreField, fieldScore. rewrite foldl_words.
  destruct (includes field queryLower); lia.
Qed.

Lemma foldl_scoreField (queryLower : string) (fields : list string) (score : Z) :
  foldl (scoreField queryLower) score fields
  = (score + foldr Z.add 0 (fieldScore queryLower <$> fields))%Z.
Proof.
  revert score. induction fields as [|f fs IH]; intros score.
  - simpl. lia.
  - cbn [foldl]. rewrite IH, scoreField_fieldScore, fmap_cons.
    cbn [foldr]. lia.
Qed.

Lemma searchFields_specFields (tool : GeneratedTool) :
  searchFields tool = specFields tool.
Proof.
  unfold searchFields, specFields. rewrite fmap_app, !fmap_cons. cbn [app fmap].
  now destruct (summary (endpoint tool)) as [[|c s]|].
Qed.

Lemma scoreTool_specScore (queryLower : string) (tool : GeneratedTool) :
  scoreTool queryLower tool = specScore queryLower tool.
Proof.
  unfold scoreTool, specScore.
  rewrite foldl_scoreField, searchFields_specFields. lia.
Qed.

(** *** The sort *)

Lemma insertByScore_perm (a : GeneratedTool * Z) (l : list (GeneratedTool * Z)) :
  Permutation (insertByScore a l) (a :: l).
Proof.
  induction l as [|b l IH]; simpl; [done|].
  destruct (b.2 - a.2 <=? 0)%Z; [done|].
  rewrite IH. apply perm_swap.
Qed.

Lemma sortByScore_perm (l : list (GeneratedTool * Z)) :
  Permutation (sortByScore l) l.
Proof.
  induction l as [|a l IH]; simpl; [done|].
  rewrite insertByScore_perm. now constructor.
Qed.

Lemma insertByScore_descending (a : GeneratedTool * Z) (l : list (GeneratedTool * Z)) :
  descending l -> descending (insertByScore a l).
Proof.
  unfold descending. induction l as [|b l IH]; intros Hl; simpl.
  - repeat constructor.
  - inversion Hl as [|? ? Hl' Hb]; subst.
    destruct (b.2 - a.2 <=? 0)%Z eqn:E.
    + apply Z.leb_le in E. constructor; [done|].
      constructor; [lia|].
      eapply Forall_impl; [exact Hb|]. simpl. intros; lia.
    + apply Z.leb_gt in E. constructor; [now apply IH|].
      rewrite insertByScore_perm. constructor; [lia | done].
Qed.

Lemma sortByScore_descending (l : list (GeneratedTool * Z)) :
  descending (sortByScore l).
Proof.
  induction l as [|a l IH]; simpl; [constructor|].
  now apply insertByScore_descending.
Qed.

Lemma insertByScore_ties (a : GeneratedTool * Z) (l : list (GeneratedTool * Z)) (s : Z) :
  filter (fun x => x.2 = s) (insertByScore a l) = filter (fun x => x.2 = s) (a :: l).
Proof.
  induction l as [|b l IH]; simpl; [done|].
  destruct (b.2 - a.2 <=? 0)%Z eqn:E; [done|].
  apply Z.leb_gt in E.
  destruct (decide (b.2 = s)) as [Hb|Hb].
  - rewrite (filter_cons_True _ b) by done. rewrite IH.
    rewrite (filter_cons_False _ a) by (simpl; lia).
    rewrite (filter_cons_False _ a) by (simpl; lia).
    now rewrite (filter_cons_True _ b).
  - rewrite (filter_cons_False _ b) by done. rewrite IH.
    destruct (decide (a.2 = s)).
    + rewrite !(filter_cons_True _ a) by done.
      now rewrite (filter_cons_False _ b).
    + rewrite !(filter_cons_False _ a) by done.
      now rewrite (filter_cons_False _ b).
Qed.

Lemma sortByScore_ties (l : list (GeneratedTool * Z)) :
  sameOrderOnTies (sortByScore l) l.
Proof.
  intros s. induction l as [|a l IH]; simpl; [done|].
  rewrite insertByScore_ties.
  destruct (decide (a.2 = s)).
  - rewrite !(filter_cons_True _ a) by done. now rewrite IH.
  - rewrite !(filter_cons_False _ a) by done. exact IH.
Qed.

(** *** The ranking *)

Lemma searchEndpoints_unfold (tools : list GeneratedTool) (query : string)
    (options : option SearchOptions) :
  searchEndpoints tools query options
  = (slice0 (sortByScore (matching tools query options)) (effectiveLimit options)).*1.
Proof. reflexivity. Qed.

Lemma slice0_nonneg {A : Type} (l : list A) (limit : Z) :
  (0 <= limit)%Z -> slice0 l limit = take (Z.to_nat limit) l.
Proof. intros H. unfold slice0. destruct (limit <? 0)%Z eqn:E; [lia | done]. Qed.

Lemma slice0_subseteq {A : Type} (l : list A) (limit : Z) : slice0 l limit ⊆ l.
Proof. unfold slice0. destruct (limit <? 0)%Z; apply subseteq_take. Qed.

(** Whatever the query, a returned tool has passed the tag filter. *)
Lemma searchEndpoints_tagFilter (tools : list GeneratedTool) (query : string)
    (options : option SearchOptions) (tool : GeneratedTool) :
  tool ∈ searchEndpoints tools query options -> tool ∈ tagFilter options tools.
Proof.
  rewrite searchEndpoints_unfold. intros H.
  apply list_elem_of_fmap in H as ([t z] & -> & H).
  apply slice0_subseteq in H.
  rewrite sortByScore_perm in H.
  unfold matching, candidates in H.
  apply list_elem_of_filter in H as [_ H].
  apply list_elem_of_fmap in H as (t' & Heq & H). injection Heq as -> _.
  simpl. unfold methodFilter in H.
  destruct (options ≫= opt_methods) as [[|m ms]|]; try done.
  now apply list_elem_of_filter in H as [_ H].
Qed.

(** C7. The score of a tool is the sum, over its lowercased fields (name,
    description, path, summary or empty, operationId, each tag), of 10 when
    the field contains the lowercased query and 5 for each
    white-space-delimited word of the query that the field contains.  The
    result lists the candidates of positive score, sorted by descending
    score with ties in their original order, cut to the limit: the first ten
    when no limit is given, the first [n] for a limit [n > 0].  With the
    tools get_pet_by_id (tag pet) and get_store_inventory (tag store), the
    query "pet" puts get_pet_by_id first, and under the tag filter ["store"]
    no query returns get_pet_by_id. *)
Theorem searchEndpoints_ranking (tools : list GeneratedTool) (query : string)
    (options : option SearchOptions) :
  (forall tool : GeneratedTool,
      scoreTool (toLowerCase query) tool
      = foldr Z.add 0%Z (fieldScore (toLowerCase query) <$> specFields tool))
  /\ (exists ranked : list (GeneratedTool * Z),
        Permutation ranked (matching tools query options)
        /\ descending ranked
        /\ sameOrderOnTies ranked (matching tools query options)
        /\ (options ≫= opt_limit = None ->
            searchEndpoints tools query options = (take 10 ranked).*1)
        /\ (forall n : Z,
              options ≫= opt_limit = Some n -> (0 < n)%Z ->
              searchEndpoints tools query options = (take (Z.to_nat n) ranked).*1))
  /\ tool_name <$> searchEndpoints Petstore.tools "pet" None
     = ["get_pet_by_id"; "get_store_inventory"]
  /\ (forall (methods : option (list string)) (limit : option Z),
        "get_pet_by_id"
        ∉ tool_name <$> searchEndpoints Petstore.tools query
                          (withLimit (Some ["store"]) methods limit)).
Proof.
  split; [intros tool; apply scoreTool_specScore|]. split.
  { exists (sortByScore (matching tools query options)).
    split; [apply sortByScore_perm|].
    split; [apply sortByScore_descending|].
    split; [apply sortByScore_ties|].
    split.
    - intros Hnone. rewrite searchEndpoints_unfold. unfold effectiveLimit.
      rewrite Hnone. reflexivity.
    - intros n Hn Hpos. rewrite searchEndpoints_unfold. unfold effectiveLimit.
      rewrite Hn. destruct (Z.eqb_spec n 0) as [?|_]; [lia|].
      now rewrite slice0_nonneg by lia. }
  split; [vm_compute; reflexivity|].
  intros methods limit Hin.
  apply list_elem_of_fmap in Hin as (tool & Hname & Hin).
  apply searchEndpoints_tagFilter in Hin.
  assert (Hstore : tagFilter (withLimit (Some ["store"]) methods limit) Petstore.tools
                   = [Petstore.toolOf Petstore.getStoreInventory])
    by (vm_compute; reflexivity).
  rewrite Hstore in Hin. apply list_elem_of_singleton in Hin. subst tool.
  vm_compute in Hname. discriminate Hname.
Qed.

(** With the limit 1 the query "pet" returns get_pet_by_id alone: it has the
    higher score of the two candidates. *)
Lemma searchEndpoints_ranking_witness :
  tool_name <$> searchEndpoints Petstore.tools "pet" (withLimit None None (Some 1%Z))
  = ["get_pet_by_id"].
Proof.
  destruct (searchEndpoints_ranking Petstore.tools "pet" (withLimit None None (Some 1%Z)))
    as (_ & (ranked & Hperm & Hdesc & _ & _ & Hcut) & _).
  rewrite (Hcut 1%Z eq_refl eq_refl). clear Hcut.
  assert (Hm : exists s1 s2 : Z,
             matching Petstore.tools "pet" (withLimit None None (Some 1%Z))
             = [ (Petstore.toolOf Petstore.getPetById, s1);
                 (Petstore.toolOf Petstore.getStoreInventory, s2) ]
             /\ (s2 < s1)%Z)
    by (eexists _, _; split; vm_compute; reflexivity).
  destruct Hm as (s1 & s2 & Hm & Hlt). rewrite Hm in Hperm.
  apply Permutation_sym, Permutation_length_2_inv in Hperm as [-> | ->].
  - reflexivity.
  - exfalso. inversion Hdesc as [|? ? _ Hhead]; subst.
    inversion Hhead as [|? ? Hle _]; subst. cbn [snd] in Hle. lia.
Defined.

(** C9. A supplied limit of 0 is falsy and falls back to the default 10: the
    search returns what it returns with no limit, the first ten of the
    ranking, so a caller that asks for zero results still gets every match
    up to ten. *)
Theorem searchEndpoints_limit_zero (tools : list GeneratedTool) (query : string)
    (tags methods : option (list string)) :
  effectiveLimit (withLimit tags methods (Some 0%Z)) = 10%Z
  /\ searchEndpoints tools query (withLimit tags methods (Some 0%Z))
     = searchEndpoints tools query (withLimit tags methods None)
  /\ searchEndpoints tools query (withLimit tags methods (Some 0%Z))
     = (take 10 (sortByScore (matching tools query (withLimit tags methods (Some 0%Z))))).*1
  /\ length (searchEndpoints tools query (withLimit tags methods (Some 0%Z)))
     = min 10 (length (matching tools query (withLimit tags methods (Some 0%Z))))
  /\ ((exists a, a ∈ candidates tools query (withLimit tags methods (Some 0%Z))
                 ∧ (0 < a.2)%Z) ->
      searchEndpoints tools query (withLimit tags methods (Some 0%Z)) <> []).
Proof.
  assert (Hlen : length (searchEndpoints tools query (withLimit tags methods (Some 0%Z)))
                 = min 10 (length (matching tools query (withLimit tags methods (Some 0%Z))))).
  { rewrite searchEndpoints_unfold, length_fmap.
    change (effectiveLimit (withLimit tags methods (Some 0%Z))) with 10%Z.
    rewrite slice0_nonneg by lia. rewrite length_take.
    now rewrite (Permutation_length (sortByScore_perm _)). }
  split; [reflexivity|]. split; [reflexivity|]. split; [reflexivity|].
  split; [exact Hlen|].
  intros (a & Ha & Hpos) Hnil.
  rewrite Hnil in Hlen. simpl in Hlen.
  assert (Hm : a ∈ matching tools query (withLimit tags methods (Some 0%Z))).
  { unfold matching. apply list_elem_of_filter. done. }
  destruct (matching tools query (withLimit tags methods (Some 0%Z))) as [|b l].
  - inversion Hm.
  - simpl in Hlen. lia.
Qed.

Lemma searchEndpoints_limit_zero_witness :
  tool_name <$> searchEndpoints Petstore.tools "pet" (withLimit None None (Some 0%Z))
  = ["get_pet_by_id"; "get_store_inventory"]
  /\ searchEndpoints Petstore.tools "pet" (withLimit None None (Some 0%Z)) <> [].
Proof.
  split; [vm_compute; reflexivity|].
  apply (searchEndpoints_limit_zero Petstore.tools "pet" None None).
  exists (Petstore.toolOf Petstore.getPetById, 90%Z).
  split; [|vm_compute; reflexivity].
  unfold candidates.
  apply (list_elem_of_fmap_2' _ _ (Petstore.toolOf Petstore.getPetById)).
  - vm_compute. left.
  - vm_compute. reflexivity.
Defined.

End SearchFacts.

(** ** OAuth2 token acquisition *)

Module AuthFacts.

Import SpecWords Auth.

Section WithFetch.

Variable fetch : Request -> Completion Response.

Lemma getOAuth2Token_configured (auth : AuthConfig) (url id secret : string) :
  auth_type auth = oauth2 ->
  tokenUrl auth = Some url -> clientId auth = Some id ->
  clientSecret auth = Some secret ->
  nonEmpty url = true -> nonEmpty id = true -> nonEmpty secret = true ->
  getOAuth2Token fetch auth
  = match exchange fetch url id secret with
    | Returned token => (Returned token, [])
    | Throws error => (Returned VNull, [error])
    end.
Proof.
  intros Ht Hu Hi Hs Hu' Hi' Hs'. unfold getOAuth2Token.
  now rewrite Ht, Hu, Hi, Hs, Hu', Hi', Hs'.
Qed.

End WithFetch.

(** C8. [getOAuth2Token] never throws.  It returns null when the token URL,
    the client id or the client secret is missing, and when the exchange
    fails: when fetch rejects, when the status is not a success (the error
    "OAuth2 token request failed: <status text>" is logged, not propagated),
    and when the response is not JSON.  On a successful exchange it returns
    the [access_token] field of the parsed response. *)
Theorem getOAuth2Token_swallows (fetch : Request -> Completion Response)
    (auth : AuthConfig) :
  (exists (v : Value) (log : list Thrown),
      getOAuth2Token fetch auth = (Returned v, log))
  /\ (present (tokenUrl auth) = false \/ present (clientId auth) = false
      \/ present (clientSecret auth) = false ->
      getOAuth2Token fetch auth = (Returned VNull, []))
  /\ (forall url id secret : string,
        auth_type auth = oauth2 ->
        tokenUrl auth = Some url -> clientId auth = Some id ->
        clientSecret auth = Some secret ->
        nonEmpty url = true -> nonEmpty id = true -> nonEmpty secret = true ->
        (forall e : Thrown,
            fetch (tokenRequest url id secret) = Throws e ->
            getOAuth2Token fetch auth = (Returned VNull, [e]))
        /\ (forall response : Response,
              fetch (tokenRequest url id secret) = Returned response ->
              ok response = false ->
              getOAuth2Token fetch auth
              = (Returned VNull,
                 [ErrorObject ("OAuth2 token request failed: "
                               +:+ statusText response)]))
        /\ (forall (response : Response) (e : Thrown),
              fetch (tokenRequest url id secret) = Returned response ->
              ok response = true -> json response = Throws e ->
              getOAuth2Token fetch auth = (Returned VNull, [e]))
        /\ (forall (response : Response) (data : Obj),
              fetch (tokenRequest url id secret) = Returned response ->
              ok response = true -> json response = Returned (VObj data) ->
              getOAuth2Token fetch auth
              = (Returned (getProp "access_token" data), []))).
Proof.
  split; [|split].
  - unfold getOAuth2Token.
    destruct (auth_type auth), (tokenUrl auth), (clientId auth), (clientSecret auth);
      eauto.
    destruct (nonEmpty _ && nonEmpty _ && nonEmpty _); eauto.
    destruct (exchange _ _ _ _); eauto.
  - unfold getOAuth2Token, present.
    destruct (auth_type auth), (tokenUrl auth) as [u|], (clientId auth) as [i|],
      (clientSecret auth) as [s|]; try reflexivity.
    intros [H|[H|H]]; rewrite H; rewrite ?andb_false_r; reflexivity.
  - intros url id secret Ht Hu Hi Hs Hu' Hi' Hs'.
    rewrite (getOAuth2Token_configured fetch auth url id secret) by assumption.
    unfold exchange. repeat split.
    + intros e ->. reflexivity.
    + intros response -> ->. reflexivity.
    + intros response e -> -> ->. reflexivity.
    + intros response data -> -> ->. reflexivity.
Qed.

Lemma getOAuth2Token_swallows_witness :
  getOAuth2Token Petstore.granting Petstore.clientCredentials
  = (Returned (VStr "abc"), []).
Proof.
  destruct (getOAuth2Token_swallows Petstore.granting Petstore.clientCredentials)
    as (_ & _ & H).
  destruct (H "https://auth.example/token" "specky" "s3cret"
              eq_refl eq_refl eq_refl eq_refl eq_refl eq_refl eq_refl)
    as (_ & _ & _ & Hok).
  exact (Hok _ [("access_token", VStr "abc")] eq_refl eq_refl eq_refl).
Defined.

End AuthFacts.

(** ** Spec normalisation *)

Module ParserFacts.

Import SpecWords Parser.

(** C2. Without a declared operationId the identifier is synthesised from
    method and path; for method get and path /pets/{petId} the code yields
    getPetsPetid, not getPetsPetId: each word after the first is capitalised
    and then lowercased from its second letter on, which undoes the capital
    inside the placeholder name.  The example of the source comment,
    /pets/{petId}/photos, yields getPetsPetidPhotos. *)
Theorem generateOperationId_placeholder_case :
  generateOperationId "get" "/pets/{petId}" = "getPetsPetid"
  /\ generateOperationId "get" "/pets/{petId}" <> "getPetsPetId"
  /\ generateOperationId "get" "/pets/{petId}/photos" = "getPetsPetidPhotos"
  /\ (exists e : ParsedEndpoint,
        parseOperation "get" "/pets/{petId}" Petstore.anonymousOperation [] false
        = Returned e
        /\ operationId e = "getPetsPetid").
Proof.
  split; [reflexivity|]. split; [vm_compute; congruence|].
  split; [reflexivity|]. eexists. split; reflexivity.
Qed.

(** C3. A document that has neither discriminant is refused by the loader,
    and [parseSpec] does not catch what a loader throws, whatever the loader:
    spec parsing fails with the loader's format error and produces no parsed
    spec.  The discriminants of the code are those of the specification, so
    the fallback base URL of [extractBaseUrl] is never reached through
    [parseSpec]. *)
Theorem parseSpec_unknown_format (read : string -> Completion Document)
    (specFormatError : Thrown) (specPath : string) (api : Document) :
  read specPath = Returned api ->
  Loader.knownFormat api = false ->
  parseSpec (Loader.dereference read specFormatError) specPath = Throws specFormatError
  /\ (forall spec : ParsedSpec,
        parseSpec (Loader.dereference read specFormatError) specPath <> Returned spec)
  /\ (forall (dereference : string -> Completion Document) (error : Thrown),
        dereference specPath = Throws error ->
        parseSpec dereference specPath = Throws error)
  /\ isOpenAPIV3 api = false
  /\ isSwagger2 api = false.
Proof.
  intros Hread Hformat.
  assert (Hthrows : parseSpec (Loader.dereference read specFormatError) specPath
                    = Throws specFormatError).
  { unfold parseSpec, Loader.dereference. now rewrite Hread, Hformat. }
  split; [exact Hthrows|]. split; [rewrite Hthrows; discriminate|].
  split; [intros dereference error Herror; unfold parseSpec; now rewrite Herror|].
  unfold Loader.knownFormat in Hformat. apply orb_false_iff in Hformat as [H3 H2].
  split.
  - unfold isOpenAPIV3, startsWith. now destruct (doc_openapi api) as [[]|].
  - unfold isSwagger2. destruct (doc_swagger api) as [[]|]; try reflexivity.
    exact H2.
Qed.

Lemma parseSpec_unknown_format_witness :
  parseSpec (Loader.dereference (fun _ => Returned Petstore.legacyDocument)
               (ErrorObject "SpecFormatError"))
            "legacy.json"
  = Throws (ErrorObject "SpecFormatError").
Proof.
  apply (parseSpec_unknown_format (fun _ => Returned Petstore.legacyDocument)
           (ErrorObject "SpecFormatError") "legacy.json" Petstore.legacyDocument);
    reflexivity.
Defined.

End ParserFacts.

(** ** Dispatch *)

Module ServerFacts.

Import SpecWords Auth.

Section FullModeServer.

Variable buildUrl : string -> ParsedEndpoint -> Obj -> string.
Variable toStr : Value -> string.
Variable stringify : Value -> string.
Variable authenticatedFetch : Request -> Completion Response.

Lemma find_name_None (tools : list GeneratedTool) (toolName : string) :
  (forall t : GeneratedTool, t ∈ tools -> tool_name t <> toolName) ->
  find (fun t => String.eqb (tool_name t) toolName) tools = None.
Proof.
  induction tools as [|t ts IH]; intros H; [reflexivity|].
  simpl. destruct (String.eqb_spec (tool_name t) toolName) as [Heq|_].
  - exfalso. apply (H t); [left | exact Heq].
  - apply IH. intros t' Ht'. apply H. now right.
Qed.

Lemma find_name_Some (tools : list GeneratedTool) (toolName : string)
    (t : GeneratedTool) :
  t ∈ tools -> tool_name t = toolName ->
  exists t' : GeneratedTool,
    find (fun t => String.eqb (tool_name t) toolName) tools = Some t'
    /\ tool_name t' = toolName.
Proof.
  induction tools as [|t0 ts IH]; intros Hin Hname; [inversion Hin|].
  simpl. destruct (String.eqb_spec (tool_name t0) toolName) as [Heq|Hne].
  - eauto.
  - apply elem_of_cons in Hin as [->|Hin]; [contradiction | now apply IH].
Qed.

(** C1, as the code has it. In Full mode an invocation that names a tool
    missing from the generated list makes the handler throw an Error with the
    message "Unknown tool: <name>": no result is returned, error-flagged or
    not.  An invocation that names a listed tool always returns a result,
    which is error-flagged and carries "Error: <message>" when the API call
    throws. *)
Theorem callTool_unknown_tool (tools : list GeneratedTool)
    (baseUrl toolName : string) (arguments : option Obj) :
  ((forall t : GeneratedTool, t ∈ tools -> tool_name t <> toolName) ->
   FullMode.callTool buildUrl toStr stringify authenticatedFetch
     tools baseUrl toolName arguments
   = Throws (ErrorObject ("Unknown tool: " +:+ toolName)))
  /\ ((exists t : GeneratedTool, t ∈ tools /\ tool_name t = toolName) ->
      exists (t : GeneratedTool) (result : FullMode.CallToolResult),
        t ∈ tools /\ tool_name t = toolName
        /\ FullMode.callTool buildUrl toStr stringify authenticatedFetch
             tools baseUrl toolName arguments
           = Returned result
        /\ (forall message : string,
              FullMode.executeApiCall buildUrl toStr authenticatedFetch
                baseUrl (endpoint t) (default [] arguments)
              = Throws (ErrorObject message) ->
              result = {| FullMode.content_text := "Error: " +:+ message;
                          FullMode.isError := Some true |})).
Proof.
  split.
  - intros H. unfold FullMode.callTool. now rewrite find_name_None.
  - intros (t & Hin & Hname). unfold FullMode.callTool.
    destruct (find_name_Some tools toolName t Hin Hname) as (t' & Hfind & Hname').
    rewrite Hfind. exists t'.
    assert (Hin' : t' ∈ tools).
    { apply find_some in Hfind as [Hin' _]. now apply list_elem_of_In. }
    destruct (FullMode.executeApiCall _ _ _ _ _ _) as [v|e].
    + eexists. repeat split; try done.
    + eexists. repeat split; try done.
      intros message Hm. now injection Hm as ->.
Qed.

End FullModeServer.

Lemma callTool_unknown_tool_witness :
  FullMode.callTool Petstore.plainUrl Petstore.noText Petstore.noText Petstore.echo
    Petstore.tools "https://petstore.swagger.io/v2" "delete_pet" None
  = Throws (ErrorObject "Unknown tool: delete_pet")
  /\ exists result : FullMode.CallToolResult,
       FullMode.callTool Petstore.plainUrl Petstore.noText Petstore.noText Petstore.echo
         Petstore.tools "https://petstore.swagger.io/v2" "get_pet_by_id" None
       = Returned result.
Proof.
  split.
  - apply (callTool_unknown_tool Petstore.plainUrl Petstore.noText Petstore.noText
             Petstore.echo Petstore.tools).
    intros t Ht. unfold Petstore.tools in Ht.
    apply elem_of_cons in Ht as [->|Ht]; [vm_compute; discriminate|].
    apply list_elem_of_singleton in Ht as ->. vm_compute. discriminate.
  - destruct (callTool_unknown_tool Petstore.plainUrl Petstore.noText Petstore.noText
                Petstore.echo Petstore.tools "https://petstore.swagger.io/v2"
                "get_pet_by_id" None) as [_ H].
    destruct H as (t & result & _ & _ & H & _).
    + exists (Petstore.toolOf Petstore.getPetById).
      split; [left | reflexivity].
    + now exists result.
Defined.

(** The claim C1 fails for the tool name delete_pet, which the two sample
    tools do not have: the handler returns no result at all. *)
Lemma callTool_unknown_tool_counterexample :
  (forall t : GeneratedTool, t ∈ Petstore.tools -> tool_name t <> "delete_pet")
  /\ ~ (exists result : FullMode.CallToolResult,
          FullMode.callTool Petstore.plainUrl Petstore.noText Petstore.noText
            Petstore.echo Petstore.tools "https://petstore.swagger.io/v2"
            "delete_pet" None
          = Returned result).
Proof.
  split.
  - intros t Ht. unfold Petstore.tools in Ht.
    apply elem_of_cons in Ht as [->|Ht]; [vm_compute; discriminate|].
    apply list_elem_of_singleton in Ht as ->. vm_compute. discriminate.
  - intros [result H]. vm_compute in H. discriminate H.
Qed.

(** *** Request bodies *)

Lemma lookupKey_elem {A : Type} (k : string) (v : A) (o : list (string * A)) :
  lookupKey k o = Some v -> (k, v) ∈ o.
Proof.
  induction o as [|[k' v'] o IH]; simpl; [discriminate|].
  destruct (String.eqb_spec k' k) as [->|_].
  - intros [= ->]. left.
  - intros H. right. now apply IH.
Qed.

Lemma extractBody_declared (endpoint : ParsedEndpoint) (args : Obj) (body : Value) :
  FullMode.extractBody endpoint args = Some body -> is_Some (requestBody endpoint).
Proof.
  unfold FullMode.extractBody. destruct (requestBody endpoint); [eauto | discriminate].
Qed.

Lemma residual_search (endpoint : ParsedEndpoint) (args : Obj) :
  filter (fun kv : string * Value =>
            (kv.1 ∉ FullMode.names (pathParams endpoint))
            ∧ (kv.1 ∉ FullMode.names (queryParams endpoint))
            ∧ kv.1 <> "endpoint_id") args
  = filter (fun kv : string * Value => kv.1 <> "endpoint_id")
           (residual endpoint args).
Proof.
  unfold residual. induction args as [|kv l IH]; [reflexivity|].
  rewrite !filter_cons, IH.
  repeat case_decide; try tauto; rewrite ?filter_cons; repeat case_decide; tauto.
Qed.

(** C4, as the code has it. In Full mode a body is extracted only when the
    endpoint declares a request body; then a defined [body] argument is the
    body as it is, and the arguments that are neither path nor query
    parameters are collected only otherwise.  In Search mode the body is
    always the collection of the arguments that are neither path nor query
    parameters nor [endpoint_id], whether or not the endpoint declares a
    request body; a [body] argument is one of the collected entries, and the
    request carries exactly that collection. *)
Theorem body_policies (endpoint : ParsedEndpoint) (args : Obj) :
  (forall body : Value,
      FullMode.extractBody endpoint args = Some body ->
      is_Some (requestBody endpoint))
  /\ (forall body : Value,
        is_Some (requestBody endpoint) ->
        lookupKey "body" args = Some body -> body <> VUndefined ->
        FullMode.extractBody endpoint args = Some body)
  /\ (is_Some (requestBody endpoint) ->
      lookupKey "body" args = None \/ lookupKey "body" args = Some VUndefined ->
      FullMode.extractBody endpoint args = collected (residual endpoint args))
  /\ SearchMode.residualBody endpoint args
     = collected (filter (fun kv : string * Value => kv.1 <> "endpoint_id")
                         (residual endpoint args))
  /\ (forall body : Value,
        lookupKey "body" args = Some body ->
        "body" ∉ FullMode.names (pathParams endpoint) ->
        "body" ∉ FullMode.names (queryParams endpoint) ->
        exists bodyArgs : Obj,
          SearchMode.residualBody endpoint args = Some (VObj bodyArgs)
          /\ ("body", body) ∈ bodyArgs)
  /\ (forall (buildUrl : string -> ParsedEndpoint -> Obj -> string)
             (fetch fetch' : Request -> Completion Response) (baseUrl : string),
        (forall request : Request,
            req_body request = JsonBody <$> SearchMode.residualBody endpoint args ->
            fetch request = fetch' request) ->
        SearchMode.executeApiCall buildUrl fetch baseUrl endpoint args
        = SearchMode.executeApiCall buildUrl fetch' baseUrl endpoint args).
Proof.
  assert (Hres : SearchMode.residualBody endpoint args
                 = collected (filter (fun kv : string * Value => kv.1 <> "endpoint_id")
                                     (residual endpoint args))).
  { unfold SearchMode.residualBody. now rewrite residual_search. }
  split; [intros body; apply extractBody_declared|].
  split.
  { intros body [rb Hrb] Hb Hdef. unfold FullMode.extractBody.
    rewrite Hrb, Hb. now destruct body. }
  split.
  { intros [rb Hrb] Hb. unfold FullMode.extractBody, collected, residual.
    rewrite Hrb. now destruct Hb as [-> | ->]. }
  split; [exact Hres|].
  split.
  { intros body Hb Hp Hq. apply lookupKey_elem in Hb.
    assert (Hin : ("body", body)
                  ∈ filter (fun kv : string * Value => kv.1 <> "endpoint_id")
                           (residual endpoint args)).
    { apply list_elem_of_filter. split; [simpl; discriminate|].
      apply list_elem_of_filter. split; [split; assumption | exact Hb]. }
    rewrite Hres. unfold collected.
    destruct (filter _ (residual endpoint args)) as [|kv l] eqn:E;
      [inversion Hin | eauto]. }
  intros buildUrl fetch fetch' baseUrl Hsame.
  unfold SearchMode.executeApiCall. now rewrite Hsame.
Qed.

Lemma body_policies_witness :
  FullMode.extractBody Petstore.addPet [("body", VObj [("name", VStr "rex")])]
  = Some (VObj [("name", VStr "rex")])
  /\ FullMode.extractBody Petstore.addPet [("name", VStr "rex")]
     = Some (VObj [("name", VStr "rex")])
  /\ exists bodyArgs : Obj,
       SearchMode.residualBody Petstore.addPet
         [("endpoint_id", VStr "add_pet"); ("body", VObj [("name", VStr "rex")])]
       = Some (VObj bodyArgs)
       /\ ("body", VObj [("name", VStr "rex")]) ∈ bodyArgs.
Proof.
  split; [|split].
  - apply (body_policies Petstore.addPet [("body", VObj [("name", VStr "rex")])]);
      [by eexists | reflexivity | discriminate].
  - apply (proj1 (proj2 (proj2 (body_policies Petstore.addPet
                                  [("name", VStr "rex")]))));
      [by eexists | by left].
  - apply (body_policies Petstore.addPet
             [("endpoint_id", VStr "add_pet"); ("body", VObj [("name", VStr "rex")])]);
      [reflexivity | vm_compute; inversion 1 | vm_compute; inversion 1].
Defined.

(** The claim C4 fails in Search mode.  The echoing backend returns the body
    it was sent: for getPetById, which declares no request body, the stray
    argument [verbose] is sent as a body; for addPet, the [body] argument is
    sent wrapped in an object, not as it is. *)
Lemma body_policies_counterexample :
  requestBody Petstore.getPetById = None
  /\ SearchMode.executeApiCall Petstore.plainUrl Petstore.echo "https://x/v2"
       Petstore.getPetById
       [("endpoint_id", VStr "get_pet_by_id"); ("petId", VNum 1);
        ("verbose", VBool true)]
     = Returned (VObj [("verbose", VBool true)])
  /\ SearchMode.executeApiCall Petstore.plainUrl Petstore.echo "https://x/v2"
       Petstore.addPet
       [("endpoint_id", VStr "add_pet"); ("body", VObj [("name", VStr "rex")])]
     = Returned (VObj [("body", VObj [("name", VStr "rex")])])
  /\ SearchMode.executeApiCall Petstore.plainUrl Petstore.echo "https://x/v2"
       Petstore.addPet
       [("endpoint_id", VStr "add_pet"); ("body", VObj [("name", VStr "rex")])]
     <> Returned (VObj [("name", VStr "rex")]).
Proof. repeat split; vm_compute; congruence. Qed.

End ServerFacts.

(** ** Summary statistics and grouping *)

Module SummaryFacts.

Import SpecWords Generator.

Lemma sumValues_insert_fresh (counts : gmap string nat) (k : string) (n : nat) :
  counts !! k = None -> sumValues (<[k := n]> counts) = n + sumValues counts.
Proof.
  intros H. unfold sumValues. rewrite map_fold_insert_L; [done | | done].
  intros. lia.
Qed.

Lemma sumValues_bump (counts : gmap string nat) (k : string) :
  sumValues (bump counts k) = S (sumValues counts).
Proof.
  unfold bump. destruct (counts !! k) as [n|] eqn:E; simpl.
  - rewrite <- insert_delete_eq.
    rewrite sumValues_insert_fresh by apply lookup_delete_eq.
    unfold sumValues.
    rewrite (map_fold_delete_L _ _ k n counts); [lia | | done].
    intros. lia.
  - now rewrite sumValues_insert_fresh.
Qed.

Lemma sumValues_foldl_bump (ks : list string) (counts : gmap string nat) :
  sumValues (foldl bump counts ks) = sumValues counts + length ks.
Proof.
  revert counts. induction ks as [|k ks IH]; intros counts; simpl; [lia|].
  rewrite IH, sumValues_bump. lia.
Qed.

Lemma lookup_bump (counts : gmap string nat) (k k' : string) :
  bump counts k !! k'
  = if decide (k = k') then Some (default 0 (counts !! k) + 1) else counts !! k'.
Proof. unfold bump. apply lookup_insert. Qed.

Lemma lookup_foldl_bump_None (ks : list string) (counts : gmap string nat)
    (k : string) :
  foldl bump counts ks !! k = None <-> counts !! k = None /\ k ∉ ks.
Proof.
  revert counts. induction ks as [|k0 ks IH]; intros counts; simpl.
  - split; [intros H; split; [done | apply not_elem_of_nil] | tauto].
  - rewrite IH, lookup_bump, not_elem_of_cons.
    destruct (decide (k0 = k)) as [->|Hne].
    + split; [intros [? _]; discriminate | intros [_ [? _]]; congruence].
    + split; [intros [? ?]; repeat split; try done; congruence
             | intros (? & _ & ?); done].
Qed.

Lemma lookup_foldl_bump_count (ks : list string) (counts : gmap string nat)
    (k : string) :
  default 0 (foldl bump counts ks !! k)
  = default 0 (counts !! k) + occurrences k ks.
Proof.
  unfold occurrences.
  revert counts. induction ks as [|k0 ks IH]; intros counts; simpl; [lia|].
  rewrite IH, lookup_bump. destruct (decide (k0 = k)) as [->|Hne].
  - rewrite filter_cons_True by done. simpl. lia.
  - rewrite filter_cons_False by done. lia.
Qed.

Lemma byTag_foldl (tools : list GeneratedTool) :
  byTag (getToolsSummary tools) = foldl tally ∅ (tagOccurrences tools).
Proof.
  unfold getToolsSummary. cbn [byTag].
  generalize (∅ : gmap string nat) as byMethod0.
  generalize (∅ : gmap string Value) as byTag0.
  induction tools as [|tool tools IH]; intros byTag0 byMethod0; [reflexivity|].
  unfold tagOccurrences. rewrite bind_cons, foldl_app.
  cbn [foldl fst snd]. apply IH.
Qed.

(** For a tag that no object inherits, [byTag] behaves as a map of counts. *)
Lemma inheritedText_None (tag : string) :
  tag ∉ inheritedNames -> inheritedText tag = None /\ tag <> "__proto__".
Proof.
  intros H. unfold inheritedNames in H. rewrite !not_elem_of_cons in H.
  destruct H as (H1 & H2 & H3 & H4 & H5 & H6 & H7 & H8 & H9 & H10 & H11 & H12 & _).
  split; [|exact H8]. unfold inheritedText.
  destruct (String.eqb_spec tag "__proto__"); [contradiction|].
  destruct (String.eqb_spec tag "constructor"); [contradiction|].
  rewrite bool_decide_false; [reflexivity|].
  rewrite !elem_of_cons. intros H.
  repeat (destruct H as [H|H]; [contradiction|]). inversion H.
Qed.

Lemma tally_bump (counts : gmap string nat) (tag : string) :
  tag ∉ inheritedNames ->
  tally (countValue <$> counts) tag = countValue <$> bump counts tag.
Proof.
  intros H. destruct (inheritedText_None tag H) as [Htext Hproto].
  unfold tally, bump. rewrite lookup_fmap, Htext.
  destruct (String.eqb_spec tag "__proto__") as [?|_]; [contradiction|].
  rewrite fmap_insert. f_equal.
  destruct (counts !! tag) as [m|]; [|reflexivity].
  cbn [fmap option_fmap option_map default countValue truthy].
  unfold countValue, id.
  destruct (Z.eqb_spec (Z.of_nat m) 0) as [E|_]; cbn [negb]; f_equal; lia.
Qed.

Lemma foldl_tally_bump (tags : list string) (counts : gmap string nat) :
  (forall tag, tag ∈ tags -> tag ∉ inheritedNames) ->
  foldl tally (countValue <$> counts) tags = countValue <$> foldl bump counts tags.
Proof.
  revert counts. induction tags as [|tag tags IH]; intros counts H; [reflexivity|].
  cbn [foldl]. rewrite tally_bump by (apply H; left).
  apply IH. intros t Ht. apply H. now right.
Qed.

Lemma sumCounts_countValue (counts : gmap string nat) :
  sumCounts (countValue <$> counts) = Z.of_nat (sumValues counts).
Proof.
  induction counts as [|k n counts Hk IH] using map_ind.
  - rewrite fmap_empty. unfold sumCounts, sumValues. now rewrite !map_fold_empty.
  - rewrite fmap_insert, sumValues_insert_fresh by done.
    unfold sumCounts in *. rewrite map_fold_insert_L.
    + cbn [countValue]. rewrite IH. lia.
    + intros ? ? [] [] ? ? ? ?; lia.
    + now rewrite lookup_fmap, Hk.
Qed.

Lemma byTag_counts (tools : list GeneratedTool) :
  (forall tag, tag ∈ tagOccurrences tools -> tag ∉ inheritedNames) ->
  byTag (getToolsSummary tools) = countValue <$> foldl bump ∅ (tagOccurrences tools).
Proof.
  intros H. rewrite byTag_foldl, <- foldl_tally_bump by exact H.
  now rewrite fmap_empty.
Qed.

Lemma tagOccurrences_bound (tools : list GeneratedTool) :
  (forall tool, tool ∈ tools -> length (tags (endpoint tool)) <= 1) ->
  length (tagOccurrences tools) <= length tools
  /\ ((exists tool, tool ∈ tools /\ tags (endpoint tool) = []) ->
      length (tagOccurrences tools) < length tools).
Proof.
  unfold tagOccurrences.
  induction tools as [|t ts IH]; intros H.
  - split; [simpl; lia|]. intros (tool & Hin & _). inversion Hin.
  - rewrite bind_cons, length_app. cbn [length].
    assert (Ht : length (tags (endpoint t)) <= 1) by (apply H; left).
    destruct IH as [IH1 IH2]; [intros tool Hin; apply H; now right|].
    split; [lia|].
    intros (tool & Hin & Hnone).
    apply elem_of_cons in Hin as [->|Hin].
    + rewrite Hnone. simpl. lia.
    + assert (length (ts ≫= (fun tool => tags (endpoint tool))) < length ts)
        by (apply IH2; eauto).
      lia.
Qed.

(** *** Grouping *)

Lemma pushTo_keeps (groups : gmap string (list GeneratedTool))
    (tag tag' : string) (tool tool' : GeneratedTool) :
  inGroup groups tag tool -> inGroup (pushTo tool' groups tag') tag tool.
Proof.
  intros (group & Hg & Hin). unfold inGroup, pushTo.
  destruct (decide (tag' = tag)) as [->|Hne].
  - rewrite lookup_insert_eq, Hg. simpl. eexists. split; [done|].
    apply elem_of_app. now left.
  - rewrite lookup_insert_ne by done. eauto.
Qed.

Lemma pushTo_adds (groups : gmap string (list GeneratedTool)) (tag : string)
    (tool : GeneratedTool) :
  inGroup (pushTo tool groups tag) tag tool.
Proof.
  unfold inGroup, pushTo. rewrite lookup_insert_eq. eexists. split; [done|].
  apply elem_of_app. right. left.
Qed.

Lemma foldl_pushTo_keeps (ts : list string)
    (groups : gmap string (list GeneratedTool))
    (tag : string) (tool tool' : GeneratedTool) :
  inGroup groups tag tool -> inGroup (foldl (pushTo tool') groups ts) tag tool.
Proof.
  revert groups. induction ts as [|t ts IH]; intros groups H; [done|].
  simpl. apply IH. now apply pushTo_keeps.
Qed.

Lemma groupToolsByTag_default_from (tools : list GeneratedTool)
    (groups : gmap string (list GeneratedTool)) (tool : GeneratedTool) :
  inGroup groups "default" tool \/ (tool ∈ tools /\ tags (endpoint tool) = []) ->
  inGroup
    (foldl (fun groups tool =>
              let tags := match tags (endpoint tool) with
                          | [] => ["default"]
                          | ts => ts
                          end in
              foldl (pushTo tool) groups tags)
           groups tools)
    "default" tool.
Proof.
  revert groups. induction tools as [|t ts IH]; intros groups H.
  - destruct H as [H|[H _]]; [done | inversion H].
  - cbn [foldl]. apply IH.
    destruct H as [H|[Hin Hnone]].
    + left. now apply foldl_pushTo_keeps.
    + apply elem_of_cons in Hin as [->|Hin]; [|right; done].
      left. rewrite Hnone. simpl. apply pushTo_adds.
Qed.

(** What the code does with a tag that every object inherits is not a
    count: the tag [constructor] gets a string, the tag [__proto__] no entry
    at all. *)
Example byTag_inherited :
  byTag (getToolsSummary [Petstore.tagged ["constructor"; "__proto__"]])
  = {[ "constructor" := VStr "function Object() { [native code] }1" ]}.
Proof. vm_compute. reflexivity. Qed.

(** C10, as the code has it.  For tags that are not names of members of
    [Object.prototype], [byTag] counts each tag once per (tool, tag) pair and
    has an entry exactly for the tags that occur: a tool without tags adds
    nothing, and no "default" key is made up.  The sum of the counts is the
    number of tag occurrences; it is less than [total] when some tool is
    untagged and no tool has more than one tag.  [groupToolsByTag], in
    contrast, puts every untagged tool in the group "default". *)
Theorem getToolsSummary_byTag (tools : list GeneratedTool) :
  (forall tag : string, tag ∈ tagOccurrences tools -> tag ∉ inheritedNames) ->
  (forall k : string,
      k ∈ tagOccurrences tools ->
      byTag (getToolsSummary tools) !! k
      = Some (VNum (Z.of_nat (occurrences k (tagOccurrences tools)))))
  /\ (forall k : string,
        byTag (getToolsSummary tools) !! k = None <-> k ∉ tagOccurrences tools)
  /\ sumCounts (byTag (getToolsSummary tools))
     = Z.of_nat (length (tagOccurrences tools))
  /\ total (getToolsSummary tools) = length tools
  /\ ((forall tool, tool ∈ tools -> length (tags (endpoint tool)) <= 1) ->
      (exists tool, tool ∈ tools /\ tags (endpoint tool) = []) ->
      (sumCounts (byTag (getToolsSummary tools))
       < Z.of_nat (total (getToolsSummary tools)))%Z)
  /\ (forall tool : GeneratedTool,
        tool ∈ tools -> tags (endpoint tool) = [] ->
        exists group : list GeneratedTool,
          groupToolsByTag tools !! "default" = Some group /\ tool ∈ group).
Proof.
  intros Hsafe.
  assert (Hsum : sumCounts (byTag (getToolsSummary tools))
                 = Z.of_nat (length (tagOccurrences tools))).
  { rewrite (byTag_counts tools Hsafe), sumCounts_countValue, sumValues_foldl_bump.
    unfold sumValues. now rewrite map_fold_empty. }
  assert (Hnone : forall k : string,
             byTag (getToolsSummary tools) !! k = None <-> k ∉ tagOccurrences tools).
  { intros k. rewrite (byTag_counts tools Hsafe), lookup_fmap, fmap_None.
    rewrite lookup_foldl_bump_None, lookup_empty. tauto. }
  split.
  { intros k Hk.
    pose proof (lookup_foldl_bump_count (tagOccurrences tools) ∅ k) as Hcount.
    rewrite lookup_empty in Hcount. cbn [default] in Hcount.
    rewrite (byTag_counts tools Hsafe), lookup_fmap.
    destruct (foldl bump ∅ (tagOccurrences tools) !! k) as [n|] eqn:E.
    - simpl in Hcount. subst n. reflexivity.
    - exfalso. apply lookup_foldl_bump_None in E as [_ E]. contradiction. }
  split; [exact Hnone|].
  split; [exact Hsum|]. split; [reflexivity|]. split.
  { intros Hone Huntagged. rewrite Hsum. cbn [total].
    apply inj_lt. now apply tagOccurrences_bound. }
  intros tool Hin Huntagged.
  apply (groupToolsByTag_default_from tools ∅ tool). right. done.
Qed.

Lemma getToolsSummary_byTag_witness :
  (sumCounts (byTag (getToolsSummary [Petstore.tagged ["pet"]; Petstore.tagged []]))
   < Z.of_nat (total (getToolsSummary [Petstore.tagged ["pet"]; Petstore.tagged []])))%Z
  /\ byTag (getToolsSummary [Petstore.tagged ["pet"]; Petstore.tagged []]) !! "pet"
     = Some (VNum 1)
  /\ exists group : list GeneratedTool,
       groupToolsByTag [Petstore.tagged ["pet"]; Petstore.tagged []] !! "default"
       = Some group
       /\ Petstore.tagged [] ∈ group.
Proof.
  destruct (getToolsSummary_byTag [Petstore.tagged ["pet"]; Petstore.tagged []])
    as (Hcount & _ & _ & _ & Hless & Hdefault).
  - intros tag Htag. apply list_elem_of_singleton in Htag as ->.
    intros H. apply list_elem_of_In in H. simpl in H.
    repeat (destruct H as [H|H]; [discriminate H|]). exact H.
  - split; [|split].
    + apply Hless.
      * intros tool Hin. apply elem_of_cons in Hin as [->|Hin]; [simpl; lia|].
        apply list_elem_of_singleton in Hin as ->. simpl. lia.
      * exists (Petstore.tagged []). split; [right; left | reflexivity].
    + apply (Hcount "pet"). left.
    + apply Hdefault; [right; left | reflexivity].
Defined.

(** The claim C10 fails for a tool with three tags next to an untagged one:
    the counts sum to 3, which is not less than the total 2. *)
Lemma getToolsSummary_byTag_counterexample :
  (exists tool, tool ∈ Petstore.unevenTools /\ tags (endpoint tool) = [])
  /\ sumCounts (byTag (getToolsSummary Petstore.unevenTools)) = 3%Z
  /\ total (getToolsSummary Petstore.unevenTools) = 2
  /\ ~ (sumCounts (byTag (getToolsSummary Petstore.unevenTools))
        < Z.of_nat (total (getToolsSummary Petstore.unevenTools)))%Z.
Proof.
  split; [exists (Petstore.tagged []); split; [right; left | reflexivity]|].
  assert (H : sumCounts (byTag (getToolsSummary Petstore.unevenTools)) = 3%Z)
    by (vm_compute; reflexivity).
  split; [exact H|]. split; [reflexivity|].
  rewrite H. cbn [total getToolsSummary Petstore.unevenTools length]. lia.
Qed.

End SummaryFacts.

(** ** Further properties of the parser *)

Module ParserExtras.

Import SpecWords ExtraWords Parser.


Lemma isStr_true (v : Value) (literal : string) :
  isStr v literal = true <-> v = VStr literal.
Proof.
  destruct v; cbn [isStr]; try (split; [discriminate | congruence]).
  rewrite String.eqb_eq. split; congruence.
Qed.

(** X16. The JSON type of a schema is never the string "integer" and never
    falsy: a declared "integer" becomes "number", any other truthy declared
    type is kept as it is, also when it is not a string (the array of types
    of OpenAPI 3.1, which may contain "integer"), and a schema whose type is
    missing or falsy has type "string". *)
Theorem getJsonType_normalised (schema : option Obj) :
  getJsonType schema <> VStr "integer"
  /\ truthy (getJsonType schema) = true
  /\ (forall o : Obj,
        schema = Some o -> getProp "type" o = VStr "integer" ->
        getJsonType schema = VStr "number")
  /\ (forall o : Obj,
        schema = Some o -> truthy (getProp "type" o) = true ->
        getProp "type" o <> VStr "integer" ->
        getJsonType schema = getProp "type" o)
  /\ (forall o : Obj,
        schema = Some o -> truthy (getProp "type" o) = false ->
        getJsonType schema = VStr "string").
Proof.
  assert (Hkept : forall o : Obj,
             truthy (getProp "type" o) = true ->
             getProp "type" o <> VStr "integer" ->
             getJsonType (Some o) = getProp "type" o).
  { intros o Ht Hne. unfold getJsonType. rewrite Ht.
    destruct (isStr (getProp "type" o) "integer") eqn:E; [|reflexivity].
    apply isStr_true in E. contradiction. }
  assert (Hcases : forall o : Obj,
             getJsonType (Some o) = VStr "number"
             \/ getJsonType (Some o) = VStr "string"
             \/ (getJsonType (Some o) = getProp "type" o
                 /\ truthy (getProp "type" o) = true
                 /\ getProp "type" o <> VStr "integer")).
  { intros o. unfold getJsonType.
    destruct (isStr (getProp "type" o) "integer") eqn:E; [now left|].
    destruct (truthy (getProp "type" o)) eqn:Ht; [|now right; left].
    right. right. repeat split. intros Heq. apply isStr_true in Heq. congruence. }
  split; [|split; [|split; [|split]]].
  - destruct schema as [o|]; [|discriminate].
    destruct (Hcases o) as [->|[->|(-> & _ & Hne)]]; [discriminate.. | exact Hne].
  - destruct schema as [o|]; [|reflexivity].
    destruct (Hcases o) as [->|[->|(-> & Ht & _)]]; [reflexivity.. | exact Ht].
  - intros o -> Ht. unfold getJsonType. now rewrite Ht.
  - intros o -> Ht Hne. now apply Hkept.
  - intros o -> Ht. unfold getJsonType. rewrite Ht.
    destruct (isStr (getProp "type" o) "integer") eqn:E; [|reflexivity].
    apply isStr_true in E. rewrite E in Ht. discriminate Ht.
Qed.

Lemma getJsonType_normalised_witness :
  getJsonType (Some [("type", VStr "integer"); ("format", VStr "int64")]) = VStr "number"
  /\ getJsonType (Some [("type", VArr [VStr "integer"; VStr "null"])])
     = VArr [VStr "integer"; VStr "null"]
  /\ getJsonType (Some [("format", VStr "int64")]) = VStr "string".
Proof.
  split; [|split].
  - exact (proj1 (proj2 (proj2 (getJsonType_normalised
             (Some [("type", VStr "integer"); ("format", VStr "int64")]))))
             _ eq_refl eq_refl).
  - apply (proj1 (proj2 (proj2 (proj2 (getJsonType_normalised
             (Some [("type", VArr [VStr "integer"; VStr "null"])])))))
             _ eq_refl eq_refl).
    discriminate.
  - exact (proj2 (proj2 (proj2 (proj2 (getJsonType_normalised
             (Some [("format", VStr "int64")]))))) _ eq_refl eq_refl).
Defined.

(** *** Parameters by location *)




(** What [parseOperation] returns, field by field. *)
Lemma parseOperation_fields (method path : string) (operation : OperationObject)
    (pathLevel : list ParameterObject) (isV3 : bool) (e : ParsedEndpoint) :
  parseOperation method path operation pathLevel isV3 = Returned e ->
  Types.method e = method
  /\ Types.path e = path
  /\ operationId e
     = (if present (op_operationId operation)
        then default "" (op_operationId operation)
        else generateOperationId method path)
  /\ pathParams e
     = parseParameter
         <$> located "path" (pathLevel ++ default [] (op_parameters operation))
  /\ queryParams e
     = parseParameter
         <$> located "query" (pathLevel ++ default [] (op_parameters operation))
  /\ headerParams e
     = parseParameter
         <$> located "header" (pathLevel ++ default [] (op_parameters operation))
  /\ (if isV3 then parseRequestBody (op_requestBody operation)
      else Returned (parseBodyParam
                       (pathLevel ++ default [] (op_parameters operation))))
     = Returned (requestBody e).
Proof.
  unfold parseOperation. intros H.
  destruct (if isV3 then parseRequestBody (op_requestBody operation) else _)
    as [body|err]; [|discriminate H].
  injection H as <-. cbn [Types.method Types.path operationId pathParams queryParams
                           headerParams requestBody].
  repeat split. unfold present.
  now destruct (op_operationId operation) as [[|c id]|].
Qed.

(** [parseOperation] throws only for an OpenAPI 3 request body without
    [content]. *)
Lemma parseOperation_returns (method path : string) (operation : OperationObject)
    (pathLevel : list ParameterObject) (isV3 : bool) :
  (exists e : ParsedEndpoint,
      parseOperation method path operation pathLevel isV3 = Returned e)
  <-> (isV3 = true ->
       forall body : RequestBodyObject,
         op_requestBody operation = Some body -> is_Some (rbo_content body)).
Proof.
  unfold parseOperation. destruct isV3.
  - unfold parseRequestBody. destruct (op_requestBody operation) as [body|].
    + destruct (rbo_content body) as [content|] eqn:Hcontent.
      * split; [intros _ _ b [= <-]; rewrite Hcontent; eauto | eauto].
      * split; [intros [e He]; discriminate He|].
        intros H. destruct (H eq_refl body eq_refl) as [c Hc].
        rewrite Hcontent in Hc. discriminate Hc.
    + split; [intros _ _ b Hb; discriminate Hb | eauto].
  - split; [intros _ H; discriminate H | eauto].
Qed.



(** *** Request bodies *)

Lemma find_none_iff {A : Type} (f : A -> bool) (l : list A) :
  find f l = None <-> forall x, x ∈ l -> f x = false.
Proof.
  induction l as [|a l IH]; simpl.
  - split; [intros _ x Hx; inversion Hx | reflexivity].
  - destruct (f a) eqn:E.
    + split; [discriminate|]. intros H. rewrite (H a) in E by left. discriminate.
    + rewrite IH. split.
      * intros H x Hx. apply elem_of_cons in Hx as [->|Hx]; [exact E | now apply H].
      * intros H x Hx. apply H. now right.
Qed.



(** *** The endpoints of a document *)



Section Operations.

Variables (path : string) (item : PathItemObject)
          (pathLevel : list ParameterObject) (isV3 : bool).

(** The body of the loop over the methods. *)
Let step (m : string * option OperationObject) : Completion (list ParsedEndpoint) :=
  match m with
  | (method, Some operation) =>
      match parseOperation method path operation pathLevel isV3 with
      | Throws e => Throws e
      | Returned endpoint => Returned [endpoint]
      end
  | (_, None) => Returned []
  end.



End Operations.



End ParserExtras.
(** ** Further properties of the generator *)

Module GeneratorExtras.

Import SpecWords ExtraWords Generator JsFacts.

Lemma nonletter_first (c : ascii) :
  isLetter c = false ->
  isLower (toLowerChar (if isWordChar c then c else "_"%char)) = false.
Proof. by_cases_on_char c. Qed.

Lemma toolName_first (c : ascii) (rest : string) :
  exists r : string,
    toLowerCase (sanitize (camelToSnake (String c rest)))
    = String (toLowerChar (if isWordChar c then c else "_"%char)) r
    /\ sall isNameChar r = true.
Proof.
  rewrite (proj1 (camelToSnake_boundaries _)).
  destruct (snakeBoundaries_head c rest) as [r ->].
  exists (toLowerCase (sanitize r)). split; [reflexivity | apply lowered_sanitized].
Qed.

(** The generated tool name matches [^[a-z][a-z0-9_]*$] exactly when the
    operationId starts with an ASCII letter. *)
Lemma generateToolName_pattern_iff (e : ParsedEndpoint) :
  matchesToolNamePattern (generateToolName e) = startsWithLetter (operationId e).
Proof.
  unfold generateToolName, startsWithLetter.
  destruct (operationId e) as [|c rest]; [reflexivity|].
  destruct (toolName_first c rest) as (r & -> & Hr).
  cbn [matchesToolNamePattern]. rewrite Hr, andb_true_r.
  destruct (isLetter c) eqn:Hc.
  - now rewrite (letter_isWordChar c Hc), (toLowerChar_letter c Hc).
  - now apply nonletter_first.
Qed.

Lemma methods_start_with_letter (method : string) :
  method ∈ httpMethods -> startsWithLetter method = true.
Proof.
  unfold httpMethods. intros H.
  repeat (apply elem_of_cons in H as [->|H]; [reflexivity|]).
  inversion H.
Qed.

Lemma generateOperationId_first (method path : string) :
  startsWithLetter method = true ->
  startsWithLetter (Parser.generateOperationId method path) = true.
Proof.
  destruct method as [|m ms]; [discriminate|]. intros Hm.
  unfold Parser.generateOperationId.
  set (rest := toUpperCase _ +:+ _).
  cbn [toLowerCase smap startsWithLetter] in *.
  change (isLetter (toLowerChar m) = true).
  unfold isLetter. now rewrite (toLowerChar_letter m Hm).
Qed.

(** X21. An operation that declares no operationId (or an empty one) is
    named from its method and path; for each of the seven methods the
    synthesised identifier starts with a letter, so the tool name of the
    parsed endpoint always matches [^[a-z][a-z0-9_]*$].  The operation is
    parsed unless the OpenAPI 3 rules meet a request body without
    [content]. *)
Theorem synthesised_tool_name (method path : string)
    (operation : Parser.OperationObject)
    (pathLevel : list Parser.ParameterObject) (isV3 : bool) :
  method ∈ httpMethods ->
  present (Parser.op_operationId operation) = false ->
  ((isV3 = true ->
    forall body : Parser.RequestBodyObject,
      Parser.op_requestBody operation = Some body ->
      is_Some (Parser.rbo_content body)) ->
   exists e : ParsedEndpoint,
     Parser.parseOperation method path operation pathLevel isV3 = Returned e)
  /\ (forall e : ParsedEndpoint,
        Parser.parseOperation method path operation pathLevel isV3 = Returned e ->
        operationId e = Parser.generateOperationId method path
        /\ matchesToolNamePattern (generateToolName e) = true).
Proof.
  intros Hm Hid. split; [apply ParserExtras.parseOperation_returns|].
  intros e He.
  assert (Heq : operationId e = Parser.generateOperationId method path).
  { destruct (ParserExtras.parseOperation_fields _ _ _ _ _ _ He)
      as (_ & _ & -> & _).
    now rewrite Hid. }
  split; [exact Heq|].
  rewrite generateToolName_pattern_iff, Heq.
  now apply generateOperationId_first, methods_start_with_letter.
Qed.

Lemma synthesised_tool_name_witness :
  exists e : ParsedEndpoint,
    Parser.parseOperation "get" "/pets/{petId}" Petstore.anonymousOperation [] false
    = Returned e
    /\ operationId e = "getPetsPetid"
    /\ matchesToolNamePattern (generateToolName e) = true.
Proof.
  destruct (synthesised_tool_name "get" "/pets/{petId}" Petstore.anonymousOperation
              [] false) as [Hreturns Hname]; [left | reflexivity |].
  destruct Hreturns as [e He]; [discriminate|].
  exists e. split; [exact He|]. exact (Hname e He).
Defined.

(** *** Names are stable *)

Lemma nameChar_facts (c : ascii) :
  isNameChar c = true ->
  isUpper c = false /\ isWordChar c = true /\ toLowerChar c = c.
Proof.
  destruct c as [[] [] [] [] [] [] [] []]; vm_compute; intros H;
    repeat split; congruence.
Qed.

Lemma snakeBoundaries_id (s : string) :
  sall isNameChar s = true -> snakeBoundaries s = s.
Proof.
  induction s as [|a t IH]; [reflexivity|].
  cbn [sall]. intros H. apply andb_true_iff in H as [Ha Ht].
  cbn [snakeBoundaries]. rewrite (IH Ht).
  destruct t as [|b t']; [reflexivity|].
  cbn [sall] in Ht. apply andb_true_iff in Ht as [Hb _].
  destruct (nameChar_facts b Hb) as (-> & _ & _).
  now rewrite andb_false_r.
Qed.

Lemma sanitize_lower_id (s : string) :
  sall isNameChar s = true -> toLowerCase (sanitize s) = s.
Proof.
  induction s as [|a t IH]; [reflexivity|].
  cbn [sall]. intros H. apply andb_true_iff in H as [Ha Ht].
  cbn [sanitize toLowerCase smap].
  destruct (nameChar_facts a Ha) as (_ & -> & ->).
  f_equal. now apply IH.
Qed.

(** X22. For any operationId at all, the tool name consists of lower-case
    letters, digits and underscores only, and naming is stable: an
    operationId that already is a generated name is its own tool name. *)
Theorem generateToolName_stable (e : ParsedEndpoint) :
  sall isNameChar (generateToolName e) = true
  /\ (forall e' : ParsedEndpoint,
        operationId e' = generateToolName e ->
        generateToolName e' = generateToolName e).
Proof.
  assert (Hchars : sall isNameChar (generateToolName e) = true)
    by apply lowered_sanitized.
  split; [exact Hchars|].
  intros e' He'. unfold generateToolName at 1. rewrite He'.
  rewrite (proj1 (camelToSnake_boundaries _)).
  rewrite (snakeBoundaries_id _ Hchars).
  now apply sanitize_lower_id.
Qed.

Lemma generateToolName_stable_witness :
  generateToolName (endpoint (Petstore.tagged [])) = "list_all"
  /\ generateToolName
       {| operationId := "list_all"; method := "get"; path := "/all";
          summary := None; description := None;
          pathParams := []; queryParams := []; headerParams := [];
          requestBody := None; responses := []; tags := []; security := [] |}
     = "list_all".
Proof.
  split; [reflexivity|].
  apply (proj2 (generateToolName_stable (endpoint (Petstore.tagged [])))).
  reflexivity.
Defined.

(** *** Descriptions *)

Lemma prefix_app (s t : string) : String.prefix s (s +:+ t) = true.
Proof.
  induction s as [|a s IH]; simpl; [now destruct t|].
  destruct (ascii_dec a a); [exact IH | contradiction].
Qed.

Lemma prefix_refl (s : string) : String.prefix s s = true.
Proof.
  induction s as [|a s IH]; simpl; [reflexivity|].
  destruct (ascii_dec a a); [exact IH | contradiction].
Qed.

Lemma join_head (sep x : string) (l : list string) :
  String.prefix x (join sep (x :: l)) = true
  /\ (x <> "" -> join sep (x :: l) <> "").
Proof.
  destruct l as [|y l]; cbn [join].
  - split; [apply prefix_refl | auto].
  - split; [apply prefix_app|]. destruct x; [congruence | discriminate].
Qed.

(** X23. A tool description is never empty.  It starts with the summary when
    there is one, and otherwise with the upper-case method, a space and the
    path; a description that repeats the summary is not added again. *)
Theorem generateToolDescription_shape (e : ParsedEndpoint) :
  generateToolDescription e <> ""
  /\ (forall s : string,
        summary e = Some s -> s <> "" ->
        String.prefix s (generateToolDescription e) = true)
  /\ (present (summary e) = false ->
      String.prefix (toUpperCase (method e) +:+ " " +:+ path e)
                    (generateToolDescription e) = true)
  /\ (forall d : string,
        summary e = Some d -> description e = Some d -> d <> "" ->
        tags e = [] -> generateToolDescription e = d).
Proof.
  assert (Hline : toUpperCase (method e) +:+ " " +:+ path e <> "").
  { destruct (toUpperCase (method e)); discriminate. }
  unfold generateToolDescription, present.
  split; [|split; [|split]].
  - destruct (summary e) as [[|c s]|]; cbn [nonEmpty app]; now apply join_head.
  - intros s -> Hs. destruct s as [|c s]; [congruence|].
    cbn [nonEmpty app]. apply join_head.
  - destruct (summary e) as [[|c s]|]; cbn [nonEmpty app];
      try discriminate; intros _; apply join_head.
  - intros d -> -> Hd ->. destruct d as [|c d]; [congruence|].
    cbn [nonEmpty]. rewrite bool_decide_true by reflexivity. reflexivity.
Qed.

Lemma generateToolDescription_shape_witness :
  String.prefix "Find pet by ID" (generateToolDescription Petstore.getPetById) = true
  /\ String.prefix "GET /all" (generateToolDescription (endpoint (Petstore.tagged [])))
     = true.
Proof.
  split.
  - apply (generateToolDescription_shape Petstore.getPetById); [reflexivity | discriminate].
  - apply (generateToolDescription_shape (endpoint (Petstore.tagged []))). reflexivity.
Defined.

(** *** The keys of the input schema *)

Lemma foldl_addParam_keys (params : list ParameterInfo) (acc : Acc) (n : string) :
  is_Some ((foldl addParam acc params).1 !! n)
  <-> is_Some (acc.1 !! n) \/ (n <> "__proto__" /\ n ∈ FullMode.names params).
Proof.
  unfold FullMode.names.
  revert acc. induction params as [|p ps IH]; intros acc.
  - simpl. split; [auto | intros [H|[_ H]]; [done | inversion H]].
  - cbn [foldl]. rewrite IH, fmap_cons, elem_of_cons.
    unfold addParam. cbn [fst]. rewrite GeneratorFacts.lookup_assign.
    destruct (String.eqb_spec (param_name p) "__proto__") as [Hp|Hp].
    + split; [tauto|]. intros [?|[Hn [->|?]]]; [tauto | congruence | tauto].
    + destruct (decide (param_name p = n)) as [<-|Hne].
      * split; [intros _; right; tauto | intros _; left; eauto].
      * split; [tauto | intros [?|[? [?|?]]]; [tauto | congruence | tauto]].
Qed.

Lemma foldl_addBodyProp_keys (r : Value) (b : bool) (props : Obj)
    (acc acc' : Acc) (n : string) :
  foldl (addBodyProp r b) (Returned acc) props = Returned acc' ->
  is_Some (acc'.1 !! n)
  <-> is_Some (acc.1 !! n) \/ (n <> "__proto__" /\ n ∈ props.*1).
Proof.
  revert acc. induction props as [|[k v] ps IH]; intros acc H.
  - injection H as <-. simpl. split; [auto | intros [?|[_ Hn]]; [done | inversion Hn]].
  - cbn [foldl addBodyProp fst snd] in H.
    destruct (requiredIncludes r k) as [listed|err].
    + rewrite (IH _ H), fmap_cons, elem_of_cons. cbn [fst].
      rewrite GeneratorFacts.lookup_assign.
      destruct (String.eqb_spec k "__proto__") as [Hk|Hk].
      * split; [tauto|]. intros [?|[Hn [->|?]]]; [tauto | congruence | tauto].
      * destruct (decide (k = n)) as [<-|Hne].
        -- split; [intros _; right; tauto | intros _; left; eauto].
        -- split; [tauto | intros [?|[? [?|?]]]; [tauto | congruence | tauto]].
    + rewrite GeneratorFacts.foldl_addBodyProp_throws in H. discriminate H.
Qed.

(** The loop over the body properties returns when every property can be
    looked up in [required]. *)
Lemma foldl_addBodyProp_returns (r : Value) (b : bool) (props : Obj) (acc : Acc) :
  listable r = true ->
  exists acc' : Acc, foldl (addBodyProp r b) (Returned acc) props = Returned acc'.
Proof.
  intros Hr.
  assert (Hinc : forall p, exists listed, requiredIncludes r p = Returned listed).
  { intros p. unfold requiredIncludes. unfold listable in Hr.
    destruct (truthy r); [|eauto]. now destruct r; eauto. }
  revert acc. induction props as [|[k v] ps IH]; intros acc; [now exists acc|].
  cbn [foldl addBodyProp fst snd]. destruct (Hinc k) as [listed ->]. apply IH.
Qed.

(** X24. The schema of an endpoint is generated unless its flattened body
    schema has a [required] that is neither falsy, an array nor a string.
    The properties of a generated schema are exactly the path parameters,
    the query parameters and what the request body contributes (its
    flattened properties, or the single property [body]), except for the name
    [__proto__], which never becomes a property.  A header parameter never
    becomes a property, unless its name is one of those. *)
Theorem generateInputSchema_keys (e : ParsedEndpoint) :
  ((forall body : RequestBodyInfo,
       requestBody e = Some body -> flattens body = true ->
       listable (getProp "required" (schema body)) = true) ->
   exists s : InputSchema, generateInputSchema e = Returned s)
  /\ (forall s : InputSchema,
        generateInputSchema e = Returned s ->
        (forall n : string,
            is_Some (properties s !! n)
            <-> n <> "__proto__"
                /\ n ∈ FullMode.names (pathParams e) ++ FullMode.names (queryParams e)
                       ++ bodyKeys e)
        /\ (forall h : ParameterInfo,
              h ∈ headerParams e ->
              param_name h ∉ FullMode.names (pathParams e)
                              ++ FullMode.names (queryParams e) ++ bodyKeys e ->
              properties s !! param_name h = None)).
Proof.
  split.
  - intros Hr. unfold generateInputSchema.
    destruct (requestBody e) as [body|]; [|eauto].
    unfold addBody. specialize (Hr body eq_refl). unfold flattens in Hr.
    destruct (isStr _ _ && truthy _); [|eauto].
    destruct (foldl_addBodyProp_returns
                (getProp "required" (schema body)) (body_required body)
                (asRecord (getProp "properties" (schema body)))
                (foldl addParam (foldl addParam (∅, []) (pathParams e))
                   (queryParams e)) (Hr eq_refl)) as [acc ->].
    eauto.
  - intros s Hs.
    assert (Hkeys : forall n : string,
               is_Some (properties s !! n)
               <-> n <> "__proto__"
                   /\ n ∈ FullMode.names (pathParams e)
                          ++ FullMode.names (queryParams e) ++ bodyKeys e).
    { intros n. unfold generateInputSchema in Hs. unfold bodyKeys.
      rewrite !elem_of_app.
      destruct (requestBody e) as [body|].
      - unfold addBody, flattens in *. destruct (isStr _ _ && truthy _).
        + destruct (foldl _ _ _) as [acc|err] eqn:E; [|discriminate Hs].
          injection Hs as <-. cbn [properties].
          rewrite (foldl_addBodyProp_keys _ _ _ _ _ n E), !foldl_addParam_keys.
          cbn [fst]. rewrite lookup_empty. split; [|tauto].
          intros [[[H|?]|?]|?]; [destruct H; discriminate | tauto..].
        + injection Hs as <-. cbn [properties fst].
          rewrite list_elem_of_singleton.
          destruct (decide ("body" = n)) as [<-|Hne].
          * rewrite lookup_insert_eq. split; [intros _; split; [discriminate | auto] | eauto].
          * rewrite lookup_insert_ne by done. rewrite !foldl_addParam_keys.
            cbn [fst]. rewrite lookup_empty. split.
            -- intros [[H|?]|?]; [destruct H; discriminate | tauto..].
            -- intros [? [?|[?|?]]]; [tauto | tauto | congruence].
      - injection Hs as <-. cbn [properties].
        rewrite !foldl_addParam_keys. cbn [fst]. rewrite lookup_empty. split.
        + intros [[H|?]|?]; [destruct H; discriminate | tauto..].
        + intros [? [?|[?|H]]]; [tauto | tauto | inversion H]. }
    split; [exact Hkeys|].
    intros h _ Hn. apply eq_None_not_Some. rewrite Hkeys. tauto.
Qed.

Lemma generateInputSchema_keys_witness :
  exists s : InputSchema,
    generateInputSchema ExtraSamples.deletePet = Returned s
    /\ is_Some (properties s !! "petId")
    /\ properties s !! "api_key" = None.
Proof.
  destruct (generateInputSchema_keys ExtraSamples.deletePet) as [Hreturns Hkeys].
  destruct Hreturns as [s Hs]; [intros body Hbody; discriminate Hbody|].
  exists s. split; [exact Hs|].
  destruct (Hkeys s Hs) as [Hiff Hheader]. split.
  - apply Hiff. split; [discriminate | left].
  - apply (Hheader ExtraSamples.apiKey).
    + left.
    + apply (bool_decide_unpack _). vm_compute. exact I.
Defined.

(** *** A request body that is not flattened *)

Lemma lookupKey_setKey {A : Type} (k k' : string) (v : A) (o : list (string * A)) :
  lookupKey k' (setKey k v o)
  = if String.eqb k k' then Some v else lookupKey k' o.
Proof.
  induction o as [|[k0 v0] o IH]; cbn [setKey lookupKey].
  - reflexivity.
  - destruct (String.eqb_spec k0 k) as [->|Hne]; cbn [lookupKey].
    + now destruct (String.eqb k k').
    + rewrite IH. destruct (String.eqb_spec k0 k') as [->|Hne'];
        [|reflexivity].
      destruct (String.eqb_spec k k'); [congruence | reflexivity].
Qed.

(** X25. When the request body is not an object schema with a properties
    map, the schema is generated and gets the single property [body]: the
    body schema with all its entries, except that its description is replaced
    by the description of the body, or by "Request body".  [body] is required
    exactly when the request body is, and nothing of the schema is
    flattened. *)
Theorem generateInputSchema_body_property (e : ParsedEndpoint)
    (body : RequestBodyInfo) :
  requestBody e = Some body ->
  flattens body = false ->
  exists s : InputSchema,
    generateInputSchema e = Returned s
    /\ properties s !! "body"
       = Some (VObj (setKey "description"
                       (VStr (Parser.orElse (body_description body) "Request body"))
                       (schema body)))
    /\ getProp "description"
         (setKey "description"
            (VStr (Parser.orElse (body_description body) "Request body"))
            (schema body))
       = VStr (Parser.orElse (body_description body) "Request body")
    /\ (forall k : string,
          k <> "description" ->
          getProp k (setKey "description"
                       (VStr (Parser.orElse (body_description body) "Request body"))
                       (schema body))
          = getProp k (schema body))
    /\ required s
       = requiredNames (pathParams e) ++ requiredNames (queryParams e)
         ++ (if body_required body then ["body"] else []).
Proof.
  intros Hbody Hflat. unfold flattens in Hflat.
  unfold generateInputSchema. rewrite Hbody. unfold addBody. rewrite Hflat.
  eexists. split; [reflexivity|]. cbn [properties required fst snd].
  split; [|split; [|split]].
  - apply lookup_insert_eq.
  - unfold getProp. rewrite lookupKey_setKey. reflexivity.
  - intros k Hk. unfold getProp. rewrite lookupKey_setKey.
    destruct (String.eqb_spec "description" k); [congruence | reflexivity].
  - rewrite !GeneratorFacts.foldl_addParam_required. cbn [snd].
    rewrite app_nil_l.
    destruct (body_required body); [now rewrite <- app_assoc | now rewrite app_nil_r].
Qed.

Lemma generateInputSchema_body_property_witness :
  exists s : InputSchema,
    generateInputSchema ExtraSamples.createUsersWithList = Returned s
    /\ properties s !! "body"
       = Some (VObj [ ("type", VStr "array");
                      ("description", VStr "Request body");
                      ("items", VObj [("type", VStr "object")]) ])
    /\ required s = ["body"].
Proof.
  destruct (generateInputSchema_body_property ExtraSamples.createUsersWithList
              ExtraSamples.userList eq_refl eq_refl) as (s & Hs & Hp & _ & _ & Hr).
  exists s. split; [exact Hs|]. split; [exact Hp | exact Hr].
Defined.

End GeneratorExtras.
(** ** Further properties of the summary and the grouping *)

Module SummaryExtras.

Import SpecWords ExtraWords Generator SummaryFacts.

Lemma byMethod_foldl (tools : list GeneratedTool) :
  byMethod (getToolsSummary tools) = foldl bump ∅ (methodKey <$> tools).
Proof.
  unfold getToolsSummary. cbn [byMethod].
  generalize (∅ : gmap string Value) as byTag0.
  generalize (∅ : gmap string nat) as byMethod0.
  induction tools as [|tool tools IH]; intros byMethod0 byTag0; [reflexivity|].
  rewrite fmap_cons. cbn [foldl fst snd]. apply IH.
Qed.

Lemma occurrences_fmap (k : string) (tools : list GeneratedTool) :
  occurrences k (methodKey <$> tools)
  = length (filter (fun tool => methodKey tool = k) tools).
Proof.
  unfold occurrences. induction tools as [|t ts IH]; [reflexivity|].
  rewrite fmap_cons, !filter_cons.
  destruct (decide (methodKey t = k)); simpl; now rewrite IH.
Qed.

(** X26. The counts of [byMethod] add up to [total], the number of tools; the
    count under an upper-case method is the number of tools with that
    method, and a method that no tool has gets no entry. *)
Theorem getToolsSummary_byMethod (tools : list GeneratedTool) :
  sumValues (byMethod (getToolsSummary tools)) = total (getToolsSummary tools)
  /\ total (getToolsSummary tools) = length tools
  /\ (forall k : string,
        default 0 (byMethod (getToolsSummary tools) !! k)
        = length (filter (fun tool => methodKey tool = k) tools))
  /\ (forall k : string,
        byMethod (getToolsSummary tools) !! k = None
        <-> forall tool, tool ∈ tools -> methodKey tool <> k).
Proof.
  split; [|split; [reflexivity|split]].
  - rewrite byMethod_foldl, sumValues_foldl_bump. cbn [total].
    unfold sumValues. now rewrite map_fold_empty, length_fmap.
  - intros k. rewrite byMethod_foldl, lookup_foldl_bump_count, lookup_empty.
    apply occurrences_fmap.
  - intros k. rewrite byMethod_foldl, lookup_foldl_bump_None, lookup_empty.
    rewrite list_elem_of_fmap. split.
    + intros [_ H] tool Hin Hk. apply H. exists tool. split; [now rewrite Hk | exact Hin].
    + intros H. split; [reflexivity|]. intros (tool & -> & Hin). now apply (H tool).
Qed.

(** *** The groups *)

Lemma occurrences_cons (k t : string) (ts : list string) :
  occurrences k (t :: ts)
  = if decide (t = k) then S (occurrences k ts) else occurrences k ts.
Proof. unfold occurrences. rewrite filter_cons. now destruct (decide (t = k)). Qed.

Lemma occurrences_zero (k : string) (ts : list string) :
  occurrences k ts = 0 <-> k ∉ ts.
Proof.
  induction ts as [|t ts IH]; [split; [intros _; apply not_elem_of_nil | reflexivity]|].
  rewrite occurrences_cons, not_elem_of_cons.
  destruct (decide (t = k)) as [->|Hne]; [split; [lia | tauto]|].
  rewrite IH. split; [intros ?; split; [congruence | done] | tauto].
Qed.

Lemma foldl_pushTo_lookup (ts : list string) (tool : GeneratedTool)
    (groups : gmap string (list GeneratedTool)) (tag : string) :
  default [] (foldl (pushTo tool) groups ts !! tag)
  = default [] (groups !! tag) ++ replicate (occurrences tag ts) tool
  /\ (foldl (pushTo tool) groups ts !! tag = None
      <-> groups !! tag = None /\ tag ∉ ts).
Proof.
  revert groups. induction ts as [|t ts IH]; intros groups.
  - simpl. rewrite app_nil_r. split; [reflexivity|].
    split; [intros H; split; [exact H | apply not_elem_of_nil] | tauto].
  - cbn [foldl]. destruct (IH (pushTo tool groups t)) as [IH1 IH2].
    rewrite IH1, IH2, occurrences_cons, not_elem_of_cons. unfold pushTo.
    destruct (decide (t = tag)) as [->|Hne].
    + rewrite lookup_insert_eq. simpl. rewrite <- app_assoc. split; [reflexivity|].
      split; [intros [? _]; discriminate | intros [_ [? _]]; congruence].
    + rewrite lookup_insert_ne by done. split; [reflexivity|].
      split; [intros [? ?]; repeat split; try done; congruence | tauto].
Qed.

Lemma groups_from (tools : list GeneratedTool)
    (groups : gmap string (list GeneratedTool)) (tag : string) :
  default []
    (foldl (fun groups tool =>
              let tags := match tags (endpoint tool) with
                          | [] => ["default"]
                          | ts => ts
                          end in
              foldl (pushTo tool) groups tags)
           groups tools !! tag)
  = default [] (groups !! tag) ++ membersOf tag tools
  /\ (foldl (fun groups tool =>
               let tags := match tags (endpoint tool) with
                           | [] => ["default"]
                           | ts => ts
                           end in
               foldl (pushTo tool) groups tags)
            groups tools !! tag = None
      <-> groups !! tag = None /\ membersOf tag tools = []).
Proof.
  unfold membersOf.
  revert groups. induction tools as [|tool tools IH]; intros groups.
  - simpl. rewrite app_nil_r. tauto.
  - cbn [foldl]. rewrite bind_cons.
    fold (groupTags tool).
    destruct (IH (foldl (pushTo tool) groups (groupTags tool))) as [IH1 IH2].
    destruct (foldl_pushTo_lookup (groupTags tool) tool groups tag) as [P1 P2].
    rewrite IH1, IH2, P1, P2, <- app_assoc. split; [reflexivity|].
    rewrite <- occurrences_zero.
    split.
    + intros [[? Hz] Hn]. rewrite Hz. simpl. tauto.
    + intros [? Hn]. apply app_eq_nil in Hn as [Hr Hn].
      repeat split; try done.
      destruct (occurrences tag (groupTags tool)); [reflexivity | discriminate].
Qed.

(** X27. The group of a tag holds exactly the tools that carry the tag (the tag
    "default" standing for the tools without tags), in the order of the tool
    list; a tag that no tool carries has no group, so no group is empty. *)
Theorem groupToolsByTag_groups (tools : list GeneratedTool) (tag : string) :
  default [] (groupToolsByTag tools !! tag) = membersOf tag tools
  /\ (groupToolsByTag tools !! tag = None <-> membersOf tag tools = [])
  /\ (forall tool : GeneratedTool,
        tool ∈ membersOf tag tools <-> tool ∈ tools /\ tag ∈ groupTags tool).
Proof.
  destruct (groups_from tools ∅ tag) as [H1 H2].
  rewrite lookup_empty in H1, H2. split; [exact H1|]. split.
  - unfold groupToolsByTag. rewrite H2. tauto.
  - intros tool. unfold membersOf. rewrite list_elem_of_bind. split.
    + intros (t & Hin & Ht). apply elem_of_replicate in Hin as [-> Hn].
      split; [exact Ht|].
      destruct (decide (tag ∈ groupTags t)) as [?|Hnot]; [done|].
      apply occurrences_zero in Hnot. contradiction.
    + intros [Hin Htag]. exists tool. split; [|exact Hin].
      apply elem_of_replicate. split; [reflexivity|].
      intros Hz. apply occurrences_zero in Hz. contradiction.
Qed.

End SummaryExtras.
(** ** Further properties of the search *)

Module SearchExtras.

Import SpecWords ExtraWords SearchMode SearchFacts JsFacts.

(** *** Blank words *)

Lemma splitWs_cons (c : ascii) (t : string) :
  splitWs (String c t)
  = if isSpace c then
      match t with
      | String c' _ => if isSpace c' then splitWs t else "" :: splitWs t
      | EmptyString => "" :: splitWs t
      end
    else match splitWs t with
         | w :: ws => String c w :: ws
         | [] => [String c ""]
         end.
Proof. reflexivity. Qed.

Lemma splitWs_leading (t : string) (c : ascii) :
  isSpace c = true -> exists ws, splitWs (String c t) = "" :: ws.
Proof.
  revert c. induction t as [|c' t' IH]; intros c Hc; rewrite splitWs_cons, Hc.
  - eauto.
  - destruct (isSpace c') eqn:Hc'; [now apply IH | eauto].
Qed.

Lemma splitWs_trailing (s : string) (c : ascii) :
  isSpace c = true ->
  exists w ws, splitWs (s +:+ String c "") = w :: ws ++ [""].
Proof.
  intros Hc. induction s as [|a s (w & ws & IH)].
  - exists "", []. change ("" +:+ String c "") with (String c "").
    now rewrite splitWs_cons, Hc.
  - change (String a s +:+ String c "") with (String a (s +:+ String c "")).
    rewrite splitWs_cons, IH.
    assert (Hnext : exists c' t', s +:+ String c "" = String c' t')
      by (destruct s; simpl; eauto).
    destruct Hnext as (c' & t' & ->).
    destruct (isSpace a).
    + destruct (isSpace c'); [eauto|].
      exists "", (w :: ws). reflexivity.
    + eauto.
Qed.

Lemma toLowerChar_space (c : ascii) : isSpace (toLowerChar c) = isSpace c.
Proof. by_cases_on_char c. Qed.

Lemma toLowerCase_app (s t : string) :
  toLowerCase (s +:+ t) = toLowerCase s +:+ toLowerCase t.
Proof.
  unfold toLowerCase.
  induction s as [|a s IH]; simpl; [reflexivity | now rewrite IH].
Qed.

Lemma blank_word (query : string) :
  blankEdged query -> "" ∈ splitWs (toLowerCase query).
Proof.
  intros [->|[(c & t & -> & Hc)|(s & c & -> & Hc)]].
  - left.
  - change (toLowerCase (String c t)) with (String (toLowerChar c) (toLowerCase t)).
    destruct (splitWs_leading (toLowerCase t) (toLowerChar c)) as [ws ->];
      [now rewrite toLowerChar_space | left].
  - rewrite toLowerCase_app.
    change (toLowerCase (String c "")) with (String (toLowerChar c) "").
    destruct (splitWs_trailing (toLowerCase s) (toLowerChar c)) as (w & ws & ->);
      [now rewrite toLowerChar_space|].
    right. apply elem_of_app. right. left.
Qed.

Lemma includes_blank (s : string) : includes s "" = true.
Proof. destruct s; reflexivity. Qed.

Lemma fieldScore_blank (queryLower field : string) :
  "" ∈ splitWs queryLower -> (5 <= fieldScore queryLower field)%Z.
Proof.
  intros H. unfold fieldScore.
  assert (Hin : "" ∈ filter (fun word => includes field word = true)
                           (splitWs queryLower)).
  { apply list_elem_of_filter. split; [apply includes_blank | exact H]. }
  destruct (filter _ (splitWs queryLower)) as [|w ws]; [inversion Hin|].
  cbn [length]. destruct (includes field queryLower); lia.
Qed.

Lemma sum_fieldScore_blank (queryLower : string) (fields : list string) :
  "" ∈ splitWs queryLower ->
  (5 * Z.of_nat (length fields)
   <= foldr Z.add 0 (fieldScore queryLower <$> fields))%Z.
Proof.
  intros H. induction fields as [|f fs IH]; [simpl; lia|].
  rewrite fmap_cons. cbn [foldr length].
  pose proof (fieldScore_blank queryLower f H). lia.
Qed.

(** X28. A query that is empty, or that starts or ends with white space, has
    the empty string among its words, and every field contains the empty
    string: every tool then scores at least 25, no candidate is dropped, and
    the search returns the filtered tools up to the limit, which is the limit
    given when that is positive and 10 when none is given. *)
Theorem searchEndpoints_blank_query (tools : list GeneratedTool) (query : string)
    (options : option SearchOptions) :
  blankEdged query ->
  (forall tool : GeneratedTool, (25 <= scoreTool (toLowerCase query) tool)%Z)
  /\ matching tools query options = candidates tools query options
  /\ ((0 <= effectiveLimit options)%Z ->
      length (searchEndpoints tools query options)
      = min (Z.to_nat (effectiveLimit options))
            (length (methodFilter options (tagFilter options tools))))
  /\ (options ≫= opt_limit = None ->
      length (searchEndpoints tools query options)
      = min 10 (length (methodFilter options (tagFilter options tools))))
  /\ (forall n : Z,
        options ≫= opt_limit = Some n -> (0 < n)%Z ->
        length (searchEndpoints tools query options)
        = min (Z.to_nat n) (length (methodFilter options (tagFilter options tools)))).
Proof.
  intros Hq. apply blank_word in Hq.
  assert (Hscore : forall tool : GeneratedTool,
             (25 <= scoreTool (toLowerCase query) tool)%Z).
  { intros tool. rewrite scoreTool_specScore. unfold specScore.
    pose proof (sum_fieldScore_blank (toLowerCase query) (specFields tool) Hq) as H.
    unfold specFields in *. cbn [length] in H. lia. }
  assert (Hall : matching tools query options = candidates tools query options).
  { unfold matching, candidates.
    induction (methodFilter options (tagFilter options tools)) as [|t ts IH];
      [reflexivity|].
    rewrite fmap_cons, filter_cons_True; [now rewrite IH|].
    cbn [snd]. pose proof (Hscore t). lia. }
  assert (Hlength : (0 <= effectiveLimit options)%Z ->
             length (searchEndpoints tools query options)
             = min (Z.to_nat (effectiveLimit options))
                   (length (methodFilter options (tagFilter options tools)))).
  { intros Hlimit. rewrite searchEndpoints_unfold, length_fmap.
    rewrite slice0_nonneg by exact Hlimit.
    rewrite length_take, (Permutation_length (sortByScore_perm _)), Hall.
    unfold candidates. now rewrite length_fmap. }
  split; [exact Hscore|]. split; [exact Hall|]. split; [exact Hlength|]. split.
  - intros Hnone. rewrite Hlength; unfold effectiveLimit; rewrite Hnone;
      [reflexivity | lia].
  - intros n Hn Hpos.
    assert (Heff : effectiveLimit options = n).
    { unfold effectiveLimit. rewrite Hn. destruct (Z.eqb_spec n 0); [lia | reflexivity]. }
    rewrite Hlength; rewrite Heff; [reflexivity | lia].
Qed.

Lemma searchEndpoints_blank_query_witness :
  tool_name <$> searchEndpoints Petstore.tools "" None
  = ["get_pet_by_id"; "get_store_inventory"]
  /\ length (searchEndpoints Petstore.tools "zebra " None) = 2
  /\ length (searchEndpoints Petstore.tools "zebra "
               (withLimit None None (Some 1%Z))) = 1.
Proof.
  split; [vm_compute; reflexivity|].
  destruct (searchEndpoints_blank_query Petstore.tools "zebra " None)
    as (_ & _ & H & _).
  { right. right. exists "zebra", " "%char. split; reflexivity. }
  destruct (searchEndpoints_blank_query Petstore.tools "zebra "
              (withLimit None None (Some 1%Z))) as (_ & _ & _ & _ & H1).
  { right. right. exists "zebra", " "%char. split; reflexivity. }
  split.
  - rewrite H; [reflexivity | vm_compute; discriminate].
  - rewrite (H1 1%Z eq_refl eq_refl). reflexivity.
Defined.

(** *** What a search returns *)

Lemma methodFilter_submseteq (options : option SearchOptions)
    (l : list GeneratedTool) :
  methodFilter options l ⊆+ l.
Proof.
  unfold methodFilter. destruct (options ≫= opt_methods) as [[|m ms]|]; try done.
  apply sublist_submseteq, sublist_filter.
Qed.

Lemma tagFilter_submseteq (options : option SearchOptions)
    (l : list GeneratedTool) :
  tagFilter options l ⊆+ l.
Proof.
  unfold tagFilter. destruct (options ≫= opt_tags) as [[|t ts]|]; try done.
  apply sublist_submseteq, sublist_filter.
Qed.

Lemma candidates_tools (tools : list GeneratedTool) (query : string)
    (options : option SearchOptions) :
  (candidates tools query options).*1
  = methodFilter options (tagFilter options tools).
Proof.
  unfold candidates.
  induction (methodFilter options (tagFilter options tools)) as [|t ts IH];
    [reflexivity|].
  rewrite !fmap_cons. cbn [fst]. now rewrite IH.
Qed.

Lemma slice0_submseteq {A : Type} (l : list A) (limit : Z) : slice0 l limit ⊆+ l.
Proof. unfold slice0. destruct (limit <? 0)%Z; apply submseteq_take. Qed.

(** X29. A search returns tools of the given list only, none more often
    than the list has it, and each with a positive score.  With a limit
    [n > 0] the number of results is the smaller of [n] and the number of
    matches; with no limit, or the limit 0, it is the smaller of 10 and the
    number of matches.  A negative limit [-k] does not mean "none": the
    result is the ranking of the matches without its last [k] entries. *)
Theorem searchEndpoints_sound (tools : list GeneratedTool) (query : string)
    (options : option SearchOptions) :
  searchEndpoints tools query options ⊆+ tools
  /\ (forall tool : GeneratedTool,
        tool ∈ searchEndpoints tools query options ->
        (0 < scoreTool (toLowerCase query) tool)%Z)
  /\ (forall n : Z,
        options ≫= opt_limit = Some n -> (0 < n)%Z ->
        length (searchEndpoints tools query options)
        = min (Z.to_nat n) (length (matching tools query options)))
  /\ (options ≫= opt_limit = None \/ options ≫= opt_limit = Some 0%Z ->
      length (searchEndpoints tools query options)
      = min 10 (length (matching tools query options)))
  /\ (forall n : Z,
        options ≫= opt_limit = Some n -> (n < 0)%Z ->
        exists ranked : list (GeneratedTool * Z),
          Permutation ranked (matching tools query options)
          /\ descending ranked
          /\ sameOrderOnTies ranked (matching tools query options)
          /\ searchEndpoints tools query options
             = (take (length ranked - Z.to_nat (- n)) ranked).*1).
Proof.
  split; [|split; [|split; [|split]]].
  - rewrite searchEndpoints_unfold.
    transitivity ((sortByScore (matching tools query options)).*1);
      [apply fmap_submseteq, slice0_submseteq|].
    rewrite (sortByScore_perm (matching tools query options)).
    transitivity ((candidates tools query options).*1);
      [apply fmap_submseteq, sublist_submseteq, sublist_filter|].
    rewrite candidates_tools.
    transitivity (tagFilter options tools);
      [apply methodFilter_submseteq | apply tagFilter_submseteq].
  - intros tool H. rewrite searchEndpoints_unfold in H.
    apply list_elem_of_fmap in H as ([t z] & -> & H).
    apply slice0_subseteq in H. rewrite sortByScore_perm in H.
    apply list_elem_of_filter in H as [Hpos H].
    unfold candidates in H.
    apply list_elem_of_fmap in H as (t' & [= -> ->] & _). exact Hpos.
  - intros n Hn Hpos. rewrite searchEndpoints_unfold, length_fmap.
    unfold effectiveLimit. rewrite Hn. destruct (Z.eqb_spec n 0) as [?|_]; [lia|].
    rewrite slice0_nonneg by lia.
    now rewrite length_take, (Permutation_length (sortByScore_perm _)).
  - intros Hlimit. rewrite searchEndpoints_unfold, length_fmap.
    assert (Heff : effectiveLimit options = 10%Z)
      by (unfold effectiveLimit; now destruct Hlimit as [-> | ->]).
    rewrite Heff, slice0_nonneg by lia.
    now rewrite length_take, (Permutation_length (sortByScore_perm _)).
  - intros n Hn Hneg. exists (sortByScore (matching tools query options)).
    split; [apply sortByScore_perm|].
    split; [apply sortByScore_descending|].
    split; [apply sortByScore_ties|].
    rewrite searchEndpoints_unfold. unfold effectiveLimit. rewrite Hn.
    destruct (Z.eqb_spec n 0) as [?|_]; [lia|].
    unfold slice0. destruct (Z.ltb_spec n 0) as [_|?]; [|lia].
    do 2 f_equal. lia.
Qed.

Lemma searchEndpoints_sound_witness :
  length (searchEndpoints Petstore.tools "pet" (withLimit None None (Some 1%Z))) = 1
  /\ length (searchEndpoints Petstore.tools "pet" (withLimit None None (Some (-1)%Z))) = 1.
Proof.
  destruct (searchEndpoints_sound Petstore.tools "pet" (withLimit None None (Some 1%Z)))
    as (_ & _ & Hpos & _).
  destruct (searchEndpoints_sound Petstore.tools "pet" (withLimit None None (Some (-1)%Z)))
    as (_ & _ & _ & _ & Hneg).
  split.
  - rewrite (Hpos 1%Z eq_refl eq_refl). vm_compute. reflexivity.
  - destruct (Hneg (-1)%Z eq_refl eq_refl) as (ranked & Hperm & _ & _ & ->).
    rewrite length_fmap, length_take, (Permutation_length Hperm).
    vm_compute. reflexivity.
Defined.

(** *** The filters *)

Lemma searchEndpoints_filtered (tools : list GeneratedTool) (query : string)
    (options : option SearchOptions) (tool : GeneratedTool) :
  tool ∈ searchEndpoints tools query options ->
  tool ∈ methodFilter options (tagFilter options tools).
Proof.
  intros H. rewrite <- (candidates_tools tools query options).
  rewrite searchEndpoints_unfold in H.
  apply list_elem_of_fmap in H as (a & -> & H).
  apply slice0_subseteq in H. rewrite sortByScore_perm in H.
  apply list_elem_of_filter in H as [_ H].
  now apply list_elem_of_fmap_2.
Qed.

(** X30. Both filters compare in lower case.  Under a non-empty tag filter every
    returned tool carries a tag that equals a wanted tag up to case, so a
    tool without tags is never returned; under a non-empty method filter the
    method of every returned tool equals a wanted method up to case.  An
    empty array filters nothing. *)
Theorem searchEndpoints_filters (tools : list GeneratedTool) (query : string)
    (wantedTags wantedMethods : option (list string)) (limit : option Z) :
  (forall tool : GeneratedTool,
      tool ∈ searchEndpoints tools query (withLimit wantedTags wantedMethods limit) ->
      (forall (t : string) (ts : list string),
          wantedTags = Some (t :: ts) ->
          exists tag wanted : string,
            tag ∈ tags (endpoint tool) /\ wanted ∈ t :: ts
            /\ toLowerCase tag = toLowerCase wanted)
      /\ (forall (m : string) (ms : list string),
            wantedMethods = Some (m :: ms) ->
            exists wanted : string,
              wanted ∈ m :: ms
              /\ toLowerCase (method (endpoint tool)) = toLowerCase wanted))
  /\ searchEndpoints tools query (withLimit (Some []) (Some []) limit)
     = searchEndpoints tools query (withLimit None None limit).
Proof.
  split; [|reflexivity].
  intros tool H. apply searchEndpoints_filtered in H.
  unfold methodFilter, tagFilter, withLimit in H.
  cbn [mbind option_bind opt_methods opt_tags] in H.
  split.
  - intros t ts ->.
    assert (Htag : tool ∈ filter
                     (fun tool => Exists (fun tag => toLowerCase tag
                                                     ∈ toLowerCase <$> (t :: ts))
                                         (tags (endpoint tool)))
                     tools).
    { destruct wantedMethods as [[|m ms]|]; [exact H | | exact H].
      now apply list_elem_of_filter in H as [_ H]. }
    apply list_elem_of_filter in Htag as [Htag _].
    apply Exists_exists in Htag as (tag & Hin & Hlow).
    apply list_elem_of_fmap in Hlow as (wanted & Heq & Hw).
    exists tag, wanted. auto.
  - intros m ms ->.
    apply list_elem_of_filter in H as [H _].
    apply list_elem_of_fmap in H as (wanted & Heq & Hw).
    exists wanted. auto.
Qed.

Lemma searchEndpoints_filters_witness :
  exists tag wanted : string,
    tag ∈ tags Petstore.getStoreInventory /\ wanted ∈ ["STORE"]
    /\ toLowerCase tag = toLowerCase wanted.
Proof.
  assert (H : Petstore.toolOf Petstore.getStoreInventory
              ∈ searchEndpoints Petstore.tools "get"
                  (withLimit (Some ["STORE"]) (Some ["GET"]) None))
    by (vm_compute; left).
  exact (proj1 (proj1 (searchEndpoints_filters Petstore.tools "get"
                         (Some ["STORE"]) (Some ["GET"]) None) _ H)
           "STORE" [] eq_refl).
Defined.

End SearchExtras.
(** ** Further properties of the token acquisition *)

Module AuthExtras.

Import SpecWords ExtraWords Auth.

(** X14. [getOAuth2Token] sends at most one request, and only for type
    oauth2 with all three fields non-empty: a POST to the token URL with the
    one header [Content-Type: application/x-www-form-urlencoded] and the form
    fields [grant_type=client_credentials], [client_id] and [client_secret],
    in this order.  Two fetches that agree on that request give the same
    result, and for any other type the result is null with nothing logged,
    even when the three fields are set. *)
Theorem getOAuth2Token_single_request (fetch fetch' : Request -> Completion Response)
    (auth : AuthConfig) :
  ((forall url id secret : string,
       auth_type auth = oauth2 ->
       tokenUrl auth = Some url -> clientId auth = Some id ->
       clientSecret auth = Some secret ->
       nonEmpty url = true -> nonEmpty id = true -> nonEmpty secret = true ->
       let request :=
         {| req_url := url;
            req_method := "POST";
            req_headers := [("Content-Type", "application/x-www-form-urlencoded")];
            req_body := Some (FormBody [ ("grant_type", "client_credentials");
                                         ("client_id", id);
                                         ("client_secret", secret) ]) |} in
       fetch request = fetch' request) ->
   getOAuth2Token fetch auth = getOAuth2Token fetch' auth)
  /\ (auth_type auth <> oauth2 -> getOAuth2Token fetch auth = (Returned VNull, [])).
Proof.
  split.
  - intros H. unfold getOAuth2Token.
    destruct (auth_type auth) eqn:Ht; try reflexivity.
    destruct (tokenUrl auth) as [url|]; [|reflexivity].
    destruct (clientId auth) as [id|]; [|reflexivity].
    destruct (clientSecret auth) as [secret|]; [|reflexivity].
    destruct (nonEmpty url) eqn:Hu; [|reflexivity].
    destruct (nonEmpty id) eqn:Hi; [|reflexivity].
    destruct (nonEmpty secret) eqn:Hs; [|reflexivity].
    cbn [andb]. unfold exchange, tokenRequest.
    now rewrite (H url id secret eq_refl eq_refl eq_refl eq_refl Hu Hi Hs).
  - intros Ht. unfold getOAuth2Token. destruct (auth_type auth); congruence.
Qed.

Lemma getOAuth2Token_single_request_witness :
  getOAuth2Token ExtraSamples.tokenServer Petstore.clientCredentials
  = (Returned (VStr "abc"), [])
  /\ getOAuth2Token ExtraSamples.tokenServer
       {| auth_type := bearer; token := Some "abc"; headerName := None;
          username := None; password := None;
          clientId := Some "specky"; clientSecret := Some "s3cret";
          tokenUrl := Some "https://auth.example/token" |}
     = (Returned VNull, []).
Proof.
  split.
  - destruct (getOAuth2Token_single_request ExtraSamples.tokenServer Petstore.granting
                Petstore.clientCredentials) as [H _].
    rewrite H; [vm_compute; reflexivity|].
    intros url id secret _ Hu Hi Hs _ _ _.
    injection Hu as <-. injection Hi as <-. injection Hs as <-.
    vm_compute. reflexivity.
  - apply (getOAuth2Token_single_request ExtraSamples.tokenServer Petstore.granting).
    discriminate.
Defined.

(** X15. A successful exchange is not checked for a token.  When the parsed
    response is an object without [access_token] the result is [undefined],
    not null, and nothing is logged; when the parsed response is [null],
    reading the field throws inside the try block and the result is null. *)
Theorem getOAuth2Token_missing_token (fetch : Request -> Completion Response)
    (auth : AuthConfig) (url id secret : string) (response : Response) :
  auth_type auth = oauth2 ->
  tokenUrl auth = Some url -> clientId auth = Some id ->
  clientSecret auth = Some secret ->
  nonEmpty url = true -> nonEmpty id = true -> nonEmpty secret = true ->
  fetch (tokenRequest url id secret) = Returned response ->
  ok response = true ->
  (forall data : Obj,
      json response = Returned (VObj data) ->
      lookupKey "access_token" data = None ->
      getOAuth2Token fetch auth = (Returned VUndefined, []))
  /\ (json response = Returned VNull ->
      exists e : Thrown, getOAuth2Token fetch auth = (Returned VNull, [e])).
Proof.
  intros Ht Hu Hi Hs Hu' Hi' Hs' Hf Hok.
  rewrite (AuthFacts.getOAuth2Token_configured fetch auth url id secret) by assumption.
  unfold exchange. rewrite Hf, Hok. cbn [negb]. split.
  - intros data -> Hnone. cbn [access_token]. unfold getProp. now rewrite Hnone.
  - intros ->. cbn [access_token]. eauto.
Qed.

Lemma getOAuth2Token_missing_token_witness :
  getOAuth2Token ExtraSamples.refusing Petstore.clientCredentials
  = (Returned VUndefined, []).
Proof.
  destruct (getOAuth2Token_missing_token ExtraSamples.refusing
              Petstore.clientCredentials "https://auth.example/token" "specky"
              "s3cret" _ eq_refl eq_refl eq_refl eq_refl eq_refl eq_refl eq_refl
              eq_refl eq_refl) as [H _].
  exact (H [("error", VStr "invalid_client")] eq_refl eq_refl).
Defined.

End AuthExtras.
(** ** Further properties of the dispatch *)

Module ServerExtras.

Import SpecWords ExtraWords Auth.

Section Servers.

Variable buildUrl : string -> ParsedEndpoint -> Obj -> string.
Variable toStr : Value -> string.
Variable stringify : Value -> string.

(** *** The status of a response *)

(** X5. Neither server looks at the status of a response: a backend that
    answers with an error status is treated like one that answers 200 with
    the same content type and body, so the handler reports its body as an
    ordinary result, not as an error. *)
Theorem response_status_ignored (fetch fetch' : Request -> Completion Response)
    (tools : list GeneratedTool) (baseUrl toolName : string)
    (arguments : option Obj) (e : ParsedEndpoint) (args : Obj) :
  (forall request : Request, sameContent (fetch request) (fetch' request)) ->
  FullMode.executeApiCall buildUrl toStr fetch baseUrl e args
  = FullMode.executeApiCall buildUrl toStr fetch' baseUrl e args
  /\ SearchMode.executeApiCall buildUrl fetch baseUrl e args
     = SearchMode.executeApiCall buildUrl fetch' baseUrl e args
  /\ FullMode.callTool buildUrl toStr stringify fetch tools baseUrl toolName arguments
     = FullMode.callTool buildUrl toStr stringify fetch' tools baseUrl toolName
         arguments.
Proof.
  intros H.
  assert (Hfull : forall e args,
             FullMode.executeApiCall buildUrl toStr fetch baseUrl e args
             = FullMode.executeApiCall buildUrl toStr fetch' baseUrl e args).
  { intros e0 args0. unfold FullMode.executeApiCall.
    match goal with |- context [fetch ?r] => specialize (H r); set (request := r) in * end.
    destruct (fetch request) as [r|err], (fetch' request) as [r'|err']; simpl in H;
      try contradiction; [|now subst].
    destruct H as (Hct & Hj & Ht). unfold FullMode.readResponse.
    now rewrite Hct, Hj, Ht. }
  split; [apply Hfull|]. split.
  - unfold SearchMode.executeApiCall.
    match goal with |- context [fetch ?r] => specialize (H r); set (request := r) in * end.
    destruct (fetch request) as [r|err], (fetch' request) as [r'|err']; simpl in H;
      try contradiction; [|now subst].
    destruct H as (Hct & Hj & Ht). now rewrite Hct, Hj, Ht.
  - unfold FullMode.callTool. destruct (find _ tools); [|reflexivity].
    now rewrite Hfull.
Qed.

(** *** What Full mode sends *)

(** X6. In Full mode a [body] argument that is falsy (null, false, 0 or the
    empty string) is extracted but not sent: the request has no body.  A
    truthy [body] argument is the body of the request. *)
Theorem falsy_body_not_sent (fetch fetch' : Request -> Completion Response)
    (baseUrl : string) (e : ParsedEndpoint) (args : Obj) (body : Value) :
  is_Some (requestBody e) ->
  lookupKey "body" args = Some body ->
  body <> VUndefined ->
  (forall request : Request,
      req_body request = (if truthy body then Some (JsonBody body) else None) ->
      fetch request = fetch' request) ->
  FullMode.extractBody e args = Some body
  /\ FullMode.executeApiCall buildUrl toStr fetch baseUrl e args
     = FullMode.executeApiCall buildUrl toStr fetch' baseUrl e args.
Proof.
  intros [rb Hrb] Hb Hdef Hsame.
  assert (Hx : FullMode.extractBody e args = Some body).
  { unfold FullMode.extractBody. rewrite Hrb, Hb. now destruct body. }
  split; [exact Hx|].
  unfold FullMode.executeApiCall. rewrite Hx. now rewrite Hsame.
Qed.

Lemma header_step_keeps (args : Obj) (h : ParameterInfo) (v : Value)
    (headers : list (string * string)) (p : ParameterInfo) :
  lookupKey (param_name h) args = Some v -> v <> VUndefined ->
  lookupKey (param_name h) headers = Some (toStr v) \/ p = h ->
  lookupKey (param_name h)
    (match lookupKey (param_name p) args with
     | Some VUndefined | None => headers
     | Some value => setKey (param_name p) (toStr value) headers
     end)
  = Some (toStr v).
Proof.
  intros Hv Hdef Hcase.
  destruct (String.eqb_spec (param_name p) (param_name h)) as [Heq|Hne].
  - rewrite Heq, Hv. destruct v; try congruence;
      (rewrite GeneratorExtras.lookupKey_setKey, String.eqb_refl; reflexivity).
  - destruct Hcase as [Hk| ->]; [|congruence].
    destruct (lookupKey (param_name p) args) as [[]|]; try exact Hk;
      (rewrite GeneratorExtras.lookupKey_setKey;
       destruct (String.eqb_spec (param_name p) (param_name h));
       [congruence | exact Hk]).
Qed.

Lemma header_fold (args : Obj) (h : ParameterInfo) (v : Value)
    (params : list ParameterInfo) (headers : list (string * string)) :
  lookupKey (param_name h) args = Some v -> v <> VUndefined ->
  lookupKey (param_name h) headers = Some (toStr v) \/ h ∈ params ->
  lookupKey (param_name h)
    (foldl (fun headers param =>
              match lookupKey (param_name param) args with
              | Some VUndefined | None => headers
              | Some value => setKey (param_name param) (toStr value) headers
              end)
           headers params)
  = Some (toStr v).
Proof.
  intros Hv Hdef. revert headers.
  induction params as [|p ps IH]; intros headers Hcase.
  - destruct Hcase as [?|Hin]; [done | inversion Hin].
  - cbn [foldl]. apply IH.
    destruct Hcase as [Hk|Hin].
    + left. apply header_step_keeps; auto.
    + apply elem_of_cons in Hin as [->|Hin]; [|now right].
      left. apply header_step_keeps; auto.
Qed.

(** X7. In Full mode every declared header parameter that has an argument is
    sent as a request header with the argument as its value, also when its
    name is Content-Type: the request that reaches the backend carries it. *)
Theorem header_parameters_sent (fetch fetch' : Request -> Completion Response)
    (baseUrl : string) (e : ParsedEndpoint) (args : Obj)
    (h : ParameterInfo) (v : Value) :
  h ∈ headerParams e ->
  lookupKey (param_name h) args = Some v ->
  v <> VUndefined ->
  (forall request : Request,
      lookupKey (param_name h) (req_headers request) = Some (toStr v) ->
      fetch request = fetch' request) ->
  FullMode.executeApiCall buildUrl toStr fetch baseUrl e args
  = FullMode.executeApiCall buildUrl toStr fetch' baseUrl e args.
Proof.
  intros Hin Hv Hdef Hsame. unfold FullMode.executeApiCall.
  rewrite Hsame; [reflexivity|].
  cbn [req_headers]. apply header_fold; auto.
Qed.

(** *** What Search mode sends *)

(** X8. In Search mode the request never has a header other than Content-Type,
    whatever the arguments are: an argument for a declared header parameter
    is not sent as a header but is collected into the body. *)
Theorem search_mode_headers (baseUrl : string) (e : ParsedEndpoint) (args : Obj) :
  (forall fetch fetch' : Request -> Completion Response,
      (forall request : Request,
          (forall kv, kv ∈ req_headers request -> kv.1 = "Content-Type") ->
          fetch request = fetch' request) ->
      SearchMode.executeApiCall buildUrl fetch baseUrl e args
      = SearchMode.executeApiCall buildUrl fetch' baseUrl e args)
  /\ (forall (h : ParameterInfo) (v : Value),
        h ∈ headerParams e ->
        lookupKey (param_name h) args = Some v ->
        param_name h ∉ FullMode.names (pathParams e) ->
        param_name h ∉ FullMode.names (queryParams e) ->
        param_name h <> "endpoint_id" ->
        exists bodyArgs : Obj,
          SearchMode.residualBody e args = Some (VObj bodyArgs)
          /\ (param_name h, v) ∈ bodyArgs).
Proof.
  clear toStr stringify. split.
  - intros fetch fetch' Hsame. unfold SearchMode.executeApiCall.
    rewrite Hsame; [reflexivity|].
    cbn [req_headers]. intros kv Hkv.
    destruct (requestBody e) as [rb|]; [destruct (nonEmpty (contentType rb))|];
      destruct (SearchMode.residualBody e args);
      try (apply list_elem_of_singleton in Hkv as ->; reflexivity);
      inversion Hkv.
  - intros h v _ Hv Hp Hq Hid. apply ServerFacts.lookupKey_elem in Hv.
    unfold SearchMode.residualBody.
    assert (Hin : (param_name h, v)
                  ∈ filter (fun kv : string * Value =>
                              (kv.1 ∉ FullMode.names (pathParams e))
                              ∧ (kv.1 ∉ FullMode.names (queryParams e))
                              ∧ kv.1 <> "endpoint_id") args).
    { apply list_elem_of_filter. split; [simpl; tauto | exact Hv]. }
    destruct (filter _ args) as [|kv l]; [inversion Hin | eauto].
Qed.

(** *** Tools of one name *)

(** X9. Dispatch takes the first tool that has the requested name: when two
    tools share a name, a call by that name always goes to the first, and
    the second cannot be called. *)
Theorem callTool_first_of_name (authenticatedFetch : Request -> Completion Response)
    (before after : list GeneratedTool) (tool : GeneratedTool)
    (baseUrl : string) (arguments : option Obj) :
  (forall t, t ∈ before -> tool_name t <> tool_name tool) ->
  FullMode.callTool buildUrl toStr stringify authenticatedFetch
    (before ++ tool :: after) baseUrl (tool_name tool) arguments
  = FullMode.callTool buildUrl toStr stringify authenticatedFetch
      [tool] baseUrl (tool_name tool) arguments.
Proof.
  intros Hbefore. unfold FullMode.callTool.
  assert (Hfind : forall l,
             find (fun t => String.eqb (tool_name t) (tool_name tool))
                  (before ++ tool :: l) = Some tool).
  { intros l. induction before as [|b bs IH]; simpl.
    - now rewrite String.eqb_refl.
    - destruct (String.eqb_spec (tool_name b) (tool_name tool)) as [Heq|_].
      + exfalso. apply (Hbefore b); [left | exact Heq].
      + apply IH. intros t Ht. apply Hbefore. now right. }
  rewrite (Hfind after). simpl. now rewrite String.eqb_refl.
Qed.

End Servers.

Lemma response_status_ignored_witness :
  FullMode.callTool Petstore.plainUrl Petstore.noText Petstore.noText
    ExtraSamples.notFound Petstore.tools "https://x/v2" "get_pet_by_id"
    (Some [("petId", VNum 7)])
  = FullMode.callTool Petstore.plainUrl Petstore.noText Petstore.noText
      ExtraSamples.found Petstore.tools "https://x/v2" "get_pet_by_id"
      (Some [("petId", VNum 7)]).
Proof.
  apply (response_status_ignored Petstore.plainUrl Petstore.noText Petstore.noText
           ExtraSamples.notFound ExtraSamples.found Petstore.tools "https://x/v2"
           "get_pet_by_id" (Some [("petId", VNum 7)]) Petstore.getPetById []).
  intros request. repeat split.
Defined.

Lemma falsy_body_not_sent_witness :
  FullMode.executeApiCall Petstore.plainUrl Petstore.noText Petstore.echo
    "https://x/v2" Petstore.addPet [("body", VBool false)]
  = Returned VNull.
Proof.
  destruct (falsy_body_not_sent Petstore.plainUrl Petstore.noText Petstore.echo
              (fun _ => Petstore.echo
                          {| req_url := ""; req_method := "";
                             req_headers := []; req_body := None |})
              "https://x/v2" Petstore.addPet [("body", VBool false)] (VBool false))
    as [_ H].
  - eexists. reflexivity.
  - reflexivity.
  - discriminate.
  - intros request Hreq. unfold Petstore.echo. cbn in Hreq. now rewrite Hreq.
  - rewrite H. reflexivity.
Defined.

Lemma header_parameters_sent_witness :
  FullMode.executeApiCall Petstore.plainUrl Url.stringOfText
    (fun request =>
       Returned {| ok := true; statusText := "OK"; contentTypeHeader := None;
                   json := Returned VNull;
                   text := Returned (default "" (lookupKey "api_key"
                                                   (req_headers request))) |})
    "https://x/v2" ExtraSamples.deletePet
    [("petId", VNum 7); ("api_key", VStr "special-key")]
  = Returned (VStr "special-key").
Proof.
  rewrite (header_parameters_sent Petstore.plainUrl Url.stringOfText _
             (fun _ => Returned {| ok := true; statusText := "OK";
                                   contentTypeHeader := None;
                                   json := Returned VNull;
                                   text := Returned "special-key" |})
             "https://x/v2" ExtraSamples.deletePet
             [("petId", VNum 7); ("api_key", VStr "special-key")]
             ExtraSamples.apiKey (VStr "special-key")).
  - reflexivity.
  - left.
  - reflexivity.
  - discriminate.
  - intros request Hreq. cbn in Hreq. cbn. now rewrite Hreq.
Defined.

Lemma search_mode_headers_witness :
  exists bodyArgs : Obj,
    SearchMode.residualBody ExtraSamples.deletePet
      [("endpoint_id", VStr "delete_pet"); ("petId", VNum 7);
       ("api_key", VStr "special-key")]
    = Some (VObj bodyArgs)
    /\ ("api_key", VStr "special-key") ∈ bodyArgs.
Proof.
  apply (proj2 (search_mode_headers Petstore.plainUrl "https://x/v2"
                  ExtraSamples.deletePet
                  [("endpoint_id", VStr "delete_pet"); ("petId", VNum 7);
                   ("api_key", VStr "special-key")])
           ExtraSamples.apiKey (VStr "special-key")).
  - left.
  - reflexivity.
  - vm_compute. inversion 1 as [|? ? ? H]. inversion H.
  - vm_compute. inversion 1.
  - discriminate.
Defined.

Lemma callTool_first_of_name_witness :
  tool_name (Petstore.toolOf ExtraSamples.getPet)
  = tool_name (Petstore.toolOf ExtraSamples.get_pet)
  /\ FullMode.callTool Petstore.plainUrl Petstore.noText Petstore.noText Petstore.echo
       [Petstore.toolOf ExtraSamples.getPet;
        Petstore.toolOf ExtraSamples.get_pet]
       "https://x" "get_pet" None
     = FullMode.callTool Petstore.plainUrl Petstore.noText Petstore.noText Petstore.echo
         [Petstore.toolOf ExtraSamples.getPet] "https://x" "get_pet" None.
Proof.
  split; [reflexivity|].
  apply (callTool_first_of_name Petstore.plainUrl Petstore.noText Petstore.noText
           Petstore.echo [] [Petstore.toolOf ExtraSamples.get_pet]
           (Petstore.toolOf ExtraSamples.getPet)).
  intros t Ht. inversion Ht.
Defined.

End ServerExtras.

(** ** The request URL *)

Module UrlExtras.

Import SpecWords ExtraWords Url JsFacts.

Lemma sall_app (p : ascii -> bool) (s t : string) :
  sall p (s +:+ t) = sall p s && sall p t.
Proof.
  induction s as [|c s IH]; simpl; [reflexivity|].
  now rewrite IH, andb_assoc.
Qed.

Lemma encoded_char_safe (c : ascii) :
  sall urlSafe (if isUnreserved c then String c "" else percentEncode c) = true.
Proof. by_cases_on_char c. Qed.

Lemma encodeURIComponent_safe (s : string) :
  sall urlSafe (encodeURIComponent s) = true.
Proof.
  induction s as [|c s IH]; cbn [encodeURIComponent]; [reflexivity|].
  now rewrite sall_app, encoded_char_safe, IH.
Qed.

Lemma urlSafe_no_dollar (c : ascii) : urlSafe c = true -> Ascii.eqb c "$" = false.
Proof. by_cases_on_char c. Qed.

Lemma getSubstitution_plain (matched before after replacement : string) :
  sall urlSafe replacement = true ->
  getSubstitution matched before after replacement = replacement.
Proof.
  induction replacement as [|c t IH]; cbn [getSubstitution sall]; [reflexivity|].
  intros H. apply andb_true_iff in H as [Hc Ht].
  rewrite (urlSafe_no_dollar c Hc). now rewrite IH.
Qed.

Lemma replaceFrom_eq (before s pattern replacement : string) :
  replaceFrom before s pattern replacement
  = if String.prefix pattern s
    then getSubstitution pattern before (skip (String.length pattern) s) replacement
         +:+ skip (String.length pattern) s
    else match s with
         | EmptyString => ""
         | String c t =>
             String c (replaceFrom (before +:+ String c "") t pattern replacement)
         end.
Proof. destruct s; reflexivity. Qed.

Lemma skip_app (s t : string) : skip (String.length s) (s +:+ t) = t.
Proof. induction s as [|c s IH]; [now destruct t | exact IH]. Qed.

Lemma app_assoc (s t u : string) : (s +:+ t) +:+ u = s +:+ (t +:+ u).
Proof.
  induction s as [|c s IH]; [reflexivity|].
  change (String c ((s +:+ t) +:+ u) = String c (s +:+ t +:+ u)). now rewrite IH.
Qed.

Lemma prefix_mismatch (a b : ascii) (s t : string) :
  a <> b -> String.prefix (String a s) (String b t) = false.
Proof. intros H. simpl. now destruct (ascii_dec a b). Qed.

Lemma replaceFrom_first (name replacement pre post before : string) :
  braceFree pre = true ->
  sall urlSafe replacement = true ->
  replaceFrom before (pre +:+ ("{" +:+ name +:+ "}") +:+ post)
    ("{" +:+ name +:+ "}") replacement
  = pre +:+ replacement +:+ post.
Proof.
  intros Hpre Hrep. revert before.
  induction pre as [|c pre IH]; intros before.
  - change ("" +:+ ("{" +:+ name +:+ "}") +:+ post)
      with (("{" +:+ name +:+ "}") +:+ post).
    change ("" +:+ replacement +:+ post) with (replacement +:+ post).
    rewrite replaceFrom_eq, GeneratorExtras.prefix_app, skip_app.
    now rewrite getSubstitution_plain.
  - unfold braceFree in Hpre. cbn [sall] in Hpre.
    apply andb_true_iff in Hpre as [Hc Hpre].
    change (String c pre +:+ ("{" +:+ name +:+ "}") +:+ post)
      with (String c (pre +:+ ("{" +:+ name +:+ "}") +:+ post)).
    change (String c pre +:+ replacement +:+ post)
      with (String c (pre +:+ replacement +:+ post)).
    rewrite replaceFrom_eq.
    change ("{" +:+ name +:+ "}") with (String "{" (name +:+ "}")) at 1.
    rewrite prefix_mismatch.
    + f_equal. apply IH. exact Hpre.
    + intros <-. discriminate Hc.
Qed.

Lemma substitute_defined (args : Obj) (url : string) (p : ParameterInfo) (s : string) :
  textOf args p s ->
  substitute args (Returned url) p
  = Returned (replace url ("{" +:+ param_name p +:+ "}") (encodeURIComponent s)).
Proof.
  intros (v & Hv & Hdef & Hs). unfold substitute. rewrite Hv.
  destruct v; [congruence | now rewrite Hs ..].
Qed.

Lemma setParam_defined (args : Obj) (query : list (string * string))
    (p : ParameterInfo) (s : string) :
  textOf args p s ->
  setParam args (Returned query) p = Returned (setKey (param_name p) s query).
Proof.
  intros (v & Hv & Hdef & Hs). unfold setParam. rewrite Hv.
  destruct v; [congruence | now rewrite Hs ..].
Qed.

Lemma foldl_agree {A B : Type} (f g : A -> B -> A) (l : list B) (a : A) :
  (forall a b, b ∈ l -> f a b = g a b) -> foldl f a l = foldl g a l.
Proof.
  revert a. induction l as [|b l IH]; intros a H; cbn [foldl]; [reflexivity|].
  rewrite (H a b) by left. apply IH. intros a' b' Hb'. apply H. now right.
Qed.

(** X1. The URL depends on the arguments of the declared path and query
    parameters only: arguments under any other name, header parameters and
    body fields among them, never reach the URL. *)
Theorem buildUrl_declared_only (baseUrl : string) (e : ParsedEndpoint)
    (args args' : Obj) :
  (forall p, p ∈ pathParams e ++ queryParams e ->
             lookupKey (param_name p) args = lookupKey (param_name p) args') ->
  buildUrl baseUrl e args = buildUrl baseUrl e args'.
Proof.
  intros H. unfold buildUrl.
  rewrite (foldl_agree (substitute args) (substitute args')).
  - rewrite (foldl_agree (setParam args) (setParam args')); [reflexivity|].
    intros a p Hp. unfold setParam.
    now rewrite (H p) by (apply elem_of_app; now right).
  - intros a p Hp. unfold substitute.
    now rewrite (H p) by (apply elem_of_app; now left).
Qed.

Lemma foldl_unset {A : Type}
    (f : Obj -> Completion A -> ParameterInfo -> Completion A)
    (args : Obj) (params : list ParameterInfo) (a : A) :
  (forall a p, unset args p -> f args (Returned a) p = Returned a) ->
  Forall (unset args) params ->
  foldl (f args) (Returned a) params = Returned a.
Proof.
  intros Hf H. induction H as [|p ps Hp _ IH]; cbn [foldl]; [reflexivity|].
  now rewrite Hf.
Qed.

(** X2. A parameter without an argument is skipped, required or not: when no
    declared parameter has an argument, the URL is the base URL followed by
    the path as it is declared, placeholders included, and no query string
    is added.  Nothing is thrown for a missing path parameter. *)
Theorem buildUrl_without_arguments (baseUrl : string) (e : ParsedEndpoint)
    (args : Obj) :
  Forall (unset args) (pathParams e ++ queryParams e) ->
  buildUrl baseUrl e args = Returned (baseUrl +:+ path e).
Proof.
  intros H. apply Forall_app in H as [Hp Hq]. unfold buildUrl.
  rewrite (foldl_unset substitute), (foldl_unset setParam); auto.
  - intros a p [_ [Hl|Hl]]; unfold setParam; now rewrite Hl.
  - intros a p [_ [Hl|Hl]]; unfold substitute; now rewrite Hl.
Qed.

(** X3. A path parameter replaces the first occurrence of its placeholder by the
    percent-encoded text of its argument.  The inserted text consists of
    unreserved characters and percent signs only, so it has no [/], [?],
    [#] or [&], and a dollar in the argument is never read as a replacement
    pattern. *)
Theorem buildUrl_path_parameter (baseUrl : string) (e : ParsedEndpoint)
    (args : Obj) (p : ParameterInfo) (pre post s : string) :
  pathParams e = [p] ->
  queryParams e = [] ->
  path e = pre +:+ ("{" +:+ param_name p +:+ "}") +:+ post ->
  braceFree (baseUrl +:+ pre) = true ->
  textOf args p s ->
  buildUrl baseUrl e args
  = Returned ((baseUrl +:+ pre) +:+ encodeURIComponent s +:+ post)
  /\ sall urlSafe (encodeURIComponent s) = true.
Proof.
  intros Hp Hq Hpath Hfree Hs.
  split; [|apply encodeURIComponent_safe].
  unfold buildUrl. rewrite Hp, Hq. cbn [foldl].
  rewrite (substitute_defined args _ p s Hs), Hpath.
  rewrite <- (app_assoc baseUrl pre). unfold replace.
  rewrite replaceFrom_first by (auto using encodeURIComponent_safe).
  reflexivity.
Qed.

Lemma foldl_setParam (args : Obj) (params : list ParameterInfo)
    (texts : list string) (query : list (string * string)) :
  NoDup (FullMode.names params) ->
  (forall n, n ∈ FullMode.names params -> lookupKey n query = None) ->
  Forall2 (textOf args) params texts ->
  foldl (setParam args) (Returned query) params
  = Returned (query ++ zip (FullMode.names params) texts).
Proof.
  intros Hnd Hfresh H. revert query Hnd Hfresh.
  induction H as [|p s ps ss Hp _ IH]; intros query Hnd Hfresh.
  - cbn. now rewrite app_nil_r.
  - unfold FullMode.names in *. rewrite fmap_cons in Hnd, Hfresh |- *.
    apply NoDup_cons in Hnd as [Hnotin Hnd].
    cbn [foldl zip zip_with]. rewrite (setParam_defined args query p s Hp).
    assert (Hset : setKey (param_name p) s query = query ++ [(param_name p, s)]).
    { assert (Hq : lookupKey (param_name p) query = None) by (apply Hfresh; left).
      clear - Hq. induction query as [|[k v] query IHq]; [reflexivity|].
      cbn [lookupKey] in Hq. cbn [setKey].
      destruct (String.eqb k (param_name p)); [discriminate|].
      now rewrite IHq. }
    rewrite IH; [| exact Hnd |].
    + rewrite Hset, <- List.app_assoc. reflexivity.
    + intros n Hn. rewrite GeneratorExtras.lookupKey_setKey.
      destruct (String.eqb_spec (param_name p) n) as [Heq|_];
        [subst n; contradiction|].
      apply Hfresh. now right.
Qed.

(** X4. The query string lists the query parameters that have an argument in
    the order of their declaration, not in the order of the arguments, each
    as [name=value] in the form encoding, separated by [&] and preceded by
    one [?]. *)
Theorem buildUrl_query_string (baseUrl : string) (e : ParsedEndpoint)
    (args : Obj) (texts : list string) :
  pathParams e = [] ->
  queryParams e <> [] ->
  NoDup (FullMode.names (queryParams e)) ->
  Forall2 (textOf args) (queryParams e) texts ->
  buildUrl baseUrl e args
  = Returned ((baseUrl +:+ path e) +:+ "?"
              +:+ serialize (zip (FullMode.names (queryParams e)) texts)).
Proof.
  intros Hp Hne Hnd H. unfold buildUrl. rewrite Hp. cbn [foldl].
  rewrite (foldl_setParam args _ texts []); auto. cbn [app].
  destruct H as [|p s ps ss _ _]; [congruence|].
  unfold FullMode.names, serialize. rewrite fmap_cons. cbn [zip zip_with].
  rewrite fmap_cons.
  match goal with
  | |- context [join "&" (?x :: ?l)] =>
      destruct (GeneratorExtras.join_head "&" x l) as [_ Hj];
      destruct (join "&" (x :: l)) eqn:E
  end.
  - exfalso. apply Hj; [|reflexivity].
    cbn [fst snd]. destruct (formEncode (param_name p)); discriminate.
  - reflexivity.
Qed.

Lemma buildUrl_declared_only_witness :
  buildUrl "https://x/v2" Petstore.getPetById
    [("petId", VNum 7); ("api_key", VStr "k"); ("limit", VNum 3)]
  = buildUrl "https://x/v2" Petstore.getPetById [("petId", VNum 7)].
Proof.
  apply buildUrl_declared_only.
  intros p Hp. apply list_elem_of_singleton in Hp as ->. reflexivity.
Defined.

Lemma buildUrl_without_arguments_witness :
  buildUrl "https://x/v2" Petstore.getPetById [("id", VNum 7)]
  = Returned "https://x/v2/pet/{petId}".
Proof.
  apply (buildUrl_without_arguments "https://x/v2" Petstore.getPetById
           [("id", VNum 7)]).
  constructor; [|constructor].
  split; [|left; reflexivity].
  intros H. apply list_elem_of_In in H. simpl in H.
  repeat (destruct H as [H|H]; [discriminate H|]). exact H.
Defined.

Lemma buildUrl_path_parameter_witness :
  buildUrl "https://x/v2" Petstore.getPetById [("petId", VStr "a/b $& c")]
  = Returned "https://x/v2/pet/a%2Fb%20%24%26%20c".
Proof.
  apply (buildUrl_path_parameter "https://x/v2" Petstore.getPetById
           [("petId", VStr "a/b $& c")] Petstore.petId "/pet/" "" "a/b $& c");
    try reflexivity.
  exists (VStr "a/b $& c"). repeat split. discriminate.
Defined.

Lemma buildUrl_query_string_witness :
  buildUrl "https://x/v2" ExtraSamples.findPetsByStatus
    [("status", VArr [VStr "available"; VStr "sold out"])]
  = Returned "https://x/v2/pet/findByStatus?status=available%2Csold+out".
Proof.
  apply (buildUrl_query_string "https://x/v2" ExtraSamples.findPetsByStatus
           [("status", VArr [VStr "available"; VStr "sold out"])]
           ["available,sold out"]).
  - reflexivity.
  - discriminate.
  - apply NoDup_singleton.
  - constructor; [|constructor].
    exists (VArr [VStr "available"; VStr "sold out"]). repeat split. discriminate.
Defined.

End UrlExtras.

(** ** The authentication headers *)

Module AuthHeaderExtras.

Import SpecWords ExtraWords AuthHeaders.

Lemma base64Char_alphabet (n : N) : isBase64 (base64Char n) = true.
Proof.
  destruct (N.ltb_spec n 64) as [Hlt|Hge].
  - assert (H : forallb (fun k => isBase64 (base64Char (N.of_nat k))) (seq 0 64) = true)
      by (vm_compute; reflexivity).
    rewrite forallb_forall in H.
    specialize (H (N.to_nat n)). rewrite N2Nat.id in H.
    apply H, in_seq. lia.
  - unfold base64Char.
    destruct (N.ltb_spec n 26); [lia|].
    destruct (N.ltb_spec n 52); [lia|].
    destruct (N.ltb_spec n 62); [lia|].
    destruct (N.eqb_spec n 62); [lia|]. reflexivity.
Qed.

Lemma base64_wellformed_upto (n : nat) (s : string) :
  (String.length s < n)%nat ->
  sall isBase64 (base64 s) = true
  /\ (String.length (base64 s) mod 4 = 0)%nat.
Proof.
  revert s. induction n as [|n IH]; intros s Hlen; [lia|].
  destruct s as [|a [|b [|c t]]].
  - split; reflexivity.
  - cbn [base64 sall]. rewrite !base64Char_alphabet. split; reflexivity.
  - cbn [base64 sall]. rewrite !base64Char_alphabet. split; reflexivity.
  - destruct (IH t) as [Hall Hmod]; [cbn [String.length] in Hlen; lia|].
    cbn [base64 sall String.length]. rewrite !base64Char_alphabet, Hall.
    split; [reflexivity|].
    replace (S (S (S (S (String.length (base64 t))))))
      with (String.length (base64 t) + 1 * 4)%nat by lia.
    now rewrite Nat.Div0.mod_add.
Qed.

Lemma base64_wellformed (s : string) :
  sall isBase64 (base64 s) = true
  /\ (String.length (base64 s) mod 4 = 0)%nat.
Proof. apply (base64_wellformed_upto (S (String.length s))). lia. Qed.

(** X12. There is at most one authentication header, and neither its name nor its
    value is empty: an empty token, user name, password or header name counts
    as absent. *)
Theorem getAuthHeaders_entries (auth : option AuthConfig) :
  (length (getAuthHeaders auth) <= 1)%nat
  /\ (forall name value : string,
        (name, value) ∈ getAuthHeaders auth -> name <> "" /\ value <> "").
Proof.
  assert (HorElse : forall o d, d <> "" -> Parser.orElse o d <> "").
  { intros [[|c s]|] d Hd; cbn; congruence. }
  unfold getAuthHeaders.
  destruct auth as [auth|]; [|split; [cbn; lia | intros ? ? H; inversion H]].
  destruct (auth_type auth);
    repeat match goal with
           | |- context [match ?o with Some _ => _ | None => _ end] =>
               destruct o as [[|? ?]|]
           end;
    cbn [nonEmpty andb];
    (split; [cbn; lia |]);
    intros name value H;
    try (inversion H; fail);
    apply list_elem_of_singleton in H; injection H as -> ->;
    (split; [try discriminate; apply HorElse; discriminate | discriminate]).
Qed.

Lemma sextet_base64Char (n : N) : (n < 64)%N -> sextet (base64Char n) = Some n.
Proof.
  intros Hlt.
  assert (H : forallb (fun k => bool_decide (sextet (base64Char (N.of_nat k))
                                             = Some (N.of_nat k))) (seq 0 64) = true)
    by (vm_compute; reflexivity).
  rewrite forallb_forall in H.
  specialize (H (N.to_nat n)). rewrite N2Nat.id in H.
  eapply bool_decide_eq_true_1. apply H, in_seq. lia.
Qed.

Lemma base64Char_not_padding (n : N) : Ascii.eqb (base64Char n) "=" = false.
Proof.
  destruct (N.ltb_spec n 64) as [Hlt|Hge].
  - assert (H : forallb (fun k => negb (Ascii.eqb (base64Char (N.of_nat k)) "="))
                  (seq 0 64) = true)
      by (vm_compute; reflexivity).
    rewrite forallb_forall in H.
    specialize (H (N.to_nat n)). rewrite N2Nat.id in H.
    apply negb_true_iff, H, in_seq. lia.
  - unfold base64Char.
    destruct (N.ltb_spec n 26); [lia|].
    destruct (N.ltb_spec n 52); [lia|].
    destruct (N.ltb_spec n 62); [lia|].
    destruct (N.eqb_spec n 62); [lia|]. reflexivity.
Qed.

Ltac sextets :=
  repeat (rewrite sextet_base64Char
            by (zify; Z.to_euclidean_division_equations; lia));
  cbn [mbind option_bind].

Ltac octet a :=
  transitivity (ascii_of_N (N_of_ascii a)); [|apply ascii_N_embedding];
  f_equal; zify; Z.to_euclidean_division_equations; lia.

Lemma base64Decode_base64_upto (n : nat) (s : string) :
  (String.length s < n)%nat -> base64Decode (base64 s) = Some s.
Proof.
  revert s. induction n as [|n IH]; intros s Hlen; [lia|].
  destruct s as [|a [|b [|c t]]].
  - reflexivity.
  - pose proof (N_ascii_bounded a) as Ha.
    cbn [base64 base64Decode]. change (Ascii.eqb "=" "=") with true. cbn match.
    unfold code. sextets. do 2 f_equal. octet a.
  - pose proof (N_ascii_bounded a) as Ha. pose proof (N_ascii_bounded b) as Hb.
    cbn [base64 base64Decode]. change (Ascii.eqb "=" "=") with true. cbn match.
    rewrite base64Char_not_padding. unfold code. sextets.
    f_equal. f_equal; [octet a|]. f_equal. octet b.
  - pose proof (N_ascii_bounded a) as Ha. pose proof (N_ascii_bounded b) as Hb.
    pose proof (N_ascii_bounded c) as Hc.
    cbn [base64 base64Decode]. rewrite base64Char_not_padding.
    unfold code. sextets.
    rewrite IH by (cbn [String.length] in Hlen; lia). cbn [mbind option_bind].
    f_equal. f_equal; [octet a|]. f_equal; [octet b|]. f_equal. octet c.
Qed.

Lemma base64Decode_base64 (s : string) : base64Decode (base64 s) = Some s.
Proof. apply (base64Decode_base64_upto (S (String.length s))). lia. Qed.

(** X13. With type basic and a non-empty user name and password there is
    exactly the header [Authorization], and only then.  Its value is [Basic]
    and a space followed by the base64 encoding of [user:password]: a text
    over the base64 alphabet whose length is a multiple of four and which a
    decoder of the alphabet of RFC 4648 turns back into [user:password],
    whatever characters the two contain. *)
Theorem basic_credentials_base64 (auth : AuthConfig) :
  auth_type auth = basic ->
  (forall name value : string,
      (name, value) ∈ getAuthHeaders (Some auth) ->
      name = "Authorization"
      /\ exists credentials user pass : string,
           username auth = Some user /\ password auth = Some pass
           /\ user <> "" /\ pass <> ""
           /\ value = "Basic " +:+ credentials
           /\ sall isBase64 credentials = true
           /\ (String.length credentials mod 4 = 0)%nat
           /\ base64Decode credentials = Some (user +:+ ":" +:+ pass))
  /\ (forall user pass : string,
        username auth = Some user -> password auth = Some pass ->
        user <> "" -> pass <> "" ->
        exists credentials : string,
          getAuthHeaders (Some auth) = [("Authorization", "Basic " +:+ credentials)]
          /\ base64Decode credentials = Some (user +:+ ":" +:+ pass)).
Proof.
  intros Ht. split.
  - intros name value H. unfold getAuthHeaders in H. rewrite Ht in H.
    destruct (username auth) as [u|]; [|inversion H].
    destruct (password auth) as [p|]; [|inversion H].
    destruct (nonEmpty u) eqn:Hu; [|inversion H].
    destruct (nonEmpty p) eqn:Hp; [|inversion H].
    cbn [andb] in H.
    apply list_elem_of_singleton in H. injection H as -> ->.
    split; [reflexivity|].
    eexists _, _, _. split; [reflexivity|]. split; [reflexivity|].
    split; [intros ->; discriminate|]. split; [intros ->; discriminate|].
    split; [reflexivity|].
    split; [apply base64_wellformed|]. split; [apply base64_wellformed|].
    apply base64Decode_base64.
  - intros user pass Hu Hp Hu' Hp'. unfold getAuthHeaders. rewrite Ht, Hu, Hp.
    replace (nonEmpty user) with true by (now destruct user).
    replace (nonEmpty pass) with true by (now destruct pass).
    cbn [andb].
    eexists. split; [reflexivity|]. apply base64Decode_base64.
Qed.

Lemma basic_credentials_base64_witness :
  getAuthHeaders
    (Some {| auth_type := basic; token := None; headerName := None;
             username := Some "u"; password := Some "p";
             clientId := None; clientSecret := None; tokenUrl := None |})
  = [("Authorization", "Basic dTpw")]
  /\ base64Decode "dTpw" = Some "u:p".
Proof.
  destruct (basic_credentials_base64
              {| auth_type := basic; token := None; headerName := None;
                 username := Some "u"; password := Some "p";
                 clientId := None; clientSecret := None; tokenUrl := None |}
              eq_refl) as [_ H].
  destruct (H "u" "p" eq_refl eq_refl) as (credentials & Hheaders & Hdecode);
    [discriminate | discriminate |].
  vm_compute in Hheaders. injection Hheaders as <-.
  split; [vm_compute; reflexivity | exact Hdecode].
Defined.

End AuthHeaderExtras.

(** ** The call handler of Search mode *)

Module HandlerExtras.

Import SpecWords ExtraWords Auth SearchHandler.

Lemma similarTools_string (id : string) (allTools : list GeneratedTool) :
  similarTools (VStr id) allTools
  = Returned (filter (fun t => includes (tool_name t) id || includes id (tool_name t)
                               = true) allTools).
Proof.
  induction allTools as [|t rest IH]; [reflexivity|].
  cbn [similarTools]. rewrite IH. unfold isSimilar, includedIn. cbn [Url.stringOf].
  destruct (includes (tool_name t) id) eqn:E1.
  - rewrite filter_cons_True by (now rewrite E1). reflexivity.
  - destruct (includes id (tool_name t)) eqn:E2.
    + rewrite filter_cons_True by (now rewrite E1, E2). reflexivity.
    + rewrite filter_cons_False by (rewrite E1, E2; discriminate). reflexivity.
Qed.

Section Handler.

Variable buildUrl : string -> ParsedEndpoint -> Obj -> string.
Variable stringify : Value -> string.
Variable searchBranch : Obj -> Completion FullMode.CallToolResult.

(** X10. Outside the search branch the handler of Search mode never throws when
    the endpoint identifier is a string or is falsy: an unknown tool, a
    missing identifier, an unknown endpoint and a failing call all come back
    as results, whatever the backend does. *)
Theorem callTool_returns (authenticatedFetch : Request -> Completion Response)
    (allTools : list GeneratedTool) (baseUrl toolName : string)
    (arguments : option Obj) :
  toolName <> "search_endpoints" ->
  (truthy (getProp "endpoint_id" (default [] arguments)) = true ->
   exists id : string, getProp "endpoint_id" (default [] arguments) = VStr id) ->
  exists result : FullMode.CallToolResult,
    callTool buildUrl stringify authenticatedFetch searchBranch
      allTools baseUrl toolName arguments
    = Returned result.
Proof.
  intros Hname Hid. unfold callTool.
  destruct (String.eqb_spec toolName "search_endpoints"); [contradiction|].
  destruct (String.eqb toolName "call_endpoint"); [|eauto].
  unfold callEndpoint.
  destruct (truthy (getProp "endpoint_id" (default [] arguments))); [|cbn; eauto].
  destruct Hid as [id ->]; [reflexivity|]. cbn [negb].
  destruct (find _ allTools) as [tool|].
  - destruct (SearchMode.executeApiCall _ _ _ _ _); eauto.
  - rewrite similarTools_string. cbn [Url.stringOf].
    destruct (filter _ allTools); eauto.
Qed.

(** X11. An endpoint identifier that no tool has makes no request: the result is
    an error that quotes the identifier and suggests, in the order of the
    tool list, the tools whose name contains the identifier or is contained
    in it; without any such tool it points to search_endpoints. *)
Theorem callEndpoint_not_found (authenticatedFetch : Request -> Completion Response)
    (allTools : list GeneratedTool) (baseUrl id : string) (args : Obj) :
  getProp "endpoint_id" args = VStr id ->
  id <> "" ->
  (forall t, t ∈ allTools -> tool_name t <> id) ->
  callEndpoint buildUrl stringify authenticatedFetch allTools baseUrl args
  = Returned (errorResult
      ("Endpoint " +:+ quote +:+ id +:+ quote +:+ " not found. "
       +:+ match filter (fun t => includes (tool_name t) id
                                  || includes id (tool_name t) = true) allTools with
           | [] => "Use search_endpoints to find available endpoints."
           | similar => "Did you mean: " +:+ join ", " (tool_name <$> similar) +:+ "?"
           end)).
Proof.
  intros Hid Hne Hnone. unfold callEndpoint. rewrite Hid.
  destruct id as [|c id]; [congruence|]. cbn [truthy nonEmpty negb].
  assert (Hfind : find (fun t => isStr (VStr (String c id)) (tool_name t)) allTools
                  = None).
  { apply ParserExtras.find_none_iff. intros t Ht. cbn [isStr].
    destruct (String.eqb_spec (String c id) (tool_name t)) as [Heq|]; [|reflexivity].
    exfalso. apply (Hnone t); [exact Ht | congruence]. }
  rewrite Hfind, similarTools_string. cbn [Url.stringOf].
  destruct (filter _ allTools); reflexivity.
Qed.

End Handler.

Lemma callTool_returns_witness :
  exists result : FullMode.CallToolResult,
    callTool Petstore.plainUrl Petstore.noText ExtraSamples.refusing
      (fun _ => Throws OtherThrown) Petstore.tools "https://x/v2" "call_endpoint"
      (Some [("endpoint_id", VStr "get_pet_by_id"); ("petId", VNum 7)])
    = Returned result.
Proof.
  apply callTool_returns.
  - discriminate.
  - intros _. exists "get_pet_by_id". reflexivity.
Defined.

Lemma callEndpoint_not_found_witness :
  callEndpoint Petstore.plainUrl Petstore.noText ExtraSamples.refusing
    Petstore.tools "https://x/v2" [("endpoint_id", VStr "get_pet")]
  = Returned (errorResult
      ("Endpoint " +:+ quote +:+ "get_pet" +:+ quote
       +:+ " not found. Did you mean: get_pet_by_id?")).
Proof.
  apply (callEndpoint_not_found Petstore.plainUrl Petstore.noText
           ExtraSamples.refusing Petstore.tools "https://x/v2" "get_pet"
           [("endpoint_id", VStr "get_pet")]).
  - reflexivity.
  - discriminate.
  - intros t Ht. apply list_elem_of_In in Ht. simpl in Ht.
    repeat (destruct Ht as [<-|Ht]; [vm_compute; discriminate|]). contradiction.
Defined.

End HandlerExtras.

(** ** The base URL *)

Module BaseUrlExtras.

Import SpecWords ExtraWords Parser.

Lemma includes_middle (s q t : string) : includes (s +:+ q +:+ t) q = true.
Proof.
  induction s as [|c s IH].
  - change ("" +:+ q +:+ t) with (q +:+ t).
    destruct (q +:+ t) eqn:E; cbn [includes]; rewrite <- E;
      now rewrite GeneratorExtras.prefix_app.
  - change (String c s +:+ q +:+ t) with (String c (s +:+ q +:+ t)).
    cbn [includes]. rewrite IH. apply orb_true_r.
Qed.

Lemma orElse_given (s d : string) : s <> "" -> orElse (Some s) d = s.
Proof. destruct s; [congruence | reflexivity]. Qed.

(** X20. The base URL is never empty.  An OpenAPI 3 document gives the URL
    of its first server when that is not empty, and http://localhost when
    there is no server or its URL is empty.  A Swagger 2.0 document gives
    [scheme://host basePath] without the space, where the scheme is the
    first of [schemes] or https, the host is [host] or localhost, and the
    base path is [basePath] or nothing, an empty text counting as absent: so
    exactly https://localhost when all three are missing, and always a URL
    with a scheme.  Any other document gives http://localhost. *)
Theorem extractBaseUrl_defaults (spec : Document) :
  nonEmpty (extractBaseUrl spec) = true
  /\ (isOpenAPIV3 spec = true ->
      (forall (server : ServerObject) (rest : list ServerObject),
          doc_servers spec = Some (server :: rest) -> server_url server <> "" ->
          extractBaseUrl spec = server_url server)
      /\ (doc_servers spec = None \/ doc_servers spec = Some []
          \/ (exists server rest, doc_servers spec = Some (server :: rest)
                                  /\ server_url server = "") ->
          extractBaseUrl spec = "http://localhost"))
  /\ (isOpenAPIV3 spec = false -> isSwagger2 spec = true ->
      includes (extractBaseUrl spec) "://" = true
      /\ (doc_schemes spec = None -> doc_host spec = None ->
          doc_basePath spec = None -> extractBaseUrl spec = "https://localhost")
      /\ exists scheme host basePath : string,
           extractBaseUrl spec = scheme +:+ "://" +:+ host +:+ basePath
           /\ (forall (first : string) (rest : list string),
                  doc_schemes spec = Some (first :: rest) -> first <> "" ->
                  scheme = first)
           /\ (doc_schemes spec = None \/ doc_schemes spec = Some []
               \/ (exists rest, doc_schemes spec = Some ("" :: rest)) ->
               scheme = "https")
           /\ (forall given : string,
                  doc_host spec = Some given -> given <> "" -> host = given)
           /\ (doc_host spec = None \/ doc_host spec = Some "" -> host = "localhost")
           /\ (forall given : string, doc_basePath spec = Some given -> basePath = given)
           /\ (doc_basePath spec = None -> basePath = ""))
  /\ (isOpenAPIV3 spec = false -> isSwagger2 spec = false ->
      extractBaseUrl spec = "http://localhost").
Proof.
  assert (HorElse : forall o d, nonEmpty d = true -> nonEmpty (orElse o d) = true).
  { intros [[|c s]|] d Hd; cbn; auto. }
  unfold extractBaseUrl.
  destruct (isOpenAPIV3 spec); [|destruct (isSwagger2 spec)].
  - split; [now apply HorElse|]. split; [|split; discriminate].
    intros _. split.
    + intros server rest -> Hurl. cbn [head fmap option_fmap option_map].
      now apply orElse_given.
    + intros [-> | [-> | (server & rest & -> & Hurl)]]; try reflexivity.
      cbn [head fmap option_fmap option_map]. now rewrite Hurl.
  - split.
    { match goal with
      | |- nonEmpty (?scheme +:+ ?rest) = true =>
          assert (Hs : nonEmpty scheme = true) by now apply HorElse
      end.
      match type of Hs with
      | nonEmpty ?scheme = true => destruct scheme; [discriminate | reflexivity]
      end. }
    split; [discriminate|]. split; [|discriminate].
    intros _ _. split; [apply includes_middle|].
    split; [now intros -> -> ->|].
    eexists _, _, _. split; [reflexivity|]. repeat split.
    + intros first rest -> Hfirst. cbn [head]. now apply orElse_given.
    + intros [-> | [-> | (rest & ->)]]; reflexivity.
    + intros given -> Hgiven. now apply orElse_given.
    + intros [-> | ->]; reflexivity.
    + intros given ->. now destruct given.
    + now intros ->.
  - split; [reflexivity|]. split; [discriminate|]. split; [discriminate|].
    reflexivity.
Qed.

Lemma extractBaseUrl_defaults_witness :
  extractBaseUrl ExtraSamples.swaggerDocument = "https://localhost"
  /\ extractBaseUrl Petstore.legacyDocument = "http://localhost".
Proof.
  destruct (extractBaseUrl_defaults ExtraSamples.swaggerDocument)
    as (_ & _ & Hswagger & _).
  destruct (extractBaseUrl_defaults Petstore.legacyDocument)
    as (_ & _ & _ & Hother).
  split.
  - destruct (Hswagger eq_refl eq_refl) as (_ & Hmissing & _).
    exact (Hmissing eq_refl eq_refl eq_refl).
  - exact (Hother eq_refl eq_refl).
Defined.

End BaseUrlExtras.
